(** * The AWS instance type provider of karpenter

    A shallow embedding of [pkg/cloudprovider/aws/instancetypes.go]: the
    provider that answers, for a provisioning request, which offerings
    (instance type, zone, capacity type) are believed to be obtainable.  It
    keeps two TTL caches: one for what EC2 describes (the instance types and
    the zones they are offered in) and one for the offerings that EC2 has
    recently refused for lack of capacity.

    Conventions of the embedding:
    - a Go pointer field is an [option]; [None] is the nil pointer;
    - a Go [map[string]T] is a [gmap string T], a [sets.String] a
      [gset string]; the order in which [range] visits a map is not fixed by
      Go and is a parameter of every loop ([RangeOrder]);
    - instants are Unix times in nanoseconds, durations are nanoseconds;
    - a call yields a [result]: a value, a returned [error], or a panic;
    - the members of the slices that the EC2 client hands over (pages,
      records, subnets) are allocated records; their pointer fields may be
      nil when the service omits the member. *)

From Stdlib Require Import ZArith Floats.
From stdpp Require Import gmap strings list fin_maps.

Local Open Scope Z_scope.

(** ** Outcomes *)

(** A Go [error] value: a message, possibly wrapping a cause ([%w]). *)
Inductive error : Type :=
  | errorString (msg : string)
  | wrapError (msg : string) (cause : error).

Inductive result (A : Type) : Type :=
  | Ok (a : A)
  | Err (e : error)
  | Panic.
Arguments Ok {A} a.
Arguments Err {A} e.
Arguments Panic {A}.

Definition bindR {A B : Type} (r : result A) (k : A → result B) : result B :=
  match r with
  | Ok a => k a
  | Err e => Err e
  | Panic => Panic
  end.

Notation "'let*' x := r 'in' k" := (bindR r (λ x, k))
  (at level 10, x name, r at level 100, k at level 200).

(** [*p] for a pointer [p]: a nil pointer dereference panics. *)
Definition deref {A : Type} (p : option A) : result A :=
  match p with
  | Some a => Ok a
  | None => Panic
  end.

(** [aws.StringValue]: the string a pointer points to, or the empty string. *)
Definition StringValue (p : option string) : string := default EmptyString p.

(** [aws.StringValueSlice]. *)
Definition StringValueSlice (ps : list (option string)) : list string :=
  StringValue <$> ps.

(** [aws.String] and [aws.StringSlice]. *)
Definition String_ (s : string) : option string := Some s.
Definition StringSlice (ss : list string) : list (option string) := Some <$> ss.

(** A loop whose body may panic or fail, threading the loop's variables. *)
Fixpoint forEach {A S : Type} (l : list A) (body : A → S → result S) (s : S)
  : result S :=
  match l with
  | [] => Ok s
  | x :: l' => let* s' := body x s in forEach l' body s'
  end.

(** ** Iteration order of [range] over a Go map

    Go visits the keys of a map in an unspecified order that may change from
    one loop to the next.  Each loop of the program is given its own order:
    any enumeration of the key set without repetition. *)
Record RangeOrder : Type := {
  range :> gset string → list string;
  range_perm : ∀ s, range s ≡ₚ elements s;
}.

Definition rangeElements : RangeOrder :=
  {| range := elements; range_perm := λ s, reflexivity (elements s) |}.

Definition rangeReversed : RangeOrder :=
  {| range := λ s, reverse (elements s);
     range_perm := λ s, reverse_Permutation (elements s) |}.

(** [for k, v := range m] over a map with values. *)
Definition rangeMap {V : Type} (o : RangeOrder) (m : gmap string V)
  : list (string * V) :=
  omap (λ k, (λ v, (k, v)) <$> m !! k) (o (dom m)).

(** ** The TTL cache (github.com/patrickmn/go-cache) *)

(** The cache library is a dependency whose source is not part of the
    package.  Its operations are modelled from the spec: an entry is a value
    with an absolute expiry (section 3, CacheEntry); a read misses once the
    expiry has passed; [SetDefault] stores the value with the expiry set to
    the instant of the call plus the cache's default duration, replacing
    any entry under the key (section 4.4); a periodic sweep removes expired
    entries (section 5). *)

Module GoCache.

(** Modelled from the spec: CacheEntry, a value and its absolute expiry
    (section 3). *)
Record Item (V : Type) : Type := {
  Object : V;
  Expiration : Z;
}.
Arguments Object {V} _.
Arguments Expiration {V} _.

(** Modelled from the spec: a cache with the fixed TTL it was created
    with (sections 4.2 to 4.4). *)
Record Cache (V : Type) : Type := {
  defaultExpiration : Z;
  items : gmap string (Item V);
}.
Arguments defaultExpiration {V} _.
Arguments items {V} _.

Section ops.
Context {V : Type}.

Definition DefaultExpiration : Z := 0.

Definition New (defaultExpiration cleanupInterval : Z) : Cache V :=
  {| defaultExpiration := defaultExpiration; items := ∅ |}.

(** Modelled from the spec: an entry is expired once its expiry has
    passed (section 3); an expiry of zero means that the entry never
    expires. *)
Definition Expired (it : Item V) (now : Z) : bool :=
  (0 <? Expiration it) && (Expiration it <? now).

(** Modelled from the spec: insert or refresh, the TTL measured from the
    instant of the call (section 4.4). *)
Definition Set_ (c : Cache V) (k : string) (x : V) (d : Z) (now : Z)
  : Cache V :=
  let d := if d =? DefaultExpiration then defaultExpiration c else d in
  let e := if 0 <? d then now + d else 0 in
  {| defaultExpiration := defaultExpiration c;
     items := <[k := {| Object := x; Expiration := e |}]> (items c) |}.

Definition SetDefault (c : Cache V) (k : string) (x : V) (now : Z)
  : Cache V :=
  Set_ c k x DefaultExpiration now.

(** Modelled from the spec: a lookup, treating an expired or absent entry
    as a miss (sections 3 and 4.4). *)
Definition Get (c : Cache V) (k : string) (now : Z) : option V :=
  match items c !! k with
  | None => None
  | Some it => if Expired it now then None else Some (Object it)
  end.

(** Modelled from the spec: the periodic sweep that reclaims expired
    entries (section 5). *)
Definition DeleteExpired (c : Cache V) (now : Z) : Cache V :=
  {| defaultExpiration := defaultExpiration c;
     items := filter (λ kv, Expired kv.2 now = false) (items c) |}.

End ops.

End GoCache.

Arguments GoCache.SetDefault {V} c k x now : simpl never.
Arguments GoCache.Get {V} c k now : simpl never.
Arguments GoCache.DeleteExpired {V} c now : simpl never.

(** ** Constants *)

Definition Minute : Z := 60 * 1000000000.

Definition InstanceTypesCacheKey : string := "types".
Definition InstanceTypeZonesCacheKeyPrefix : string := "zones:".
Definition InstanceTypesAndZonesCacheTTL : Z := 5 * Minute.
Definition UnfulfillableCapacityErrorCacheTTL : Z := 3 * Minute.

(** ** The EC2 records the provider reads *)

Record VCpuInfo : Type := {
  DefaultVCpus : option Z;
  DefaultCores : option Z;
  DefaultThreadsPerCore : option Z;
}.

Record MemoryInfo : Type := {
  SizeInMiB : option Z;
}.

Record ProcessorInfo : Type := {
  SupportedArchitectures : list (option string);
  SustainedClockSpeedInGhz : option float;
}.

Record NetworkInfo : Type := {
  Ipv4AddressesPerInterface : option Z;
  MaximumNetworkInterfaces : option Z;
  Ipv6AddressesPerInterface : option Z;
  NetworkPerformance : option string;
}.

Record GpuInfo : Type := { TotalGpuMemoryInMiB : option Z }.
Record FpgaInfo : Type := { TotalFpgaMemoryInMiB : option Z }.
Record InferenceAcceleratorInfo : Type := { AcceleratorCount : option Z }.
Record InstanceStorageInfo : Type := { TotalSizeInGB : option Z }.

Record InstanceTypeInfo : Type := {
  InstanceType : option string;
  Hypervisor : option string;
  SupportedUsageClasses : list (option string);
  VCpuInfo_ : option VCpuInfo;
  GpuInfo_ : option GpuInfo;
  FpgaInfo_ : option FpgaInfo;
  InferenceAcceleratorInfo_ : option InferenceAcceleratorInfo;
  InstanceStorageInfo_ : option InstanceStorageInfo;
  MemoryInfo_ : option MemoryInfo;
  ProcessorInfo_ : option ProcessorInfo;
  NetworkInfo_ : option NetworkInfo;
  BareMetal : option bool;
  CurrentGeneration : option bool;
}.

Record InstanceTypeOffering : Type := {
  OfferingInstanceType : option string;
  Location : option string;
  LocationType : option string;
}.

Record Subnet : Type := {
  AvailabilityZone : option string;
  SubnetId : option string;
}.

Record DescribeInstanceTypesOutput : Type := {
  InstanceTypes : list InstanceTypeInfo;
}.

Record DescribeInstanceTypeOfferingsOutput : Type := {
  InstanceTypeOfferings : list InstanceTypeOffering;
}.

Record Filter : Type := {
  Name : option string;
  Values : list (option string);
}.

Record DescribeInstanceTypesInput : Type := {
  Filters : list Filter;
}.

Record DescribeInstanceTypeOfferingsInput : Type := {
  InputLocationType : option string;
}.

Record FleetLaunchTemplateOverrides : Type := {
  OverridesInstanceType : option string;
  OverridesAvailabilityZone : option string;
}.

Record LaunchTemplateAndOverridesResponse : Type := {
  Overrides : option FleetLaunchTemplateOverrides;
}.

Record CreateFleetError : Type := {
  ErrorCode : option string;
  LaunchTemplateAndOverrides : option LaunchTemplateAndOverridesResponse;
}.

(** The provisioner's AWS settings; only the subnet selector is read here. *)
Record AWS : Type := {
  SubnetSelector : gmap string string;
}.

(** ** What the provider returns *)

Record Offering : Type := {
  Zone : string;
  CapacityType : string;
}.

#[global] Instance Offering_eq_dec : EqDecision Offering.
Proof. solve_decision. Defined.

(** Modelled from the spec: [NewInstanceType] is declared in another file of
    the package.  The offered shape it builds carries the shape record, the
    attached price and the offerings synthesized for it (sections 3 and
    4.6). *)
Record OfferedInstanceType : Type := {
  Info : InstanceTypeInfo;
  Price : float;
  Provider : AWS;
  Offerings : list Offering;
}.

Definition NewInstanceType (info : InstanceTypeInfo) (price : float)
    (provider : AWS) (offerings : list Offering) : OfferedInstanceType :=
  {| Info := info; Price := price; Provider := provider;
     Offerings := offerings |}.

(** [math.MaxFloat64], the largest finite double. *)
Definition MaxFloat64 : float := 0x1.fffffffffffffp1023%float.

(** ** Paginated requests

    The answer of EC2 to a paginated request, as the client sees it: pages,
    then the end of the listing or an error. *)
Inductive Pages (P : Type) : Type :=
  | EndOfPages
  | NextPage (page : P) (rest : Pages P)
  | PageError (e : error).
Arguments EndOfPages {P}.
Arguments NextPage {P} page rest.
Arguments PageError {P} e.

(** [...PagesWithContext(ctx, input, fn)]: hands each page to [fn] until the
    listing ends, [fn] returns false, or a request fails.  [s] is the state
    that the closure [fn] captures; it is returned next to the error. *)
Fixpoint EachPage {P S : Type} (pages : Pages P)
    (fn : P → bool → S → result (S * bool)) (s : S)
  : result (S * option error) :=
  match pages with
  | EndOfPages => Ok (s, None)
  | PageError e => Ok (s, Some e)
  | NextPage page rest =>
      let lastPage := match rest with EndOfPages => true | _ => false end in
      let* r := fn page lastPage s in
      if r.2 then EachPage rest fn r.1 else Ok (r.1, None)
  end.

(** The pages a listing delivers before it ends or fails. *)
Fixpoint delivered {P : Type} (pages : Pages P) : list P :=
  match pages with
  | NextPage page rest => page :: delivered rest
  | _ => []
  end.

(** The error a listing ends with, if any. *)
Fixpoint failure {P : Type} (pages : Pages P) : option error :=
  match pages with
  | EndOfPages => None
  | NextPage _ rest => failure rest
  | PageError e => Some e
  end.

(** ** The provider *)

(** What the [interface{}] values of the first cache hold. *)
Inductive CacheValue : Type :=
  | InstanceTypesValue (m : gmap string InstanceTypeInfo)
  | InstanceTypeZonesValue (m : gmap string (gset string)).

(** The mutable part of [InstanceTypeProvider]: its two caches.  The EC2
    client, the subnet provider and the pricing provider are collaborators;
    what they answer is part of the [World] of a call. *)
Record InstanceTypeProvider : Type := {
  cache : GoCache.Cache CacheValue;
  unavailableOfferings : GoCache.Cache unit;
}.

(** What surrounds one call: the instant at which it runs, the answers of
    the collaborators, and the order of each [range] loop over a map.  A
    collaborator returning [(value, error)] answers [inr value] or
    [inl error]. *)
Record World : Type := {
  now : Z;
  DescribeInstanceTypesPages :
    DescribeInstanceTypesInput → Pages DescribeInstanceTypesOutput;
  DescribeInstanceTypeOfferingsPages :
    DescribeInstanceTypeOfferingsInput →
    Pages DescribeInstanceTypeOfferingsOutput;
  SubnetProviderGet : AWS → error + list Subnet;
  OnDemandPrice : string → error + float;
  rangeInstanceTypes : RangeOrder;
  rangeZones : string → RangeOrder;
  rangeUsageClasses : string → string → RangeOrder;
}.

(** A method of the provider: it reads and updates the caches and returns,
    fails or panics.  The mutex that [Get] holds makes its calls atomic with
    respect to each other; calls are modelled one after the other. *)
Definition M (A : Type) : Type :=
  InstanceTypeProvider → result A * InstanceTypeProvider.

Definition bindM {A B : Type} (m : M A) (k : A → M B) : M B :=
  λ p, match m p with
       | (Ok a, p') => k a p'
       | (Err e, p') => (Err e, p')
       | (Panic, p') => (Panic, p')
       end.

Notation "'do*' x := m 'in' k" := (bindM m (λ x, k))
  (at level 10, x name, m at level 100, k at level 200).

(** The CacheCleanupInterval constant is declared in another file of the
    package and is taken as a parameter. *)
Definition NewInstanceTypeProvider (CacheCleanupInterval : Z)
  : InstanceTypeProvider :=
  {| cache := GoCache.New InstanceTypesAndZonesCacheTTL CacheCleanupInterval;
     unavailableOfferings :=
       GoCache.New UnfulfillableCapacityErrorCacheTTL CacheCleanupInterval |}.

(** [fmt.Sprintf("%s:%s:%s", capacityType, instanceType, zone)]. *)
Definition UnavailableOfferingsCacheKey (instanceType zone capacityType : string)
  : string :=
  capacityType +:+ ":" +:+ instanceType +:+ ":" +:+ zone.

(** Modelled from the spec: [functional.HasAnyPrefix] is declared in another
    package of the repository; it tells whether the identifier starts with
    one of the given prefixes (section 4.2, the blocklist of instance-family
    prefixes). *)
Definition HasAnyPrefix (s : string) (prefixes : list string) : bool :=
  existsb (λ prefix, String.prefix prefix s) prefixes.

(** filter the instance types to include useful ones for Kubernetes *)
Definition filter (instanceType : InstanceTypeInfo) : bool :=
  match FpgaInfo_ instanceType with
  | Some _ => false
  | None =>
      if HasAnyPrefix (StringValue (InstanceType instanceType)) ["g2"%string]
      then false
      else true
  end.

Definition compressInstanceType (instanceType : InstanceTypeInfo)
  : result InstanceTypeInfo :=
  let* vcpu := deref (VCpuInfo_ instanceType) in
  let* memory := deref (MemoryInfo_ instanceType) in
  let* processor := deref (ProcessorInfo_ instanceType) in
  let* network := deref (NetworkInfo_ instanceType) in
  Ok {| InstanceType := InstanceType instanceType;
        Hypervisor := Hypervisor instanceType;
        SupportedUsageClasses := SupportedUsageClasses instanceType;
        VCpuInfo_ :=
          Some {| DefaultVCpus := DefaultVCpus vcpu;
                  DefaultCores := None;
                  DefaultThreadsPerCore := None |};
        GpuInfo_ := GpuInfo_ instanceType;
        FpgaInfo_ := None;
        InferenceAcceleratorInfo_ := InferenceAcceleratorInfo_ instanceType;
        InstanceStorageInfo_ := InstanceStorageInfo_ instanceType;
        MemoryInfo_ := Some {| SizeInMiB := SizeInMiB memory |};
        ProcessorInfo_ :=
          Some {| SupportedArchitectures := SupportedArchitectures processor;
                  SustainedClockSpeedInGhz := None |};
        NetworkInfo_ :=
          Some {| Ipv4AddressesPerInterface :=
                    Ipv4AddressesPerInterface network;
                  MaximumNetworkInterfaces :=
                    MaximumNetworkInterfaces network;
                  Ipv6AddressesPerInterface := None;
                  NetworkPerformance := None |};
        BareMetal := None;
        CurrentGeneration := None |}.

(** CacheUnavailable allows the InstanceProvider to communicate recently
    observed temporary capacity shortages in the provided offerings.  It
    does not take the provider's mutex. *)
Definition CacheUnavailable (now : Z) (fleetErr : CreateFleetError)
    (capacityType : string) : M unit :=
  λ p,
    match (let* response := deref (LaunchTemplateAndOverrides fleetErr) in
           deref (Overrides response)) with
    | Ok overrides =>
        let instanceType := StringValue (OverridesInstanceType overrides) in
        let zone := StringValue (OverridesAvailabilityZone overrides) in
        (Ok tt,
         {| cache := cache p;
            unavailableOfferings :=
              GoCache.SetDefault (unavailableOfferings p)
                (UnavailableOfferingsCacheKey instanceType zone capacityType)
                tt now |})
    | Err e => (Err e, p)
    | Panic => (Panic, p)
    end.

(** The second value of [p.unavailableOfferings.Get(key)]: whether the
    offering has recently seen an insufficient capacity error. *)
Definition isUnavailable (p : InstanceTypeProvider)
    (instanceType zone capacityType : string) (now : Z) : bool :=
  match GoCache.Get (unavailableOfferings p)
          (UnavailableOfferingsCacheKey instanceType zone capacityType)
          now with
  | Some _ => true
  | None => false
  end.

(** The usage classes of a record as a set: while usage classes should be a
    distinct set, there is no guarantee of that. *)
Definition usageClasses (instanceType : InstanceTypeInfo) : gset string :=
  list_to_set (StringValueSlice (SupportedUsageClasses instanceType)).

Definition createOfferings (now : Z) (rz : RangeOrder)
    (rc : string → RangeOrder) (instanceType : InstanceTypeInfo)
    (zones : gset string) (p : InstanceTypeProvider) : result (list Offering) :=
  forEach (rz zones)
    (λ zone offerings,
       forEach (rc zone (usageClasses instanceType))
         (λ capacityType offerings,
            let* name := deref (InstanceType instanceType) in
            if isUnavailable p name zone capacityType now
            then Ok offerings
            else Ok (offerings ++
                     [{| Zone := zone; CapacityType := capacityType |}]))
         offerings)
    [].

(** [%016x] of a 64-bit unsigned integer: sixteen hexadecimal digits. *)
Definition hexDigit (d : Z) : Ascii.ascii :=
  nth (Z.to_nat d) (String.list_ascii_of_string "0123456789abcdef")
    (Ascii.ascii_of_nat 48).

Fixpoint hexDigits (n : nat) (x : Z) (acc : string) : string :=
  match n with
  | O => acc
  | S n' => hexDigits n' (x / 16) (String (hexDigit (x mod 16)) acc)
  end.

Definition Sprintf_016x (x : Z) : string := hexDigits 16 x "".

(** [fmt.Sprintf("%s%016x", InstanceTypeZonesCacheKeyPrefix, hash)]. *)
Definition zonesCacheKey (subnetSelectorHash : Z) : string :=
  InstanceTypeZonesCacheKeyPrefix +:+ Sprintf_016x subnetSelectorHash.

(** The type assertions on cached values. *)
Definition assertInstanceTypes (cached : CacheValue)
  : result (gmap string InstanceTypeInfo) :=
  match cached with
  | InstanceTypesValue m => Ok m
  | InstanceTypeZonesValue _ => Panic
  end.

Definition assertInstanceTypeZones (cached : CacheValue)
  : result (gmap string (gset string)) :=
  match cached with
  | InstanceTypeZonesValue m => Ok m
  | InstanceTypesValue _ => Panic
  end.

Definition setCache (p : InstanceTypeProvider) (k : string) (v : CacheValue)
    (now : Z) : InstanceTypeProvider :=
  {| cache := GoCache.SetDefault (cache p) k v now;
     unavailableOfferings := unavailableOfferings p |}.

(** The filters of the DescribeInstanceTypes request. *)
Definition instanceTypesInput : DescribeInstanceTypesInput :=
  {| Filters :=
       [ {| Name := String_ "supported-virtualization-type";
            Values := [String_ "hvm"] |};
         {| Name := String_ "processor-info.supported-architecture";
            Values := StringSlice ["x86_64"; "arm64"]%string |} ] |}.

(** The body of the loop over the records of a page. *)
Definition retain (instanceType : InstanceTypeInfo)
    (instanceTypes : gmap string InstanceTypeInfo)
  : result (gmap string InstanceTypeInfo) :=
  if filter instanceType
  then let* compressed := compressInstanceType instanceType in
       Ok (<[StringValue (InstanceType instanceType) := compressed]>
             instanceTypes)
  else Ok instanceTypes.

(** The page callback of [getInstanceTypes]. *)
Definition instanceTypesPage (page : DescribeInstanceTypesOutput)
    (lastPage : bool) (instanceTypes : gmap string InstanceTypeInfo)
  : result (gmap string InstanceTypeInfo * bool) :=
  let* instanceTypes := forEach (InstanceTypes page) retain instanceTypes in
  Ok (instanceTypes, true).

(** getInstanceTypes retrieves all instance types from the ec2
    DescribeInstanceTypes API using some opinionated filters *)
Definition getInstanceTypes (w : World) (provider : AWS)
  : M (gmap string InstanceTypeInfo) :=
  λ p,
    match GoCache.Get (cache p) InstanceTypesCacheKey (now w) with
    | Some cached => (assertInstanceTypes cached, p)
    | None =>
        match EachPage (DescribeInstanceTypesPages w instanceTypesInput)
                instanceTypesPage ∅ with
        | Ok (_, Some err) =>
            (Err (wrapError
                    "fetching instance types using ec2.DescribeInstanceTypes, "
                    err), p)
        | Ok (instanceTypes, None) =>
            (Ok instanceTypes,
             setCache p InstanceTypesCacheKey
               (InstanceTypesValue instanceTypes) (now w))
        | Err e => (Err e, p)
        | Panic => (Panic, p)
        end
    end.

(** The body of the loop over the offerings of a page: the zone of an
    offering located in one of the candidate [zones] is inserted into the
    set of the instance type, created empty when it is not there yet. *)
Definition addOffering (zones : gset string)
    (instanceTypeZones : gmap string (gset string))
    (offering : InstanceTypeOffering) : gmap string (gset string) :=
  if decide (StringValue (Location offering) ∈ zones)
  then
    let name := StringValue (OfferingInstanceType offering) in
    let instanceTypeZones :=
      match instanceTypeZones !! name with
      | Some _ => instanceTypeZones
      | None => <[name := ∅]> instanceTypeZones
      end in
    <[name := default ∅ (instanceTypeZones !! name) ∪
              {[StringValue (Location offering)]}]> instanceTypeZones
  else instanceTypeZones.

(** The page callback of [getInstanceTypeZones]. *)
Definition instanceTypeOfferingsPage (zones : gset string)
    (output : DescribeInstanceTypeOfferingsOutput) (lastPage : bool)
    (instanceTypeZones : gmap string (gset string))
  : result (gmap string (gset string) * bool) :=
  Ok (foldl (addOffering zones) instanceTypeZones
        (InstanceTypeOfferings output),
      true).

(** The manual override for an offering that EC2 does not report. *)
Definition forceOffering (zones : gset string)
    (instanceTypeZones : gmap string (gset string))
  : gmap string (gset string) :=
  match instanceTypeZones !! "p4de.24xlarge"%string with
  | None =>
      if decide ("us-east-1d"%string ∈ zones)
      then <["p4de.24xlarge"%string := {["us-east-1d"%string]}]>
             instanceTypeZones
      else instanceTypeZones
  | Some _ => instanceTypeZones
  end.

(** Constrain AZs from subnets: the candidate zones. *)
Definition subnetZones (subnets : list Subnet) : gset string :=
  list_to_set ((λ subnet, StringValue (AvailabilityZone subnet)) <$> subnets).

(** The DescribeInstanceTypeOfferings request. *)
Definition instanceTypeOfferingsInput : DescribeInstanceTypeOfferingsInput :=
  {| InputLocationType := String_ "availability-zone" |}.

Section provider.

(** [hashstructure.Hash(selector, hashstructure.FormatV2, nil)]: a 64-bit
    fingerprint of the selector, or an error.  The hashing library is a
    dependency; the provider only needs it to be a function of the
    selector. *)
Variable Hash : gmap string string → error + Z.

Definition getInstanceTypeZones (w : World) (provider : AWS)
  : M (gmap string (gset string)) :=
  λ p,
    match Hash (SubnetSelector provider) with
    | inl err =>
        (Err (wrapError "failed to hash the subnet selector: " err), p)
    | inr subnetSelectorHash =>
        let cacheKey := zonesCacheKey subnetSelectorHash in
        match GoCache.Get (cache p) cacheKey (now w) with
        | Some cached => (assertInstanceTypeZones cached, p)
        | None =>
            match SubnetProviderGet w provider with
            | inl err => (Err err, p)
            | inr subnets =>
                let zones := subnetZones subnets in
                match EachPage
                        (DescribeInstanceTypeOfferingsPages w
                           instanceTypeOfferingsInput)
                        (instanceTypeOfferingsPage zones) ∅ with
                | Ok (_, Some err) =>
                    (Err (wrapError
                            "describing instance type zone offerings, "
                            err), p)
                | Ok (instanceTypeZones, None) =>
                    let instanceTypeZones :=
                      forceOffering zones instanceTypeZones in
                    (Ok instanceTypeZones,
                     setCache p cacheKey
                       (InstanceTypeZonesValue instanceTypeZones) (now w))
                | Err e => (Err e, p)
                | Panic => (Panic, p)
                end
            end
        end
    end.

(** The body of the loop of [Get] over the instance types. *)
Definition offer (w : World) (provider : AWS)
    (instanceTypeZones : gmap string (gset string))
    (p : InstanceTypeProvider) (i : InstanceTypeInfo)
    (results : list OfferedInstanceType)
  : result (list OfferedInstanceType) :=
  let instanceTypeName := StringValue (InstanceType i) in
  let price :=
    match OnDemandPrice w instanceTypeName with
    | inr price => price
    | inl _ => MaxFloat64
    end in
  let* offerings :=
    createOfferings (now w) (rangeZones w instanceTypeName)
      (rangeUsageClasses w instanceTypeName) i
      (default ∅ (instanceTypeZones !! instanceTypeName)) p in
  Ok (results ++ [NewInstanceType i price provider offerings]).

(** Get all instance type options *)
Definition Get (w : World) (provider : AWS) : M (list OfferedInstanceType) :=
  do* instanceTypes := getInstanceTypes w provider in
  do* instanceTypeZones := getInstanceTypeZones w provider in
  λ p,
    (forEach (rangeMap (rangeInstanceTypes w) instanceTypes).*2
       (offer w provider instanceTypeZones p) [],
     p).

End provider.

(** ** Definitions used to state the properties *)

(** What one round of the inner loop of [createOfferings] appends. *)
Definition offeringIfAvailable (p : InstanceTypeProvider) (name : string)
    (now : Z) (zone capacityType : string) : list Offering :=
  if isUnavailable p name zone capacityType now
  then []
  else [{| Zone := zone; CapacityType := capacityType |}].

(** The provider as [NewInstanceTypeProvider] configures it: the default
    durations of the two caches.  No method changes them. *)
Definition Configured (p : InstanceTypeProvider) : Prop :=
  GoCache.defaultExpiration (cache p) = InstanceTypesAndZonesCacheTTL ∧
  GoCache.defaultExpiration (unavailableOfferings p) =
    UnfulfillableCapacityErrorCacheTTL.

(** A rejection of the fleet request whose launch template overrides are
    present. *)
Definition fleetError (code : option string)
    (overrides : FleetLaunchTemplateOverrides) : CreateFleetError :=
  {| ErrorCode := code;
     LaunchTemplateAndOverrides := Some {| Overrides := Some overrides |} |}.

(** The provider after a report made at instant [t]. *)
Definition reportAt (fleetErr : CreateFleetError) (capacityType : string)
    (p : InstanceTypeProvider) (t : Z) : InstanceTypeProvider :=
  (CacheUnavailable t fleetErr capacityType p).2.

(** The provider at instant [now], when the same rejection is reported at
    the successive instants [reports]: the reports due by [now] have been
    made. *)
Fixpoint stateAt (fleetErr : CreateFleetError) (capacityType : string)
    (reports : list Z) (now : Z) (p : InstanceTypeProvider)
  : InstanceTypeProvider :=
  match reports with
  | [] => p
  | t :: later =>
      if t <=? now
      then stateAt fleetErr capacityType later now
             (reportAt fleetErr capacityType p t)
      else p
  end.

(** A burst of reports: successive instants, each less than [ttl] after the
    one before. *)
Inductive Burst (ttl : Z) : list Z → Prop :=
  | Burst_last (t : Z) : Burst ttl [t]
  | Burst_next (t t' : Z) (later : list Z) :
      t ≤ t' < t + ttl → Burst ttl (t' :: later) → Burst ttl (t :: t' :: later).

(** A call of [CacheUnavailable]: its instant, the error code and the
    overrides of the fleet error, and the capacity type. *)
Record Report : Type := {
  reportInstant : Z;
  reportCode : option string;
  reportOverrides : FleetLaunchTemplateOverrides;
  reportClass : string;
}.

(** The key under which the call stores the offering. *)
Definition reportKey (r : Report) : string :=
  UnavailableOfferingsCacheKey
    (StringValue (OverridesInstanceType (reportOverrides r)))
    (StringValue (OverridesAvailabilityZone (reportOverrides r)))
    (reportClass r).

(** The provider after the calls of a log, made in the order of the log. *)
Definition replay (log : list Report) (p : InstanceTypeProvider)
  : InstanceTypeProvider :=
  foldl (λ q r,
           reportAt (fleetError (reportCode r) (reportOverrides r))
             (reportClass r) q (reportInstant r))
    p log.

(** The last call of the log that bears the key. *)
Definition lastReport (key : string) (log : list Report) : option Report :=
  last (base.filter (λ r, reportKey r = key) log).

(** The records that the DescribeInstanceTypes listing delivers to the page
    callback, in order. *)
Definition fetchedInstanceTypes (w : World) : list InstanceTypeInfo :=
  delivered (DescribeInstanceTypesPages w instanceTypesInput) ≫= InstanceTypes.

(** The zonal offerings that the DescribeInstanceTypeOfferings listing
    delivers to the page callback, in order. *)
Definition fetchedOfferings (w : World) : list InstanceTypeOffering :=
  delivered (DescribeInstanceTypeOfferingsPages w instanceTypeOfferingsInput)
  ≫= InstanceTypeOfferings.

(** A record that carries the four nested structures that compression
    reads. *)
Definition complete (instanceType : InstanceTypeInfo) : Prop :=
  is_Some (VCpuInfo_ instanceType) ∧ is_Some (MemoryInfo_ instanceType) ∧
  is_Some (ProcessorInfo_ instanceType) ∧ is_Some (NetworkInfo_ instanceType).

#[global] Instance complete_dec i : Decision (complete i).
Proof. unfold complete. apply _. Defined.

(** The identifier under which [Get] looks a record up. *)
Definition nameOf (instanceType : InstanceTypeInfo) : string :=
  StringValue (InstanceType instanceType).

(** The zones [Get] hands to [createOfferings]: a missing entry of a Go map
    reads as the nil set. *)
Definition zonesOf (instanceTypeZones : gmap string (gset string))
    (instanceType : InstanceTypeInfo) : gset string :=
  default ∅ (instanceTypeZones !! nameOf instanceType).

(** A record for which [createOfferings] reaches the dereference of a nil
    identifier. *)
Definition unnamedWithOfferings (zones : gset string)
    (instanceType : InstanceTypeInfo) : Prop :=
  InstanceType instanceType = None ∧ zones ≠ ∅ ∧
  usageClasses instanceType ≠ ∅.

#[global] Instance unnamedWithOfferings_dec zones i :
  Decision (unnamedWithOfferings zones i).
Proof. unfold unnamedWithOfferings. apply _. Defined.

(** The price [Get] attaches. *)
Definition priceOf (w : World) (name : string) : float :=
  match OnDemandPrice w name with
  | inr price => price
  | inl _ => MaxFloat64
  end.

(** What a round of the loop of [Get] appends for a record, when it does
    not panic. *)
Definition offered (w : World) (provider : AWS)
    (instanceTypeZones : gmap string (gset string))
    (p : InstanceTypeProvider) (i : InstanceTypeInfo) : OfferedInstanceType :=
  NewInstanceType i (priceOf w (nameOf i)) provider
    (rangeZones w (nameOf i) (zonesOf instanceTypeZones i) ≫= λ zone,
       rangeUsageClasses w (nameOf i) zone (usageClasses i) ≫=
         offeringIfAvailable p (nameOf i) (now w) zone).

(** The offering set of a result: the offerings it holds, each with the
    identifier of its shape. *)
Definition offeringSet (results : list OfferedInstanceType)
  : list (string * Offering) :=
  results ≫= λ o, (λ offering, (nameOf (Info o), offering)) <$> Offerings o.

Definition offers (results : list OfferedInstanceType)
    (name zone capacityType : string) : Prop :=
  (name, {| Zone := zone; CapacityType := capacityType |}) ∈
  offeringSet results.

#[global] Instance offers_dec results name zone capacityType :
  Decision (offers results name zone capacityType).
Proof. unfold offers. apply _. Defined.

(** ** A small catalog, for the examples

    Shapes [A] (on-demand and spot, the latter listed twice), [B]
    (on-demand) and [C] (spot), next to a G2 shape and a shape with an FPGA;
    [A] is offered in [z1] and [z2], [B] in [z1] and, outside the subnets,
    in [z3]; no zone is reported for [C].  Only [A] has a price. *)
Definition exampleType (name : string) (classes : list string)
  : InstanceTypeInfo :=
  {| InstanceType := Some name;
     Hypervisor := Some "nitro"%string;
     SupportedUsageClasses := Some <$> classes;
     VCpuInfo_ :=
       Some {| DefaultVCpus := Some 2; DefaultCores := Some 1;
               DefaultThreadsPerCore := Some 2 |};
     GpuInfo_ := None;
     FpgaInfo_ := None;
     InferenceAcceleratorInfo_ := None;
     InstanceStorageInfo_ := None;
     MemoryInfo_ := Some {| SizeInMiB := Some 8192 |};
     ProcessorInfo_ :=
       Some {| SupportedArchitectures := [Some "x86_64"%string];
               SustainedClockSpeedInGhz := None |};
     NetworkInfo_ :=
       Some {| Ipv4AddressesPerInterface := Some 10;
               MaximumNetworkInterfaces := Some 3;
               Ipv6AddressesPerInterface := Some 10;
               NetworkPerformance := Some "Up to 10 Gigabit"%string |};
     BareMetal := Some false;
     CurrentGeneration := Some true |}.

Definition exampleOffering (name zone : string) : InstanceTypeOffering :=
  {| OfferingInstanceType := Some name; Location := Some zone;
     LocationType := Some "availability-zone"%string |}.

Definition exampleSubnet (zone : string) : Subnet :=
  {| AvailabilityZone := Some zone; SubnetId := None |}.

Definition withFpga (i : InstanceTypeInfo) : InstanceTypeInfo :=
  {| InstanceType := InstanceType i;
     Hypervisor := Hypervisor i;
     SupportedUsageClasses := SupportedUsageClasses i;
     VCpuInfo_ := VCpuInfo_ i;
     GpuInfo_ := GpuInfo_ i;
     FpgaInfo_ := Some {| TotalFpgaMemoryInMiB := Some 65536 |};
     InferenceAcceleratorInfo_ := InferenceAcceleratorInfo_ i;
     InstanceStorageInfo_ := InstanceStorageInfo_ i;
     MemoryInfo_ := MemoryInfo_ i;
     ProcessorInfo_ := ProcessorInfo_ i;
     NetworkInfo_ := NetworkInfo_ i;
     BareMetal := BareMetal i;
     CurrentGeneration := CurrentGeneration i |}.

Definition exampleTypes : list InstanceTypeInfo :=
  [exampleType "A" ["on-demand"; "spot"; "spot"];
   exampleType "g2.2xlarge" ["on-demand"];
   exampleType "B" ["on-demand"];
   withFpga (exampleType "f1.2xlarge" ["on-demand"]);
   exampleType "C" ["spot"]]%string.

Definition exampleOfferings : list InstanceTypeOffering :=
  [exampleOffering "A" "z1"; exampleOffering "A" "z2";
   exampleOffering "B" "z1"; exampleOffering "B" "z3"]%string.

Definition exampleWorld (t : Z) : World :=
  {| now := t;
     DescribeInstanceTypesPages := λ _,
       NextPage {| InstanceTypes := exampleTypes |} EndOfPages;
     DescribeInstanceTypeOfferingsPages := λ _,
       NextPage {| InstanceTypeOfferings := exampleOfferings |} EndOfPages;
     SubnetProviderGet := λ _,
       inr [exampleSubnet "z1"; exampleSubnet "z2"]%string;
     OnDemandPrice := λ name,
       if decide (name = "A"%string) then inr 0.5%float
       else inl (errorString "instance type not found");
     rangeInstanceTypes := rangeElements;
     rangeZones := λ _, rangeReversed;
     rangeUsageClasses := λ _ _, rangeElements |}.

Definition exampleHash : gmap string string → error + Z :=
  λ selector, inr (7 + Z.of_nat (size selector)).

Definition exampleRequest : AWS := {| SubnetSelector := ∅ |}.

Definition exampleProvider : InstanceTypeProvider :=
  NewInstanceTypeProvider (10 * Minute).

(** The catalog and the zones that the first [Get] fetches, and the
    provider after each fetch. *)
Definition exampleCatalog : gmap string InstanceTypeInfo :=
  match (getInstanceTypes (exampleWorld 0) exampleRequest exampleProvider).1
  with
  | Ok instanceTypes => instanceTypes
  | _ => ∅
  end.

Definition exampleProvider1 : InstanceTypeProvider :=
  (getInstanceTypes (exampleWorld 0) exampleRequest exampleProvider).2.

Definition exampleZones : gmap string (gset string) :=
  match (getInstanceTypeZones exampleHash (exampleWorld 0) exampleRequest
           exampleProvider1).1 with
  | Ok instanceTypeZones => instanceTypeZones
  | _ => ∅
  end.

Definition exampleProvider2 : InstanceTypeProvider :=
  (getInstanceTypeZones exampleHash (exampleWorld 0) exampleRequest
     exampleProvider1).2.

(** The same catalog with other prices: [A] at +Inf, [B] at the largest
    finite double, none for [C]; every shape has zones. *)
Definition pricedWorld : World :=
  {| now := 0;
     DescribeInstanceTypesPages := DescribeInstanceTypesPages (exampleWorld 0);
     DescribeInstanceTypeOfferingsPages := λ _,
       NextPage
         {| InstanceTypeOfferings :=
              exampleOffering "C" "z2" :: exampleOfferings |}
         EndOfPages;
     SubnetProviderGet := SubnetProviderGet (exampleWorld 0);
     OnDemandPrice := λ name,
       if decide (name = "A"%string) then inr infinity
       else if decide (name = "B"%string) then inr MaxFloat64
       else inl (errorString "instance type not found");
     rangeInstanceTypes := rangeElements;
     rangeZones := λ _, rangeElements;
     rangeUsageClasses := λ _ _, rangeElements |}.

(** A rejected spot request for [A] in [z1], and a burst of reports of it. *)
Definition exampleOverrides : FleetLaunchTemplateOverrides :=
  {| OverridesInstanceType := Some "A"%string;
     OverridesAvailabilityZone := Some "z1"%string |}.

Definition exampleFleetError : CreateFleetError :=
  fleetError (Some "InsufficientInstanceCapacity"%string) exampleOverrides.

Definition exampleBurst : list Z := [0; 2 * Minute; 4 * Minute].

(** A log of reports for [A]: its spot and its on-demand offering in [z1]
    at the start, and the spot offering again after one minute and after
    three minutes. *)
Definition exampleLog : list Report :=
  [{| reportInstant := 0;
      reportCode := Some "InsufficientInstanceCapacity";
      reportOverrides := exampleOverrides; reportClass := "spot" |};
   {| reportInstant := 0;
      reportCode := Some "InsufficientInstanceCapacity";
      reportOverrides := exampleOverrides; reportClass := "on-demand" |};
   {| reportInstant := Minute;
      reportCode := Some "InsufficientInstanceCapacity";
      reportOverrides := exampleOverrides; reportClass := "spot" |};
   {| reportInstant := 3 * Minute;
      reportCode := Some "InsufficientInstanceCapacity";
      reportOverrides := exampleOverrides; reportClass := "spot" |}].

(** The separator of the key of an unavailable offering. *)
Definition colon : Ascii.ascii := Ascii.ascii_of_nat 58.

(** An identifier in which the separator does not occur. *)
Fixpoint noColon (s : string) : bool :=
  match s with
  | EmptyString => true
  | String a s' => if Ascii.eqb a colon then false else noColon s'
  end.

(** A shape [a] whose usage classes and zones contain the separator of the
    cache key, and a rejected request of class [x] for it in zone [a:y]. *)
Definition collisionWorld : World :=
  {| now := 0;
     DescribeInstanceTypesPages := λ _,
       NextPage {| InstanceTypes := [exampleType "a" ["x"; "x:a"]]%string |}
         EndOfPages;
     DescribeInstanceTypeOfferingsPages := λ _,
       NextPage
         {| InstanceTypeOfferings :=
              [exampleOffering "a" "a:y"; exampleOffering "a" "y"]%string |}
         EndOfPages;
     SubnetProviderGet := λ _,
       inr [exampleSubnet "a:y"; exampleSubnet "y"]%string;
     OnDemandPrice := λ _, inr 1%float;
     rangeInstanceTypes := rangeElements;
     rangeZones := λ _, rangeElements;
     rangeUsageClasses := λ _ _, rangeElements |}.

Definition collisionOverrides : FleetLaunchTemplateOverrides :=
  {| OverridesInstanceType := Some "a"%string;
     OverridesAvailabilityZone := Some "a:y"%string |}.

(** Worlds in which a listing fails after a first page. *)
Definition throttled : error := errorString "RequestLimitExceeded".

Definition failingCatalogWorld : World :=
  {| now := 0;
     DescribeInstanceTypesPages := λ _,
       NextPage {| InstanceTypes := exampleTypes |} (PageError throttled);
     DescribeInstanceTypeOfferingsPages :=
       DescribeInstanceTypeOfferingsPages (exampleWorld 0);
     SubnetProviderGet := SubnetProviderGet (exampleWorld 0);
     OnDemandPrice := OnDemandPrice (exampleWorld 0);
     rangeInstanceTypes := rangeElements;
     rangeZones := λ _, rangeElements;
     rangeUsageClasses := λ _ _, rangeElements |}.

Definition failingZonesWorld : World :=
  {| now := 0;
     DescribeInstanceTypesPages := DescribeInstanceTypesPages (exampleWorld 0);
     DescribeInstanceTypeOfferingsPages := λ _,
       NextPage {| InstanceTypeOfferings := exampleOfferings |}
         (PageError throttled);
     SubnetProviderGet := SubnetProviderGet (exampleWorld 0);
     OnDemandPrice := OnDemandPrice (exampleWorld 0);
     rangeInstanceTypes := rangeElements;
     rangeZones := λ _, rangeElements;
     rangeUsageClasses := λ _ _, rangeElements |}.

(** The example with a subnet in [us-east-1d], where EC2 reports no
    offering of [p4de.24xlarge]. *)
Definition overrideWorld : World :=
  {| now := 0;
     DescribeInstanceTypesPages := DescribeInstanceTypesPages (exampleWorld 0);
     DescribeInstanceTypeOfferingsPages :=
       DescribeInstanceTypeOfferingsPages (exampleWorld 0);
     SubnetProviderGet := λ _,
       inr [exampleSubnet "z1"; exampleSubnet "us-east-1d"]%string;
     OnDemandPrice := OnDemandPrice (exampleWorld 0);
     rangeInstanceTypes := rangeElements;
     rangeZones := λ _, rangeElements;
     rangeUsageClasses := λ _ _, rangeElements |}.

(** A record that lacks its network info, as the only fetched record. *)
Definition withoutNetworkInfo (i : InstanceTypeInfo) : InstanceTypeInfo :=
  {| InstanceType := InstanceType i;
     Hypervisor := Hypervisor i;
     SupportedUsageClasses := SupportedUsageClasses i;
     VCpuInfo_ := VCpuInfo_ i;
     GpuInfo_ := GpuInfo_ i;
     FpgaInfo_ := FpgaInfo_ i;
     InferenceAcceleratorInfo_ := InferenceAcceleratorInfo_ i;
     InstanceStorageInfo_ := InstanceStorageInfo_ i;
     MemoryInfo_ := MemoryInfo_ i;
     ProcessorInfo_ := ProcessorInfo_ i;
     NetworkInfo_ := None;
     BareMetal := BareMetal i;
     CurrentGeneration := CurrentGeneration i |}.

Definition incompleteWorld : World :=
  {| now := 0;
     DescribeInstanceTypesPages := λ _,
       NextPage
         {| InstanceTypes :=
              [withoutNetworkInfo (exampleType "A" ["spot"]%string)] |}
         EndOfPages;
     DescribeInstanceTypeOfferingsPages :=
       DescribeInstanceTypeOfferingsPages (exampleWorld 0);
     SubnetProviderGet := SubnetProviderGet (exampleWorld 0);
     OnDemandPrice := OnDemandPrice (exampleWorld 0);
     rangeInstanceTypes := rangeElements;
     rangeZones := λ _, rangeElements;
     rangeUsageClasses := λ _ _, rangeElements |}.

(** What the first [Get] of the example returns. *)
Definition exampleResults : list OfferedInstanceType :=
  match (Get exampleHash (exampleWorld 0) exampleRequest exampleProvider).1
  with
  | Ok results => results
  | _ => []
  end.

(** The example provider after the rejected spot request for [A] in [z1] is
    reported at instant 0, and after each fetch of a [Get] one minute
    later. *)
Definition reportedProvider : InstanceTypeProvider :=
  reportAt exampleFleetError "spot" exampleProvider 0.



(** What [Get] returns one minute after that report. *)
Definition reportedResults : list OfferedInstanceType :=
  match (Get exampleHash (exampleWorld Minute) exampleRequest
           reportedProvider).1 with
  | Ok results => results
  | _ => []
  end.

(** A second request, and a world in which EC2 stops offering [A] in [z2]
    ten minutes in. *)
Definition otherRequest : AWS :=
  {| SubnetSelector := {["Name" := "public"]} |}.

Definition driftingWorld (t : Z) : World :=
  {| now := t;
     DescribeInstanceTypesPages := DescribeInstanceTypesPages (exampleWorld t);
     DescribeInstanceTypeOfferingsPages := λ _,
       NextPage
         {| InstanceTypeOfferings :=
              if t <? 10 * Minute then exampleOfferings
              else [exampleOffering "A" "z1"; exampleOffering "B" "z1"] |}
         EndOfPages;
     SubnetProviderGet := SubnetProviderGet (exampleWorld t);
     OnDemandPrice := OnDemandPrice (exampleWorld t);
     rangeInstanceTypes := rangeElements;
     rangeZones := λ _, rangeElements;
     rangeUsageClasses := λ _ _, rangeElements |}.

(** The provider after calls with the other request at instant 0, with the
    example request after four minutes, and with the other request after
    six minutes, when the catalog entry has expired and is fetched anew. *)
Definition driftingProvider : InstanceTypeProvider :=
  let p0 :=
    (Get exampleHash (driftingWorld 0) otherRequest exampleProvider).2 in
  let p4 :=
    (Get exampleHash (driftingWorld (4 * Minute)) exampleRequest p0).2 in
  (Get exampleHash (driftingWorld (6 * Minute)) otherRequest p4).2.

(** The provider with another cache of unavailable offerings. *)
Definition withUnavailable (p : InstanceTypeProvider)
    (unavailable : GoCache.Cache unit) : InstanceTypeProvider :=
  {| cache := cache p; unavailableOfferings := unavailable |}.

(** Two worlds in which the clock and the collaborators answer alike; the
    orders of the [range] loops may differ. *)
Definition sameAnswers (w w' : World) : Prop :=
  now w = now w' ∧
  DescribeInstanceTypesPages w instanceTypesInput =
    DescribeInstanceTypesPages w' instanceTypesInput ∧
  DescribeInstanceTypeOfferingsPages w instanceTypeOfferingsInput =
    DescribeInstanceTypeOfferingsPages w' instanceTypeOfferingsInput ∧
  (∀ provider, SubnetProviderGet w provider = SubnetProviderGet w' provider) ∧
  (∀ name, OnDemandPrice w name = OnDemandPrice w' name).

(** The example with other orders of the [range] loops. *)
Definition reorderedWorld : World :=
  {| now := 0;
     DescribeInstanceTypesPages := DescribeInstanceTypesPages (exampleWorld 0);
     DescribeInstanceTypeOfferingsPages :=
       DescribeInstanceTypeOfferingsPages (exampleWorld 0);
     SubnetProviderGet := SubnetProviderGet (exampleWorld 0);
     OnDemandPrice := OnDemandPrice (exampleWorld 0);
     rangeInstanceTypes := rangeReversed;
     rangeZones := λ _, rangeElements;
     rangeUsageClasses := λ _ _, rangeReversed |}.

(** The example with the same listings cut into other pages. *)
Definition repagedWorld : World :=
  {| now := 0;
     DescribeInstanceTypesPages := λ _,
       NextPage {| InstanceTypes := take 2 exampleTypes |}
         (NextPage {| InstanceTypes := [] |}
            (NextPage {| InstanceTypes := drop 2 exampleTypes |} EndOfPages));
     DescribeInstanceTypeOfferingsPages := λ _,
       NextPage {| InstanceTypeOfferings := take 1 exampleOfferings |}
         (NextPage {| InstanceTypeOfferings := drop 1 exampleOfferings |}
            EndOfPages);
     SubnetProviderGet := SubnetProviderGet (exampleWorld 0);
     OnDemandPrice := OnDemandPrice (exampleWorld 0);
     rangeInstanceTypes := rangeElements;
     rangeZones := λ _, rangeReversed;
     rangeUsageClasses := λ _ _, rangeElements |}.

(** The listing of zonal offerings offers the shape in the zone, and the
    zone is that of one of the subnets. *)
Definition offeredIn (w : World) (subnets : list Subnet) (name zone : string)
  : Prop :=
  ∃ o subnet,
    o ∈ fetchedOfferings w ∧ subnet ∈ subnets ∧
    StringValue (OfferingInstanceType o) = name ∧
    StringValue (Location o) = zone ∧
    StringValue (AvailabilityZone subnet) = zone.

(** * Properties *)

(** ** Loops *)

Lemma forEach_app {A S : Type} (l1 l2 : list A) (body : A → S → result S)
    (s : S) :
  forEach (l1 ++ l2) body s = let* s' := forEach l1 body s in forEach l2 body s'.
Proof.
  revert s. induction l1 as [|x l1 IH]; intros s; simpl; [done|].
  destruct (body x s); simpl; auto.
Qed.

(** A loop whose body appends to a slice. *)
Lemma forEach_append {A B : Type} (l : list A) (body : A → list B → result (list B))
    (g : A → list B) (acc : list B) :
  (∀ x acc', x ∈ l → body x acc' = Ok (acc' ++ g x)) →
  forEach l body acc = Ok (acc ++ l ≫= g).
Proof.
  revert acc. induction l as [|x l IH]; intros acc Hbody; simpl.
  - by rewrite app_nil_r.
  - rewrite Hbody by left. simpl. rewrite IH.
    + by rewrite <- app_assoc.
    + intros y acc' Hy. apply Hbody. by right.
Qed.

(** ** Iteration orders *)

Lemma elem_of_range (o : RangeOrder) (s : gset string) (x : string) :
  x ∈ o s ↔ x ∈ s.
Proof. rewrite (range_perm o s). apply elem_of_elements. Qed.

Lemma NoDup_range (o : RangeOrder) (s : gset string) : NoDup (o s).
Proof. rewrite (range_perm o s). apply NoDup_elements. Qed.

Lemma elem_of_rangeMap {V : Type} (o : RangeOrder) (m : gmap string V)
    (k : string) (v : V) :
  (k, v) ∈ rangeMap o m ↔ m !! k = Some v.
Proof.
  unfold rangeMap. rewrite list_elem_of_omap. split.
  - intros (k' & _ & Hk'). destruct (m !! k') as [v'|] eqn:E; simplify_eq/=.
    done.
  - intros Hkv. exists k. split.
    + apply elem_of_range, elem_of_dom. eauto.
    + by rewrite Hkv.
Qed.

Lemma elem_of_rangeMap_values {V : Type} (o : RangeOrder) (m : gmap string V)
    (v : V) :
  v ∈ (rangeMap o m).*2 ↔ ∃ k, m !! k = Some v.
Proof.
  rewrite list_elem_of_fmap. split.
  - intros ([k v'] & -> & Hkv%elem_of_rangeMap). eauto.
  - intros [k Hk%(elem_of_rangeMap o)]. by exists (k, v).
Qed.

(** ** The offering synthesizer *)

Lemma elem_of_offeringIfAvailable p name now zone capacityType o :
  o ∈ offeringIfAvailable p name now zone capacityType ↔
  o = {| Zone := zone; CapacityType := capacityType |} ∧
  isUnavailable p name zone capacityType now = false.
Proof.
  unfold offeringIfAvailable.
  destruct (isUnavailable p name zone capacityType now).
  - rewrite elem_of_nil. split; [done | by intros [_ ?]].
  - rewrite list_elem_of_singleton. split; [by intros -> | by intros [-> _]].
Qed.

Lemma createOfferings_named now rz rc instanceType zones p name :
  InstanceType instanceType = Some name →
  createOfferings now rz rc instanceType zones p =
  Ok (rz zones ≫= λ zone,
        rc zone (usageClasses instanceType) ≫=
          offeringIfAvailable p name now zone).
Proof.
  intros Hname. unfold createOfferings.
  rewrite (forEach_append _ _
    (λ zone, rc zone (usageClasses instanceType) ≫=
               offeringIfAvailable p name now zone)); [done|].
  intros zone acc _.
  apply forEach_append. intros capacityType acc' _.
  rewrite Hname. simpl. unfold offeringIfAvailable.
  destruct (isUnavailable p name zone capacityType now); [|done].
  by rewrite app_nil_r.
Qed.

Lemma range_empty (o : RangeOrder) : o ∅ = [].
Proof.
  apply Permutation_nil_r. rewrite (range_perm o ∅). by rewrite elements_empty.
Qed.

(** Without zones the loop does not run: no offering, and no panic. *)
Lemma createOfferings_no_zones now rz rc instanceType p :
  createOfferings now rz rc instanceType ∅ p = Ok [].
Proof. unfold createOfferings. by rewrite range_empty. Qed.

(** The dereference of a nil identifier is reached as soon as a zone and a
    usage class are there to be combined. *)
Lemma createOfferings_unnamed now rz rc instanceType zones p :
  InstanceType instanceType = None →
  zones ≠ ∅ → usageClasses instanceType ≠ ∅ →
  createOfferings now rz rc instanceType zones p = Panic.
Proof.
  intros Hname Hz Hc. unfold createOfferings.
  destruct (rz zones) as [|zone l] eqn:Ez.
  { exfalso. apply Hz. apply set_eq. intros x.
    rewrite <- (elem_of_range rz), Ez. set_solver. }
  simpl.
  destruct (rc zone (usageClasses instanceType)) as [|c l'] eqn:Ec.
  { exfalso. apply Hc. apply set_eq. intros x.
    rewrite <- (elem_of_range (rc zone)), Ec. set_solver. }
  simpl. by rewrite Hname.
Qed.

Lemma elem_of_usageClasses instanceType capacityType :
  capacityType ∈ usageClasses instanceType ↔
  capacityType ∈ StringValueSlice (SupportedUsageClasses instanceType).
Proof. unfold usageClasses. by rewrite elem_of_list_to_set. Qed.

(** The synthesized list, as a set of (zone, capacity type) pairs. *)
Lemma elem_of_synthesized p name now (rz : RangeOrder)
    (rc : string → RangeOrder)
    (zones classes : gset string) o :
  o ∈ (rz zones ≫= λ zone,
         rc zone classes ≫= offeringIfAvailable p name now zone) ↔
  Zone o ∈ zones ∧ CapacityType o ∈ classes ∧
  isUnavailable p name (Zone o) (CapacityType o) now = false.
Proof.
  rewrite list_elem_of_bind. split.
  - intros (zone & Ho & Hzone). apply list_elem_of_bind in Ho as (c & Ho & Hc).
    apply elem_of_offeringIfAvailable in Ho as [-> Hav]. simpl.
    apply elem_of_range in Hzone. apply elem_of_range in Hc. done.
  - intros (Hz & Hc & Hav). exists (Zone o). split; [|by apply elem_of_range].
    apply list_elem_of_bind. exists (CapacityType o).
    split; [|by apply elem_of_range].
    apply elem_of_offeringIfAvailable. by destruct o.
Qed.

Lemma NoDup_synthesized p name now (rz : RangeOrder) (rc : string → RangeOrder)
    (zones classes : gset string) :
  NoDup (rz zones ≫= λ zone,
           rc zone classes ≫= offeringIfAvailable p name now zone).
Proof.
  apply NoDup_bind; [| |apply NoDup_range].
  - intros z1 z2 o _ _ H1 H2.
    apply list_elem_of_bind in H1 as (c1 & H1 & _).
    apply list_elem_of_bind in H2 as (c2 & H2 & _).
    apply elem_of_offeringIfAvailable in H1 as [-> _].
    apply elem_of_offeringIfAvailable in H2 as [H2 _]. by simplify_eq.
  - intros zone _. apply NoDup_bind; [| |apply NoDup_range].
    + intros c1 c2 o _ _ H1 H2.
      apply elem_of_offeringIfAvailable in H1 as [-> _].
      apply elem_of_offeringIfAvailable in H2 as [H2 _]. by simplify_eq.
    + intros c _. unfold offeringIfAvailable.
      destruct (isUnavailable p name zone c now);
        [apply NoDup_nil_2 | apply NoDup_singleton].
Qed.

(** C3.  For a shape that carries its identifier, the synthesizer returns a
    list without repetition whose members are exactly the pairs of a zone of
    the shape's zone set and a member of the set of its supported usage
    classes, minus the pairs whose offering is currently unavailable: the
    cross product over the de-duplicated classes.  A usage class listed
    several times in the EC2 record yields no second offering. *)
Theorem createOfferings_cross_product now (rz : RangeOrder)
    (rc : string → RangeOrder) instanceType zones p name :
  InstanceType instanceType = Some name →
  ∃ offerings,
    createOfferings now rz rc instanceType zones p = Ok offerings ∧
    NoDup offerings ∧
    ∀ zone capacityType,
      {| Zone := zone; CapacityType := capacityType |} ∈ offerings ↔
      zone ∈ zones ∧
      capacityType ∈ StringValueSlice (SupportedUsageClasses instanceType) ∧
      isUnavailable p name zone capacityType now = false.
Proof.
  intros Hname. eexists. split; [by apply createOfferings_named|].
  split; [apply NoDup_synthesized|].
  intros zone capacityType. rewrite elem_of_synthesized. simpl.
  by rewrite elem_of_usageClasses.
Qed.

Lemma createOfferings_cross_product_example :
  ∃ offerings,
    createOfferings 0 rangeReversed (λ _, rangeElements)
      (exampleType "A" ["on-demand"; "spot"; "spot"]) {["z1"; "z2"]}
      exampleProvider = Ok offerings ∧
    NoDup offerings ∧
    ∀ zone capacityType,
      {| Zone := zone; CapacityType := capacityType |} ∈ offerings ↔
      zone ∈ ({["z1"; "z2"]} : gset string) ∧
      capacityType ∈ ["on-demand"; "spot"; "spot"] ∧
      isUnavailable exampleProvider "A" zone capacityType 0 = false.
Proof.
  apply (createOfferings_cross_product 0 rangeReversed (λ _, rangeElements)
           (exampleType "A" ["on-demand"; "spot"; "spot"]) {["z1"; "z2"]}
           exampleProvider "A").
  reflexivity.
Defined.

(** ** The TTL cache *)

Section go_cache.
Context {V : Type}.
Implicit Types (c : GoCache.Cache V) (k : string) (x : V).

Lemma Get_SetDefault_ne c k k' x t now :
  k ≠ k' →
  GoCache.Get (GoCache.SetDefault c k x t) k' now = GoCache.Get c k' now.
Proof.
  intros Hne. unfold GoCache.Get, GoCache.SetDefault, GoCache.Set_. simpl.
  by rewrite lookup_insert_ne.
Qed.

(** With a positive default duration, an entry set at [t] is read until
    [t + d] included, and missed afterwards. *)
Lemma Get_SetDefault_eq c k x t now :
  0 < GoCache.defaultExpiration c → 0 < t + GoCache.defaultExpiration c →
  GoCache.Get (GoCache.SetDefault c k x t) k now =
  if decide (now ≤ t + GoCache.defaultExpiration c) then Some x else None.
Proof.
  intros Hd Ht. unfold GoCache.Get, GoCache.SetDefault, GoCache.Set_. simpl.
  rewrite lookup_insert_eq. unfold GoCache.Expired, GoCache.DefaultExpiration.
  simpl. destruct (Z.ltb_spec 0 (GoCache.defaultExpiration c)); [|lia].
  destruct (Z.ltb_spec 0 (t + GoCache.defaultExpiration c)); [|lia].
  simpl. destruct (Z.ltb_spec (t + GoCache.defaultExpiration c) now);
    case_decide; done || lia.
Qed.

Lemma items_SetDefault c k x t :
  0 < GoCache.defaultExpiration c →
  GoCache.items (GoCache.SetDefault c k x t) !! k =
  Some {| GoCache.Object := x;
          GoCache.Expiration := t + GoCache.defaultExpiration c |}.
Proof.
  intros Hd. unfold GoCache.SetDefault, GoCache.Set_. simpl.
  rewrite lookup_insert_eq. unfold GoCache.DefaultExpiration. simpl.
  by destruct (Z.ltb_spec 0 (GoCache.defaultExpiration c)); [|lia].
Qed.

(** A read depends on the entry under the key only. *)
Lemma Get_items c c' k now :
  GoCache.items c !! k = GoCache.items c' !! k →
  GoCache.Get c k now = GoCache.Get c' k now.
Proof. unfold GoCache.Get. by intros ->. Qed.

(** The janitor's sweep is not observable by later reads. *)
Lemma Get_DeleteExpired c k t now :
  t ≤ now →
  GoCache.Get (GoCache.DeleteExpired c t) k now = GoCache.Get c k now.
Proof.
  intros Hle. unfold GoCache.Get, GoCache.DeleteExpired. simpl.
  destruct (GoCache.items c !! k) as [it|] eqn:E.
  - destruct (GoCache.Expired it t) eqn:Et.
    + rewrite (proj2 (map_lookup_filter_None _ _ _)).
      * unfold GoCache.Expired in *.
        apply andb_true_iff in Et as [-> Hlt%Z.ltb_lt]. simpl.
        by destruct (Z.ltb_spec (GoCache.Expiration it) now); [|lia].
      * right. intros it' Hit'. simplify_eq. simpl. by rewrite Et.
    + by rewrite (proj2 (map_lookup_filter_Some _ _ _ _) (conj E Et)).
  - by rewrite (proj2 (map_lookup_filter_None _ _ _) (or_introl E)).
Qed.

End go_cache.

(** ** Reports of unavailable offerings *)

Lemma Configured_New interval : Configured (NewInstanceTypeProvider interval).
Proof. done. Qed.

Lemma Configured_reportAt fleetErr capacityType p t :
  Configured p → Configured (reportAt fleetErr capacityType p t).
Proof.
  unfold reportAt, CacheUnavailable.
  destruct (bindR _ _); simpl; [|done..]. by intros [? ?].
Qed.

Lemma TTL_positive :
  0 < UnfulfillableCapacityErrorCacheTTL ∧ 0 < InstanceTypesAndZonesCacheTTL.
Proof. done. Qed.

(** After a report at [t], the offering is unavailable until
    [t + UnfulfillableCapacityErrorCacheTTL] included. *)
Lemma isUnavailable_reportAt code overrides capacityType p t now :
  Configured p → 0 ≤ t →
  isUnavailable (reportAt (fleetError code overrides) capacityType p t)
    (StringValue (OverridesInstanceType overrides))
    (StringValue (OverridesAvailabilityZone overrides)) capacityType now =
  bool_decide (now ≤ t + UnfulfillableCapacityErrorCacheTTL).
Proof.
  intros [_ Hd] Ht. unfold isUnavailable, reportAt, CacheUnavailable. simpl.
  rewrite Get_SetDefault_eq; rewrite Hd; [|done|].
  - by case_decide; case_bool_decide.
  - pose proof TTL_positive. lia.
Qed.

Lemma Burst_head_le_last ttl reports first final :
  Burst ttl reports → head reports = Some first → last reports = Some final →
  first ≤ final.
Proof.
  intros HB. revert first.
  induction HB as [t|t t' later Hgap HB IH]; intros first Hhd Hlast;
    simplify_eq/=; [lia|].
  specialize (IH t' eq_refl Hlast). lia.
Qed.

Lemma stateAt_burst code overrides capacityType reports first final now p :
  Burst UnfulfillableCapacityErrorCacheTTL reports →
  head reports = Some first → last reports = Some final →
  Configured p → 0 ≤ first → first ≤ now →
  isUnavailable
    (stateAt (fleetError code overrides) capacityType reports now p)
    (StringValue (OverridesInstanceType overrides))
    (StringValue (OverridesAvailabilityZone overrides)) capacityType now = true
  ↔ now ≤ final + UnfulfillableCapacityErrorCacheTTL.
Proof.
  intros HB. revert first p.
  induction HB as [t|t t' later Hgap HB IH]; intros first p Hhd Hlast Hp H0 Hle;
    simplify_eq/=.
  - destruct (Z.leb_spec first now); [|lia].
    rewrite isUnavailable_reportAt by done. by rewrite bool_decide_eq_true.
  - destruct (Z.leb_spec first now); [|lia].
    destruct (Z.leb_spec t' now) as [Hdue|Hnot].
    + apply (IH t'); [done|done|by apply Configured_reportAt|lia|done].
    + rewrite isUnavailable_reportAt by done. rewrite bool_decide_eq_true.
      pose proof (Burst_head_le_last _ _ t' final HB eq_refl Hlast). lia.
Qed.

(** C2.  Each report stores the offering's entry with the expiry
    [UnfulfillableCapacityErrorCacheTTL] after the instant of the report,
    whatever entry the key had before.  Hence, while the reports of a burst
    follow each other by less than that duration, the offering is
    unavailable at every instant from the first report on, up to one such
    duration after the last report, and at no later instant. *)
Theorem sliding_expiry code overrides capacityType reports first final now p :
  let fleetErr := fleetError code overrides in
  let instanceType := StringValue (OverridesInstanceType overrides) in
  let zone := StringValue (OverridesAvailabilityZone overrides) in
  Configured p →
  Burst UnfulfillableCapacityErrorCacheTTL reports →
  head reports = Some first → last reports = Some final →
  0 ≤ first → first ≤ now →
  (∀ q t, Configured q →
     GoCache.items (unavailableOfferings (reportAt fleetErr capacityType q t))
       !! UnavailableOfferingsCacheKey instanceType zone capacityType =
     Some {| GoCache.Object := tt;
             GoCache.Expiration := t + UnfulfillableCapacityErrorCacheTTL |}) ∧
  (isUnavailable (stateAt fleetErr capacityType reports now p)
     instanceType zone capacityType now = true
   ↔ now ≤ final + UnfulfillableCapacityErrorCacheTTL).
Proof.
  intros fleetErr instanceType zone Hp HB Hhd Hlast H0 Hle.
  subst fleetErr instanceType zone. split.
  - intros q t [_ Hq]. unfold reportAt, CacheUnavailable. cbn.
    rewrite items_SetDefault by (by rewrite Hq). by rewrite Hq.
  - by apply (stateAt_burst _ _ _ _ first).
Qed.

Lemma sliding_expiry_example :
  (∀ q t, Configured q →
     GoCache.items
       (unavailableOfferings (reportAt exampleFleetError "spot" q t))
       !! UnavailableOfferingsCacheKey "A" "z1" "spot" =
     Some {| GoCache.Object := tt;
             GoCache.Expiration := t + UnfulfillableCapacityErrorCacheTTL |}) ∧
  (isUnavailable
     (stateAt exampleFleetError "spot" exampleBurst (6 * Minute)
        exampleProvider)
     "A" "z1" "spot" (6 * Minute) = true
   ↔ 6 * Minute ≤ 4 * Minute + UnfulfillableCapacityErrorCacheTTL).
Proof.
  apply (sliding_expiry (Some "InsufficientInstanceCapacity"%string)
           exampleOverrides "spot" exampleBurst 0 (4 * Minute) (6 * Minute)
           exampleProvider).
  - apply Configured_New.
  - apply Burst_next; [vm_compute; split; [discriminate|reflexivity]|].
    apply Burst_next; [vm_compute; split; [discriminate|reflexivity]|].
    apply Burst_last.
  - reflexivity.
  - reflexivity.
  - reflexivity.
  - vm_compute. discriminate.
Defined.

(** ** Paginated requests *)

Lemma forEach_bind {A B S : Type} (l : list A) (f : A → list B)
    (body : B → S → result S) (s : S) :
  forEach l (λ x s', forEach (f x) body s') s = forEach (l ≫= f) body s.
Proof.
  revert s. induction l as [|x l IH]; intros s; [done|].
  rewrite bind_cons, forEach_app. simpl.
  destruct (forEach (f x) body s); simpl; auto.
Qed.

(** A callback that always asks for the next page sees every delivered
    page; the listing's error, if any, is returned after them. *)
Lemma EachPage_drain {P S : Type} (pages : Pages P)
    (fn : P → bool → S → result (S * bool)) (g : P → S → result S) (s : S) :
  (∀ page lastPage s', fn page lastPage s' = let* s'' := g page s' in Ok (s'', true)) →
  EachPage pages fn s =
  let* s' := forEach (delivered pages) g s in Ok (s', failure pages).
Proof.
  intros Hfn. revert s. induction pages as [|page rest IH|e]; intros s;
    simpl; [done| |done].
  rewrite Hfn. destruct (g page s); simpl; auto.
Qed.

Lemma forEach_foldl {A S : Type} (l : list A) (f : S → A → S) (s : S) :
  forEach l (λ x s', Ok (f s' x)) s = Ok (foldl f s l).
Proof. revert s. induction l as [|x l IH]; intros s; simpl; auto. Qed.

Lemma foldl_bind {A B S : Type} (l : list A) (g : A → list B) (f : S → B → S)
    (s : S) :
  foldl (λ s' x, foldl f s' (g x)) s l = foldl f s (l ≫= g).
Proof.
  revert s. induction l as [|x l IH]; intros s; [done|].
  rewrite bind_cons, foldl_app. simpl. apply IH.
Qed.

(** ** Compression and the catalog fetch *)

Lemma compressInstanceType_complete instanceType :
  complete instanceType →
  ∃ compressed,
    compressInstanceType instanceType = Ok compressed ∧
    InstanceType compressed = InstanceType instanceType ∧
    SupportedUsageClasses compressed = SupportedUsageClasses instanceType.
Proof.
  intros ([v Hv] & [m Hm] & [pr Hpr] & [n Hn]).
  unfold compressInstanceType. rewrite Hv, Hm, Hpr, Hn. simpl. eauto.
Qed.

Lemma compressInstanceType_Panic instanceType :
  compressInstanceType instanceType = Panic ↔ ¬ complete instanceType.
Proof.
  unfold compressInstanceType, complete.
  destruct (VCpuInfo_ instanceType), (MemoryInfo_ instanceType),
    (ProcessorInfo_ instanceType), (NetworkInfo_ instanceType); simpl;
    (split; [intros ?; try done; intros ([? ?] & [? ?] & [? ?] & [? ?]); done
            | intros Hn; try done; exfalso; apply Hn; eauto 10]).
Qed.

Lemma compressInstanceType_not_Err instanceType e :
  compressInstanceType instanceType ≠ Err e.
Proof.
  unfold compressInstanceType.
  by destruct (VCpuInfo_ instanceType), (MemoryInfo_ instanceType),
    (ProcessorInfo_ instanceType), (NetworkInfo_ instanceType).
Qed.

Lemma filter_spec instanceType :
  filter instanceType = true ↔
  FpgaInfo_ instanceType = None ∧
  String.prefix "g2" (nameOf instanceType) = false.
Proof.
  unfold filter, HasAnyPrefix, nameOf. simpl.
  destruct (FpgaInfo_ instanceType); [split; [done|by intros [? _]]|].
  rewrite orb_false_r.
  destruct (String.prefix "g2" (StringValue (InstanceType instanceType)));
    [split; [done|by intros [_ ?]]|done].
Qed.

(** The loop over the fetched records: it panics on the first retained
    record that is not complete, and does not fail otherwise. *)
Lemma retain_all_Ok records instanceTypes :
  (∀ r, r ∈ records → filter r = true → complete r) →
  ∃ catalog, forEach records retain instanceTypes = Ok catalog.
Proof.
  revert instanceTypes.
  induction records as [|r records IH]; intros m Hc; simpl; [eauto|].
  unfold retain at 1. destruct (filter r) eqn:Hf.
  - destruct (compressInstanceType_complete r) as (c & -> & _);
      [apply Hc; [by left|done]|].
    simpl. apply IH. intros r' Hr'. apply Hc. by right.
  - simpl. apply IH. intros r' Hr'. apply Hc. by right.
Qed.

Lemma retain_all_Ok_inv records instanceTypes catalog :
  forEach records retain instanceTypes = Ok catalog →
  ∀ r, r ∈ records → filter r = true → complete r.
Proof.
  revert instanceTypes.
  induction records as [|r records IH]; intros m Hrun r' Hr' Hf.
  { by apply elem_of_nil in Hr'. }
  simpl in Hrun. destruct (retain r m) as [m'| |] eqn:Hr; simpl in Hrun;
    [|done..].
  apply elem_of_cons in Hr' as [->|Hr']; [|by eapply IH].
  unfold retain in Hr. rewrite Hf in Hr.
  destruct (decide (complete r)) as [|Hn]; [done|].
  apply compressInstanceType_Panic in Hn. by rewrite Hn in Hr.
Qed.

Lemma retain_all_not_Err records instanceTypes e :
  forEach records retain instanceTypes ≠ Err e.
Proof.
  revert instanceTypes. induction records as [|r records IH]; intros m; [done|].
  simpl. unfold retain at 1. destruct (filter r); simpl; [|apply IH].
  pose proof (compressInstanceType_not_Err r) as Hne.
  destruct (compressInstanceType r); simpl; [apply IH|by destruct (Hne e0)|done].
Qed.

(** The entries of the accumulated map: those it started with, and for each
    retained record its compression under its identifier, later records
    replacing earlier ones. *)
Lemma retain_all_lookup records instanceTypes catalog name compressed :
  forEach records retain instanceTypes = Ok catalog →
  catalog !! name = Some compressed →
  instanceTypes !! name = Some compressed ∨
  ∃ r, r ∈ records ∧ nameOf r = name ∧ filter r = true ∧
       compressInstanceType r = Ok compressed.
Proof.
  revert instanceTypes.
  induction records as [|r records IH]; intros m Hrun Hlook; simpl in Hrun.
  { left. by simplify_eq. }
  destruct (retain r m) as [m'| |] eqn:Hr; simpl in Hrun; [|done..].
  destruct (IH m' Hrun Hlook) as [Hm'|(r' & Hr' & ?)].
  - unfold retain in Hr. destruct (filter r) eqn:Hf; [|left; by simplify_eq].
    destruct (compressInstanceType r) as [c| |] eqn:Hc; simplify_eq/=.
    destruct (decide (StringValue (InstanceType r) = name)) as [<-|Hne].
    + rewrite lookup_insert_eq in Hm'. simplify_eq.
      right. exists r. split; [by left|done].
    + rewrite lookup_insert_ne in Hm' by done. by left.
  - right. exists r'. split; [by right|done].
Qed.

Lemma retain_all_dom records instanceTypes catalog name :
  forEach records retain instanceTypes = Ok catalog →
  is_Some (catalog !! name) ↔
  is_Some (instanceTypes !! name) ∨
  ∃ r, r ∈ records ∧ nameOf r = name ∧ filter r = true.
Proof.
  revert instanceTypes.
  induction records as [|r records IH]; intros m Hrun; simpl in Hrun.
  { simplify_eq. split; [by left|]. intros [?|(r & Hr & _)]; [done|].
    by apply elem_of_nil in Hr. }
  destruct (retain r m) as [m'| |] eqn:Hr; simpl in Hrun; [|done..].
  rewrite (IH m' Hrun). unfold retain in Hr.
  destruct (filter r) eqn:Hf.
  - destruct (compressInstanceType r) as [c| |] eqn:Hc; simplify_eq/=.
    destruct (decide (StringValue (InstanceType r) = name)) as [<-|Hne].
    + rewrite lookup_insert_eq. split; intros _.
      * right. exists r. split; [by left|done].
      * left. eauto.
    + rewrite lookup_insert_ne by done. split.
      * intros [?|(r' & Hr' & ?)]; [by left|]. right. exists r'.
        split; [by right|done].
      * intros [?|(r' & Hr' & Hn & ?)]; [by left|].
        apply elem_of_cons in Hr' as [->|Hr']; [done|]. right. eauto.
  - simplify_eq. split.
    + intros [?|(r' & Hr' & ?)]; [by left|]. right. exists r'.
      split; [by right|done].
    + intros [?|(r' & Hr' & Hn & Hf')]; [by left|].
      apply elem_of_cons in Hr' as [->|Hr']; [congruence|]. right. eauto.
Qed.

(** [getInstanceTypes] on a miss of the catalog entry, in terms of the
    records the listing delivers. *)
Lemma getInstanceTypes_miss w provider p :
  GoCache.Get (cache p) InstanceTypesCacheKey (now w) = None →
  getInstanceTypes w provider p =
  match forEach (fetchedInstanceTypes w) retain ∅ with
  | Ok instanceTypes =>
      match failure (DescribeInstanceTypesPages w instanceTypesInput) with
      | Some err =>
          (Err (wrapError
                  "fetching instance types using ec2.DescribeInstanceTypes, "
                  err), p)
      | None =>
          (Ok instanceTypes,
           setCache p InstanceTypesCacheKey (InstanceTypesValue instanceTypes)
             (now w))
      end
  | Err e => (Err e, p)
  | Panic => (Panic, p)
  end.
Proof.
  intros Hmiss. unfold getInstanceTypes. rewrite Hmiss.
  rewrite (EachPage_drain _ _ (λ page, forEach (InstanceTypes page) retain))
    by done.
  rewrite forEach_bind. fold (fetchedInstanceTypes w).
  by destruct (forEach (fetchedInstanceTypes w) retain ∅).
Qed.

Lemma getInstanceTypes_hit w provider p instanceTypes :
  GoCache.Get (cache p) InstanceTypesCacheKey (now w) =
    Some (InstanceTypesValue instanceTypes) →
  getInstanceTypes w provider p = (Ok instanceTypes, p).
Proof. intros Hhit. unfold getInstanceTypes. by rewrite Hhit. Qed.

(** ** The zonal fetch *)

Lemma accumulate_lookup zones offerings (instanceTypeZones : gmap string (gset string))
    name zone :
  (∃ zs, foldl (addOffering zones) instanceTypeZones offerings !! name = Some zs
         ∧ zone ∈ zs) ↔
  (∃ zs, instanceTypeZones !! name = Some zs ∧ zone ∈ zs) ∨
  (zone ∈ zones ∧
   ∃ o, o ∈ offerings ∧ StringValue (OfferingInstanceType o) = name ∧
        StringValue (Location o) = zone).
Proof.
  revert instanceTypeZones.
  induction offerings as [|o offerings IH]; intros m; simpl.
  { split; [by left|]. intros [?|(_ & o & Ho & _)]; [done|].
    by apply elem_of_nil in Ho. }
  rewrite IH. clear IH.
  assert ((∃ zs, addOffering zones m o !! name = Some zs ∧ zone ∈ zs) ↔
          (∃ zs, m !! name = Some zs ∧ zone ∈ zs) ∨
          (zone ∈ zones ∧ StringValue (OfferingInstanceType o) = name ∧
           StringValue (Location o) = zone)) as ->.
  { unfold addOffering. case_decide as Hin.
    - destruct (decide (StringValue (OfferingInstanceType o) = name))
        as [Hn|Hn].
      + rewrite Hn. rewrite lookup_insert_eq. split.
        * intros (zs & [= <-] & Hz). apply elem_of_union in Hz as [Hz|Hz].
          -- left. destruct (m !! name) as [zs'|] eqn:E; simpl in Hz.
             ++ rewrite E in Hz. eauto.
             ++ rewrite lookup_insert_eq in Hz. simpl in Hz. set_solver.
          -- right. apply elem_of_singleton in Hz. by subst.
        * intros [(zs & Hzs & Hz)|(_ & _ & Hz)]; eexists; (split; [done|]).
          -- rewrite Hzs. simpl. rewrite Hzs. simpl.
             apply elem_of_union. by left.
          -- apply elem_of_union. right. by apply elem_of_singleton.
      + rewrite lookup_insert_ne by done.
        destruct (m !! StringValue (OfferingInstanceType o)) eqn:E.
        * split; [by left|]. by intros [?|(_ & ? & _)].
        * rewrite lookup_insert_ne by done.
          split; [by left|]. by intros [?|(_ & ? & _)].
    - split; [by left|]. intros [?|(Hz & _ & Hl)]; [done|]. by subst. }
  split.
  - intros [[?|(? & ? & ?)]|(? & o' & ? & ?)].
    + by left.
    + right. split; [done|]. exists o. split; [by left|done].
    + right. split; [done|]. exists o'. split; [by right|done].
  - intros [?|(? & o' & [->|?]%elem_of_cons & ?)].
    + left. by left.
    + left. by right.
    + right. eauto.
Qed.

Lemma forceOffering_lookup zones (instanceTypeZones : gmap string (gset string))
    name :
  forceOffering zones instanceTypeZones !! name =
  if decide (name = "p4de.24xlarge"%string ∧
             instanceTypeZones !! "p4de.24xlarge"%string = None ∧
             "us-east-1d"%string ∈ zones)
  then Some {["us-east-1d"%string]}
  else instanceTypeZones !! name.
Proof.
  unfold forceOffering.
  destruct (instanceTypeZones !! "p4de.24xlarge"%string) eqn:E.
  - case_decide as H; [by destruct H as (_ & ? & _)|done].
  - destruct (decide ("us-east-1d"%string ∈ zones)).
    + case_decide as H.
      * destruct H as (-> & _). by rewrite lookup_insert_eq.
      * rewrite lookup_insert_ne; [done|]. intros <-. by apply H.
    + case_decide as H; [by destruct H as (_ & _ & ?)|done].
Qed.

Lemma elem_of_subnetZones subnets zone :
  zone ∈ subnetZones subnets ↔
  ∃ subnet, subnet ∈ subnets ∧ StringValue (AvailabilityZone subnet) = zone.
Proof.
  unfold subnetZones. rewrite elem_of_list_to_set, list_elem_of_fmap.
  split; [intros (s & -> & Hs)|intros (s & Hs & <-)]; eauto.
Qed.

Lemma addOffering_nonempty zones (m : gmap string (gset string)) offering :
  map_Forall (λ _ zs, zs ≠ ∅) m →
  map_Forall (λ _ zs, zs ≠ ∅) (addOffering zones m offering).
Proof.
  intros Hm. unfold addOffering. case_decide; [|done].
  intros k zs.
  destruct (decide (StringValue (OfferingInstanceType offering) = k))
    as [<-|Hk].
  - rewrite lookup_insert_eq. intros [= <-] Hempty.
    assert (StringValue (Location offering) ∈ (∅ : gset string)) as Hin.
    { rewrite <- Hempty. apply elem_of_union. right.
      by apply elem_of_singleton. }
    by apply not_elem_of_empty in Hin.
  - rewrite lookup_insert_ne by done.
    destruct (m !! StringValue (OfferingInstanceType offering)).
    + apply Hm.
    + rewrite lookup_insert_ne by done. apply Hm.
Qed.

Lemma accumulate_nonempty zones offerings (m : gmap string (gset string)) :
  map_Forall (λ _ zs, zs ≠ ∅) m →
  map_Forall (λ _ zs, zs ≠ ∅) (foldl (addOffering zones) m offerings).
Proof.
  revert m. induction offerings as [|o offerings IH]; intros m Hm; [done|].
  simpl. by apply IH, addOffering_nonempty.
Qed.

Lemma accumulated_offeredIn w subnets name zone :
  (∃ zs, foldl (addOffering (subnetZones subnets)) ∅ (fetchedOfferings w)
           !! name = Some zs ∧ zone ∈ zs) ↔
  offeredIn w subnets name zone.
Proof.
  rewrite accumulate_lookup. unfold offeredIn. split.
  - intros [(zs & Hempty & _)|[Hz (o & Ho & Hn & Hl)]].
    { by rewrite lookup_empty in Hempty. }
    apply elem_of_subnetZones in Hz as (subnet & Hsub & Haz).
    by exists o, subnet.
  - intros (o & subnet & Ho & Hsub & Hn & Hl & Haz). right. split.
    + apply elem_of_subnetZones. eauto.
    + eauto.
Qed.

Lemma accumulated_None w subnets name :
  foldl (addOffering (subnetZones subnets)) ∅ (fetchedOfferings w) !! name
    = None ↔
  ∀ zone, ¬ offeredIn w subnets name zone.
Proof.
  split.
  - intros Hnone zone (zs & Hzs & _)%accumulated_offeredIn. congruence.
  - intros Hno.
    destruct (foldl _ _ _ !! name) as [zs|] eqn:Hzs; [|done].
    exfalso.
    assert (zs ≠ ∅) as Hne.
    { eapply (accumulate_nonempty (subnetZones subnets) (fetchedOfferings w) ∅);
        [apply map_Forall_empty|done]. }
    destruct (set_choose_L zs Hne) as [zone Hzone].
    apply (Hno zone), accumulated_offeredIn. eauto.
Qed.

(** The entries of the zonal map built on a miss, in terms of the listing
    and of the subnets alone. *)
Lemma zonal_map_lookup w subnets name (zs : gset string) :
  forceOffering (subnetZones subnets)
    (foldl (addOffering (subnetZones subnets)) ∅ (fetchedOfferings w))
    !! name = Some zs ↔
  (zs ≠ ∅ ∧ ∀ zone, zone ∈ zs ↔ offeredIn w subnets name zone) ∨
  (name = "p4de.24xlarge"%string ∧
   (∀ zone, ¬ offeredIn w subnets "p4de.24xlarge" zone) ∧
   (∃ subnet, subnet ∈ subnets ∧
              StringValue (AvailabilityZone subnet) = "us-east-1d"%string) ∧
   zs = {["us-east-1d"%string]}).
Proof.
  rewrite forceOffering_lookup.
  set (accumulated :=
         foldl (addOffering (subnetZones subnets)) ∅ (fetchedOfferings w)).
  assert (∀ zs', accumulated !! name = Some zs' →
                 zs' ≠ ∅ ∧ ∀ zone, zone ∈ zs' ↔ offeredIn w subnets name zone)
    as Hentry.
  { intros zs' Hzs'. split.
    - eapply (accumulate_nonempty (subnetZones subnets) (fetchedOfferings w)
                ∅); [apply map_Forall_empty|exact Hzs'].
    - intros zone. rewrite <- accumulated_offeredIn. fold accumulated. split.
      + eauto.
      + intros (zs'' & Hzs'' & Hz). congruence. }
  split.
  - case_decide as Hforce.
    + destruct Hforce as (-> & Hnone & Hd). intros [= <-]. right.
      split; [done|]. split; [by apply accumulated_None|].
      split; [by apply elem_of_subnetZones|done].
    + intros Hzs. left. by apply Hentry.
  - intros [[Hne Hzs]|(-> & Hno & Hd & ->)].
    + destruct (set_choose_L zs Hne) as [zone Hzone].
      apply Hzs, accumulated_offeredIn in Hzone as (zs' & Hzs' & _).
      fold accumulated in Hzs'.
      assert (zs' = zs) as ->.
      { apply set_eq. intros z.
        rewrite (proj2 (Hentry _ Hzs') z). by rewrite Hzs. }
      rewrite decide_False; [done|].
      intros (-> & Hnone & _). fold accumulated in Hnone. congruence.
    + rewrite decide_True; [done|]. split; [done|].
      split; [by apply accumulated_None|by apply elem_of_subnetZones].
Qed.

Section provider_facts.

Variable Hash : gmap string string → error + Z.

(** [getInstanceTypeZones] on a miss of the zonal entry. *)
Lemma getInstanceTypeZones_miss w provider p h subnets :
  Hash (SubnetSelector provider) = inr h →
  GoCache.Get (cache p) (zonesCacheKey h) (now w) = None →
  SubnetProviderGet w provider = inr subnets →
  getInstanceTypeZones Hash w provider p =
  match failure
          (DescribeInstanceTypeOfferingsPages w instanceTypeOfferingsInput)
  with
  | Some err =>
      (Err (wrapError "describing instance type zone offerings, " err), p)
  | None =>
      let instanceTypeZones :=
        forceOffering (subnetZones subnets)
          (foldl (addOffering (subnetZones subnets)) ∅
             (fetchedOfferings w)) in
      (Ok instanceTypeZones,
       setCache p (zonesCacheKey h) (InstanceTypeZonesValue instanceTypeZones)
         (now w))
  end.
Proof.
  intros Hh Hmiss Hs. unfold getInstanceTypeZones. rewrite Hh, Hmiss, Hs.
  rewrite (EachPage_drain _ _
    (λ output m,
       Ok (foldl (addOffering (subnetZones subnets)) m
             (InstanceTypeOfferings output)))) by done.
  rewrite (forEach_foldl _
    (λ m output, foldl (addOffering (subnetZones subnets)) m
                   (InstanceTypeOfferings output))).
  simpl. rewrite foldl_bind. fold (fetchedOfferings w).
  by destruct (failure _).
Qed.

Lemma getInstanceTypeZones_hit w provider p h instanceTypeZones :
  Hash (SubnetSelector provider) = inr h →
  GoCache.Get (cache p) (zonesCacheKey h) (now w) =
    Some (InstanceTypeZonesValue instanceTypeZones) →
  getInstanceTypeZones Hash w provider p = (Ok instanceTypeZones, p).
Proof.
  intros Hh Hhit. unfold getInstanceTypeZones. by rewrite Hh, Hhit.
Qed.

(** [Get] once both fetches have returned. *)
Lemma Get_fetched w provider p instanceTypes p1 instanceTypeZones p2 :
  getInstanceTypes w provider p = (Ok instanceTypes, p1) →
  getInstanceTypeZones Hash w provider p1 = (Ok instanceTypeZones, p2) →
  Get Hash w provider p =
  (forEach (rangeMap (rangeInstanceTypes w) instanceTypes).*2
     (offer w provider instanceTypeZones p2) [], p2).
Proof. intros H1 H2. unfold Get, bindM. by rewrite H1, H2. Qed.

(** [Get] returns a list only when both fetches have. *)
Lemma Get_Ok_inv w provider p results p2 :
  Get Hash w provider p = (Ok results, p2) →
  ∃ instanceTypes p1 instanceTypeZones,
    getInstanceTypes w provider p = (Ok instanceTypes, p1) ∧
    getInstanceTypeZones Hash w provider p1 = (Ok instanceTypeZones, p2) ∧
    forEach (rangeMap (rangeInstanceTypes w) instanceTypes).*2
      (offer w provider instanceTypeZones p2) [] = Ok results.
Proof.
  unfold Get, bindM. intros HG.
  destruct (getInstanceTypes w provider p) as [[its| |] p1]; [|done..].
  destruct (getInstanceTypeZones Hash w provider p1) as [[zs| |] p2']
    eqn:E2; [|done..].
  injection HG as HG ->. by exists its, p1, zs.
Qed.

End provider_facts.

(** ** The loop of [Get] *)

Lemma createOfferings_unnamed_no_offering now rz rc instanceType zones p :
  InstanceType instanceType = None →
  ¬ unnamedWithOfferings zones instanceType →
  createOfferings now rz rc instanceType zones p = Ok [] ∧
  ∀ name now' (rz' : RangeOrder) (rc' : string → RangeOrder) p',
    (rz' zones ≫= λ zone,
       rc' zone (usageClasses instanceType) ≫=
         offeringIfAvailable p' name now' zone) = [].
Proof.
  intros Hname Hn.
  assert (zones = ∅ ∨ usageClasses instanceType = ∅) as Hempty.
  { destruct (decide (zones = ∅)); [by left|].
    destruct (decide (usageClasses instanceType = ∅)); [by right|].
    by destruct Hn. }
  split.
  - unfold createOfferings. destruct Hempty as [->| ->].
    + by rewrite range_empty.
    + erewrite forEach_append with (g := λ _, []).
      * f_equal. simpl. induction (rz zones); [done|]. by rewrite bind_cons.
      * intros zone acc _. rewrite range_empty. simpl. by rewrite app_nil_r.
  - intros name now' rz' rc' p'. destruct Hempty as [->| ->].
    + by rewrite range_empty.
    + induction (rz' zones); [done|].
      rewrite bind_cons, range_empty. done.
Qed.

(** A round of the loop of [Get]: it panics when [createOfferings] reaches
    the dereference of a nil identifier, and appends the offered shape
    otherwise.  It never fails. *)
Lemma offer_spec w provider instanceTypeZones p i results :
  offer w provider instanceTypeZones p i results =
  if decide (unnamedWithOfferings (zonesOf instanceTypeZones i) i)
  then Panic
  else Ok (results ++ [offered w provider instanceTypeZones p i]).
Proof.
  unfold offer. fold (nameOf i). fold (zonesOf instanceTypeZones i).
  fold (priceOf w (nameOf i)). case_decide as Hu.
  - destruct Hu as (Hname & Hz & Hc).
    by rewrite createOfferings_unnamed.
  - destruct (InstanceType i) as [name|] eqn:Hname.
    + rewrite (createOfferings_named _ _ _ _ _ _ name) by done.
      simpl. unfold offered, nameOf. rewrite Hname. done.
    + destruct (createOfferings_unnamed_no_offering (now w)
        (rangeZones w (nameOf i)) (rangeUsageClasses w (nameOf i)) i
        (zonesOf instanceTypeZones i) p Hname Hu) as [-> Hnil].
      simpl. unfold offered. by rewrite Hnil.
Qed.

Lemma Get_loop w provider instanceTypeZones p (l : list InstanceTypeInfo) :
  forEach l (offer w provider instanceTypeZones p) [] =
  if decide (Exists (λ i, unnamedWithOfferings (zonesOf instanceTypeZones i) i) l)
  then Panic
  else Ok (offered w provider instanceTypeZones p <$> l).
Proof.
  cut (∀ acc,
    forEach l (offer w provider instanceTypeZones p) acc =
    if decide (Exists (λ i, unnamedWithOfferings (zonesOf instanceTypeZones i) i) l)
    then Panic
    else Ok (acc ++ (offered w provider instanceTypeZones p <$> l))).
  { intros H. by rewrite H. }
  induction l as [|i l IH]; intros acc; cbn [forEach].
  - rewrite decide_False by (by intros ?%Exists_nil). by rewrite app_nil_r.
  - rewrite offer_spec.
    destruct (decide (unnamedWithOfferings (zonesOf instanceTypeZones i) i))
      as [Hi|Hi].
    + by rewrite decide_True by (by left).
    + cbn [bindR]. rewrite IH.
      destruct (decide (Exists _ l)) as [Hl|Hl].
      * by rewrite decide_True by (by right).
      * rewrite decide_False by (by intros [?|?]%Exists_cons).
        by rewrite <- app_assoc.
Qed.

Lemma createOfferings_spec now rz rc i zones p :
  createOfferings now rz rc i zones p =
  if decide (unnamedWithOfferings zones i)
  then Panic
  else Ok (rz zones ≫= λ zone,
             rc zone (usageClasses i) ≫=
               offeringIfAvailable p (nameOf i) now zone).
Proof.
  case_decide as Hu.
  - destruct Hu as (Hname & Hz & Hc). by apply createOfferings_unnamed.
  - destruct (InstanceType i) as [name|] eqn:Hname.
    + rewrite (createOfferings_named _ _ _ _ _ _ name) by done.
      unfold nameOf. by rewrite Hname.
    + destruct (createOfferings_unnamed_no_offering now rz rc i zones p
                  Hname Hu) as [-> Hnil].
      by rewrite Hnil.
Qed.


Lemma createOfferings_ext now rz rc i zones p p' :
  unavailableOfferings p = unavailableOfferings p' →
  createOfferings now rz rc i zones p = createOfferings now rz rc i zones p'.
Proof.
  intros Hu. unfold createOfferings, isUnavailable. by rewrite Hu.
Qed.

(** The fetches leave the cache of unavailable offerings alone. *)
Lemma getInstanceTypes_unavailableOfferings w provider p r p1 :
  getInstanceTypes w provider p = (r, p1) →
  unavailableOfferings p1 = unavailableOfferings p.
Proof.
  unfold getInstanceTypes. intros H.
  destruct (GoCache.Get (cache p) InstanceTypesCacheKey (now w));
    [by simplify_eq|].
  destruct (EachPage _ _ _) as [[m [err|]]| |]; by simplify_eq.
Qed.

Lemma getInstanceTypeZones_unavailableOfferings Hash w provider p r p1 :
  getInstanceTypeZones Hash w provider p = (r, p1) →
  unavailableOfferings p1 = unavailableOfferings p.
Proof.
  unfold getInstanceTypeZones. intros H.
  destruct (Hash (SubnetSelector provider)); [by simplify_eq|].
  destruct (GoCache.Get (cache p) _ (now w)); [by simplify_eq|].
  destruct (SubnetProviderGet w provider); [by simplify_eq|].
  destruct (EachPage _ _ _) as [[m [err|]]| |]; by simplify_eq.
Qed.

Section get_facts.

Variable Hash : gmap string string → error + Z.

(** Once both fetches have returned, [Get] does not fail; it returns the
    offered shapes of the catalog unless the synthesis panics. *)
Lemma Get_fetched_not_Err w provider p instanceTypes p1 instanceTypeZones p2
    e q :
  getInstanceTypes w provider p = (Ok instanceTypes, p1) →
  getInstanceTypeZones Hash w provider p1 = (Ok instanceTypeZones, p2) →
  Get Hash w provider p ≠ (Err e, q).
Proof.
  intros H1 H2. rewrite (Get_fetched _ _ _ _ _ _ _ _ H1 H2), Get_loop.
  by case_decide.
Qed.

Lemma Get_synthesized w provider p instanceTypes p1 instanceTypeZones p2 :
  getInstanceTypes w provider p = (Ok instanceTypes, p1) →
  getInstanceTypeZones Hash w provider p1 = (Ok instanceTypeZones, p2) →
  (∀ k i, instanceTypes !! k = Some i →
          ¬ unnamedWithOfferings (zonesOf instanceTypeZones i) i) →
  Get Hash w provider p =
  (Ok (offered w provider instanceTypeZones p2 <$>
         (rangeMap (rangeInstanceTypes w) instanceTypes).*2), p2).
Proof.
  intros H1 H2 Hnamed. rewrite (Get_fetched _ _ _ _ _ _ _ _ H1 H2), Get_loop.
  rewrite decide_False; [done|].
  intros (i & [k Hk]%elem_of_rangeMap_values & Hu)%Exists_exists.
  by eapply Hnamed.
Qed.

Lemma Get_unavailableOfferings w provider p r p' :
  Get Hash w provider p = (r, p') →
  unavailableOfferings p' = unavailableOfferings p.
Proof.
  unfold Get, bindM. intros HG.
  destruct (getInstanceTypes w provider p) as [r1 p1] eqn:E1.
  apply getInstanceTypes_unavailableOfferings in E1.
  destruct r1; [|by simplify_eq..].
  destruct (getInstanceTypeZones Hash w provider p1) as [r2 p2] eqn:E2.
  apply getInstanceTypeZones_unavailableOfferings in E2.
  destruct r2; simplify_eq; congruence.
Qed.

End get_facts.

(** ** The sentinel price *)

Lemma digits2_pos_bound m : Z.pos m < 2 ^ Z.pos (SpecFloat.digits2_pos m).
Proof.
  induction m as [m IH|m IH|]; simpl SpecFloat.digits2_pos.
  - rewrite Pos2Z.inj_succ, Z.pow_succ_r by lia. lia.
  - rewrite Pos2Z.inj_succ, Z.pow_succ_r by lia. lia.
  - reflexivity.
Qed.

Lemma Prim2SF_MaxFloat64 :
  Prim2SF MaxFloat64 = S754_finite false 9007199254740991 971.
Proof. vm_compute. reflexivity. Qed.

(** Every double other than +Inf and NaN compares below the largest finite
    double, or is that double. *)
Lemma SFcompare_MaxFloat64 x :
  valid_binary x = true →
  match x with S754_nan | S754_infinity false => False | _ => True end →
  SFcompare x (S754_finite false 9007199254740991 971) = Some Lt ∨
  x = S754_finite false 9007199254740991 971.
Proof.
  intros Hv Hx. destruct x as [s|[|]| |s m e]; try (exfalso; exact Hx).
  - left. reflexivity.
  - left. reflexivity.
  - destruct s; [left; reflexivity|].
    unfold SpecFloat.valid_binary, bounded, canonical_mantissa, fexp in Hv.
    apply andb_prop in Hv. destruct Hv as [Hc He].
    apply Z.eqb_eq in Hc. apply Z.leb_le in He.
    change (emax - prec) with 971 in He.
    unfold SpecFloat.emin in Hc.
    change (3 - emax - prec) with (-1074) in Hc. change prec with 53 in Hc.
    unfold SFcompare.
    destruct (Z.compare_spec e 971) as [->|Hlt|Hgt]; [|left; reflexivity|lia].
    assert (Z.pos (SpecFloat.digits2_pos m) = 53) as Hd by lia.
    pose proof (digits2_pos_bound m) as Hb. rewrite Hd in Hb.
    assert (2 ^ 53 = 9007199254740992) as Hp by reflexivity.
    rewrite Hp in Hb. clear Hp Hd Hc He Hx.
    change PosDef.Pos.compare_cont with Pos.compare_cont.
    rewrite Pos.compare_cont_spec. unfold Pos.switch_Eq.
    destruct (Pos.compare m 9007199254740991) eqn:E.
    + right. apply Pos.compare_eq in E. rewrite E. reflexivity.
    + left. reflexivity.
    + exfalso. apply Pos.compare_gt_iff in E. lia.
Qed.

Lemma is_finite_Prim2SF f :
  is_finite f = true →
  match Prim2SF f with S754_nan | S754_infinity _ => False | _ => True end.
Proof.
  unfold is_finite, is_nan, is_infinity.
  rewrite !FloatAxioms.eqb_spec, FloatAxioms.abs_spec.
  destruct (Prim2SF f) as [s|s| |s m e]; try exact (λ _, I).
  - destruct s; vm_compute; discriminate.
  - vm_compute. discriminate.
Qed.

Lemma MaxFloat64_greatest f :
  is_finite f = true →
  (f <=? MaxFloat64)%float = true ∧
  (f = MaxFloat64 ∨ (f <? MaxFloat64)%float = true).
Proof.
  intros Hf. apply is_finite_Prim2SF in Hf.
  rewrite FloatAxioms.leb_spec, FloatAxioms.ltb_spec, Prim2SF_MaxFloat64.
  destruct (SFcompare_MaxFloat64 (Prim2SF f) (Prim2SF_valid f)) as [Hlt|Heq].
  - destruct (Prim2SF f) as [s|s| |s m e]; try exact I; try (exfalso; exact Hf).
  - unfold SFleb, SFltb. rewrite Hlt. split; [reflexivity|right; reflexivity].
  - split.
    + rewrite Heq. reflexivity.
    + left. apply Prim2SF_inj. rewrite Heq, Prim2SF_MaxFloat64. reflexivity.
Qed.

(** ** Properties of [Get] *)

(** C4.  Once the catalog and the zonal map are there, [Get] does not
    return an error; and when the synthesis does not panic (no shape lacks
    its identifier while it has zones and usage classes), [Get] returns a
    list in which every shape of the catalog that has no entry in the zonal
    map appears with an empty list of offerings. *)
Theorem missing_zones_no_offerings Hash w provider p instanceTypes p1
    instanceTypeZones p2 :
  getInstanceTypes w provider p = (Ok instanceTypes, p1) →
  getInstanceTypeZones Hash w provider p1 = (Ok instanceTypeZones, p2) →
  map_Forall (λ _ i, ¬ unnamedWithOfferings (zonesOf instanceTypeZones i) i)
    instanceTypes →
  (∀ e q, Get Hash w provider p ≠ (Err e, q)) ∧
  ∃ results,
    Get Hash w provider p = (Ok results, p2) ∧
    ∀ k i, instanceTypes !! k = Some i →
           instanceTypeZones !! nameOf i = None →
           ∃ o, o ∈ results ∧ Info o = i ∧ Offerings o = [].
Proof.
  intros H1 H2 Hnamed. split.
  { intros e q. by eapply Get_fetched_not_Err. }
  eexists. split; [by eapply Get_synthesized|].
  intros k i Hk Hz. exists (offered w provider instanceTypeZones p2 i). split.
  - apply list_elem_of_fmap. exists i. split; [done|].
    apply elem_of_rangeMap_values. eauto.
  - split; [done|]. simpl. unfold zonesOf. rewrite Hz. simpl.
    by rewrite range_empty.
Qed.

Lemma missing_zones_no_offerings_example :
  (∀ e q, Get exampleHash (exampleWorld 0) exampleRequest exampleProvider
          ≠ (Err e, q)) ∧
  ∃ results,
    Get exampleHash (exampleWorld 0) exampleRequest exampleProvider =
      (Ok results, exampleProvider2) ∧
    ∀ k i, exampleCatalog !! k = Some i →
           exampleZones !! nameOf i = None →
           ∃ o, o ∈ results ∧ Info o = i ∧ Offerings o = [].
Proof.
  apply (missing_zones_no_offerings exampleHash (exampleWorld 0)
           exampleRequest exampleProvider exampleCatalog exampleProvider1
           exampleZones exampleProvider2).
  - vm_compute. reflexivity.
  - vm_compute. reflexivity.
  - apply (bool_decide_unpack _). vm_compute. exact I.
Defined.

(** C5, for the prices [A] at +Inf and [B] at [math.MaxFloat64]: [Get]
    returns the three shapes, [C] (whose price lookup fails) with the
    sentinel price and its offering, and the sentinel is not larger than
    the price of either successfully priced shape. *)
Lemma sentinel_price_not_strictly_larger :
  ∃ results p' a b c err,
    Get exampleHash pricedWorld exampleRequest exampleProvider =
      (Ok results, p') ∧
    results = [c; a; b] ∧
    OnDemandPrice pricedWorld (nameOf (Info a)) = inr (Price a) ∧
    OnDemandPrice pricedWorld (nameOf (Info b)) = inr (Price b) ∧
    OnDemandPrice pricedWorld (nameOf (Info c)) = inl err ∧
    Price c = MaxFloat64 ∧
    Offerings c = [{| Zone := "z2"; CapacityType := "spot" |}] ∧
    (Price a <? Price c)%float = false ∧
    (Price a <=? Price c)%float = false ∧
    (Price b <? Price c)%float = false.
Proof.
  do 6 eexists. split; [vm_compute; reflexivity|].
  split; [reflexivity|]. vm_compute. repeat split; reflexivity.
Qed.

(** C5, amended.  When the synthesis does not panic, [Get] returns a list:
    a failing price lookup does not make it fail.  A shape whose lookup
    fails appears with its offerings and the price [math.MaxFloat64]; a
    shape whose lookup succeeds appears with the price returned, and when
    that price is finite it is at most the sentinel, and strictly below it
    unless it is [math.MaxFloat64] itself. *)
Theorem sentinel_price Hash w provider p instanceTypes p1 instanceTypeZones
    p2 :
  getInstanceTypes w provider p = (Ok instanceTypes, p1) →
  getInstanceTypeZones Hash w provider p1 = (Ok instanceTypeZones, p2) →
  map_Forall (λ _ i, ¬ unnamedWithOfferings (zonesOf instanceTypeZones i) i)
    instanceTypes →
  ∃ results,
    Get Hash w provider p = (Ok results, p2) ∧
    (∀ k i err,
       instanceTypes !! k = Some i →
       OnDemandPrice w (nameOf i) = inl err →
       ∃ o, o ∈ results ∧ Info o = i ∧ Price o = MaxFloat64 ∧
            createOfferings (now w) (rangeZones w (nameOf i))
              (rangeUsageClasses w (nameOf i)) i
              (zonesOf instanceTypeZones i) p = Ok (Offerings o)) ∧
    (∀ o price,
       o ∈ results → OnDemandPrice w (nameOf (Info o)) = inr price →
       Price o = price ∧
       (is_finite price = true →
        (price <=? MaxFloat64)%float = true ∧
        (price = MaxFloat64 ∨ (price <? MaxFloat64)%float = true))).
Proof.
  intros H1 H2 Hnamed. eexists. split; [by eapply Get_synthesized|].
  assert (unavailableOfferings p = unavailableOfferings p2) as Hun.
  { apply getInstanceTypes_unavailableOfferings in H1.
    apply getInstanceTypeZones_unavailableOfferings in H2. congruence. }
  split.
  - intros k i err Hk Herr.
    exists (offered w provider instanceTypeZones p2 i). split_and!.
    + apply list_elem_of_fmap. exists i. split; [done|].
      apply elem_of_rangeMap_values. eauto.
    + done.
    + simpl. unfold priceOf. by rewrite Herr.
    + rewrite (createOfferings_ext _ _ _ _ _ p p2 Hun), createOfferings_spec.
      by rewrite decide_False by (by eapply Hnamed).
  - intros o price (i & -> & Hi)%list_elem_of_fmap Hprice. simpl in *.
    unfold priceOf. rewrite Hprice. split; [done|].
    apply MaxFloat64_greatest.
Qed.

Lemma sentinel_price_example :
  ∃ results,
    Get exampleHash (exampleWorld 0) exampleRequest exampleProvider =
      (Ok results, exampleProvider2) ∧
    (∀ k i err,
       exampleCatalog !! k = Some i →
       OnDemandPrice (exampleWorld 0) (nameOf i) = inl err →
       ∃ o, o ∈ results ∧ Info o = i ∧ Price o = MaxFloat64 ∧
            createOfferings 0 rangeReversed (λ _, rangeElements) i
              (zonesOf exampleZones i) exampleProvider = Ok (Offerings o)) ∧
    (∀ o price,
       o ∈ results →
       OnDemandPrice (exampleWorld 0) (nameOf (Info o)) = inr price →
       Price o = price ∧
       (is_finite price = true →
        (price <=? MaxFloat64)%float = true ∧
        (price = MaxFloat64 ∨ (price <? MaxFloat64)%float = true))).
Proof.
  apply (sentinel_price exampleHash (exampleWorld 0) exampleRequest
           exampleProvider exampleCatalog exampleProvider1 exampleZones
           exampleProvider2).
  - vm_compute. reflexivity.
  - vm_compute. reflexivity.
  - apply (bool_decide_unpack _). vm_compute. exact I.
Defined.

(** ** The key of an unavailable offering *)

#[local] Arguments String.append !s1 s2 : simpl nomatch.

Lemma append_inj_r (s r r' : string) : s +:+ r = s +:+ r' → r = r'.
Proof.
  induction s as [|a s IH]; cbn [String.append]; [done|]. intros [= H]. auto.
Qed.

Lemma colon_string : ":"%string = String colon EmptyString.
Proof. reflexivity. Qed.

(** Up to the first separator, a key is read back without ambiguity when
    the capacity type does not contain the separator. *)
Lemma append_colon_inj (c c' r r' : string) :
  noColon c = true → noColon c' = true →
  c +:+ ":" +:+ r = c' +:+ ":" +:+ r' → c = c' ∧ r = r'.
Proof.
  rewrite colon_string. revert c'.
  induction c as [|a c IH]; intros [|a' c'] Hc Hc';
    cbn [String.append noColon] in *.
  - by intros [= ->].
  - intros [= <- _]. by rewrite Ascii.eqb_refl in Hc'.
  - intros [= -> _]. by rewrite Ascii.eqb_refl in Hc.
  - intros [= -> H].
    destruct (Ascii.eqb a' colon); [done|].
    destruct (IH c' Hc Hc' H) as [-> ->]. done.
Qed.


(** A report leaves every other key of the cache as it was. *)
Lemma isUnavailable_reportAt_other code overrides reported p t name zone
    capacityType now :
  UnavailableOfferingsCacheKey
    (StringValue (OverridesInstanceType overrides))
    (StringValue (OverridesAvailabilityZone overrides)) reported ≠
  UnavailableOfferingsCacheKey name zone capacityType →
  isUnavailable (reportAt (fleetError code overrides) reported p t)
    name zone capacityType now =
  isUnavailable p name zone capacityType now.
Proof.
  intros Hne. unfold isUnavailable, reportAt, CacheUnavailable. simpl.
  by rewrite Get_SetDefault_ne.
Qed.

(** The key is a string, and the separator is not escaped.  Were a usage
    class to contain the separator, as none of EC2's does, the keys of two
    offerings of a shape could coincide: after the offering (class [x],
    shape [a], zone [a:y]) alone is reported, [Get] also leaves out the
    offering (class [x:a], zone [y]) of the same shape, which it returns
    when nothing is reported. *)
Lemma report_suppresses_other_offering :
  ∃ before after p0 p1,
    Get exampleHash collisionWorld exampleRequest exampleProvider =
      (Ok [before], p0) ∧
    Get exampleHash collisionWorld exampleRequest
      (reportAt (fleetError None collisionOverrides) "x" exampleProvider 0) =
      (Ok [after], p1) ∧
    InstanceType (Info before) = Some "a"%string ∧
    InstanceType (Info after) = Some "a"%string ∧
    Offerings before =
      [{| Zone := "y"; CapacityType := "x:a" |};
       {| Zone := "y"; CapacityType := "x" |};
       {| Zone := "a:y"; CapacityType := "x:a" |};
       {| Zone := "a:y"; CapacityType := "x" |}] ∧
    Offerings after =
      [{| Zone := "y"; CapacityType := "x" |};
       {| Zone := "a:y"; CapacityType := "x:a" |}] ∧
    ({| Zone := "y"; CapacityType := "x:a" |} ∉ Offerings after) ∧
    UnavailableOfferingsCacheKey "a" "a:y" "x" =
    UnavailableOfferingsCacheKey "a" "y" "x:a".
Proof.
  do 4 eexists. split; [vm_compute; reflexivity|].
  split; [vm_compute; reflexivity|].
  do 4 (split; [reflexivity|]).
  split; [|reflexivity].
  by apply (bool_decide_unpack _).
Qed.




(** In that example the spot offering of [A] in [z1], reported a minute
    before, is the one that [Get] leaves out: its key is read from the
    cache of unavailable offerings, the keys of the other offerings are
    not, and the other four offerings of the first call are returned. *)
Lemma reported_offering_excluded_example :
  (Get exampleHash (exampleWorld Minute) exampleRequest reportedProvider).1 =
    Ok reportedResults ∧
  is_Some (GoCache.Get (unavailableOfferings reportedProvider)
             (UnavailableOfferingsCacheKey "A" "z1" "spot") Minute) ∧
  GoCache.Get (unavailableOfferings reportedProvider)
    (UnavailableOfferingsCacheKey "A" "z1" "on-demand") Minute = None ∧
  GoCache.Get (unavailableOfferings reportedProvider)
    (UnavailableOfferingsCacheKey "A" "z2" "spot") Minute = None ∧
  offers exampleResults "A" "z1" "spot" ∧
  ¬ offers reportedResults "A" "z1" "spot" ∧
  offers reportedResults "A" "z1" "on-demand" ∧
  offers reportedResults "A" "z2" "spot" ∧
  offers reportedResults "A" "z2" "on-demand" ∧
  offers reportedResults "B" "z1" "on-demand" ∧
  length (offeringSet exampleResults) = 5%nat ∧
  length (offeringSet reportedResults) = 4%nat ∧
  noColon "spot" = true ∧ noColon "on-demand" = true.
Proof.
  split; [vm_compute; reflexivity|].
  split; [by vm_compute; eexists|].
  do 2 (split; [vm_compute; reflexivity|]).
  do 6 (split; [apply (bool_decide_unpack _); vm_compute; exact I|]).
  do 3 (split; [vm_compute; reflexivity|]). vm_compute. reflexivity.
Qed.

(** ** Failing fetches *)

Lemma zonesCacheKey_ne h : zonesCacheKey h ≠ InstanceTypesCacheKey.
Proof. unfold zonesCacheKey. by cbn. Qed.

(** The catalog fetch writes under the catalog key only. *)
Lemma getInstanceTypes_items w provider p r p1 k :
  getInstanceTypes w provider p = (r, p1) → k ≠ InstanceTypesCacheKey →
  GoCache.items (cache p1) !! k = GoCache.items (cache p) !! k.
Proof.
  unfold getInstanceTypes. intros H Hk.
  destruct (GoCache.Get (cache p) InstanceTypesCacheKey (now w));
    [by simplify_eq|].
  destruct (EachPage _ _ _) as [[m [err|]]| |]; simplify_eq; try done.
  unfold setCache, GoCache.SetDefault, GoCache.Set_. simpl.
  by rewrite lookup_insert_ne.
Qed.

(** C6.  When the catalog entry is missed and the listing of instance types
    fails, [Get] returns no list and leaves the provider as it was: nothing
    of what the delivered pages accumulated is stored; it returns the
    wrapped error of the listing whenever the delivered records that pass
    the filter carry the structures that compression reads, and panics
    otherwise.  When the catalog is there, the zonal entry is missed, the
    subnets are resolved and the listing of zonal offerings fails, [Get]
    returns the wrapped error of the listing, and the entry under the
    request's zonal key is the one it was before the call. *)
Theorem fetch_error_aborts Hash w provider p :
  (∀ err,
     GoCache.Get (cache p) InstanceTypesCacheKey (now w) = None →
     failure (DescribeInstanceTypesPages w instanceTypesInput) = Some err →
     (∃ r, Get Hash w provider p = (r, p) ∧ ∀ results, r ≠ Ok results) ∧
     ((∀ r, r ∈ fetchedInstanceTypes w → filter r = true → complete r) →
      Get Hash w provider p =
      (Err (wrapError
              "fetching instance types using ec2.DescribeInstanceTypes, "
              err), p))) ∧
  (∀ instanceTypes p1 h subnets err,
     getInstanceTypes w provider p = (Ok instanceTypes, p1) →
     Hash (SubnetSelector provider) = inr h →
     GoCache.Get (cache p1) (zonesCacheKey h) (now w) = None →
     SubnetProviderGet w provider = inr subnets →
     failure (DescribeInstanceTypeOfferingsPages w instanceTypeOfferingsInput)
       = Some err →
     Get Hash w provider p =
     (Err (wrapError "describing instance type zone offerings, " err), p1) ∧
     GoCache.items (cache p1) !! zonesCacheKey h =
     GoCache.items (cache p) !! zonesCacheKey h).
Proof.
  split.
  - intros err Hmiss Hfail.
    pose proof (getInstanceTypes_miss w provider p Hmiss) as Hget.
    rewrite Hfail in Hget. split.
    + unfold Get, bindM. rewrite Hget.
      destruct (forEach (fetchedInstanceTypes w) retain ∅); eauto.
    + intros Hc. unfold Get, bindM. rewrite Hget.
      by destruct (retain_all_Ok (fetchedInstanceTypes w) ∅ Hc) as [m ->].
  - intros instanceTypes p1 h subnets err H1 Hh Hmiss Hs Hfail. split.
    + unfold Get, bindM. rewrite H1.
      rewrite (getInstanceTypeZones_miss Hash w provider p1 h subnets)
        by done.
      by rewrite Hfail.
    + eapply getInstanceTypes_items; [done|]. apply zonesCacheKey_ne.
Qed.

Lemma fetch_error_aborts_example :
  ((∃ r, Get exampleHash failingCatalogWorld exampleRequest exampleProvider =
         (r, exampleProvider) ∧ ∀ results, r ≠ Ok results) ∧
   ((∀ r, r ∈ fetchedInstanceTypes failingCatalogWorld →
          filter r = true → complete r) →
    Get exampleHash failingCatalogWorld exampleRequest exampleProvider =
    (Err (wrapError
            "fetching instance types using ec2.DescribeInstanceTypes, "
            throttled), exampleProvider))) ∧
  (Get exampleHash failingZonesWorld exampleRequest exampleProvider =
   (Err (wrapError "describing instance type zone offerings, " throttled),
    exampleProvider1) ∧
   GoCache.items (cache exampleProvider1) !! zonesCacheKey 7 =
   GoCache.items (cache exampleProvider) !! zonesCacheKey 7).
Proof.
  split.
  - apply (proj1 (fetch_error_aborts exampleHash failingCatalogWorld
                    exampleRequest exampleProvider) throttled);
      reflexivity.
  - apply (proj2 (fetch_error_aborts exampleHash failingZonesWorld
                    exampleRequest exampleProvider)
             exampleCatalog exampleProvider1 7
             [exampleSubnet "z1"; exampleSubnet "z2"] throttled).
    + vm_compute. reflexivity.
    + reflexivity.
    + reflexivity.
    + reflexivity.
    + reflexivity.
Defined.

(** ** The stored catalog *)

(** C7.  On a miss of the catalog entry, when the listing completes and the
    records that pass the filter carry the structures that compression
    reads, [getInstanceTypes] returns the accumulated catalog and stores it
    under the catalog key.  A fetched record passes the filter exactly when
    it has no FPGA info and its identifier does not start with [g2]; the
    identifiers of the catalog are exactly those of the fetched records
    that pass, each mapped to the compression of such a record; and a
    fetched record whose identifier no other fetched record bears is in the
    catalog, compressed, exactly when it passes. *)
Theorem catalog_is_filtered w provider p :
  GoCache.Get (cache p) InstanceTypesCacheKey (now w) = None →
  failure (DescribeInstanceTypesPages w instanceTypesInput) = None →
  Forall (λ r, filter r = true → complete r) (fetchedInstanceTypes w) →
  ∃ catalog p' e,
    getInstanceTypes w provider p = (Ok catalog, p') ∧
    GoCache.items (cache p') !! InstanceTypesCacheKey =
      Some {| GoCache.Object := InstanceTypesValue catalog;
              GoCache.Expiration := e |} ∧
    (∀ r, r ∈ fetchedInstanceTypes w →
       (filter r = true ↔
        FpgaInfo_ r = None ∧ String.prefix "g2" (nameOf r) = false)) ∧
    (∀ name,
       is_Some (catalog !! name) ↔
       ∃ r, r ∈ fetchedInstanceTypes w ∧ nameOf r = name ∧
            FpgaInfo_ r = None ∧ String.prefix "g2" name = false) ∧
    (∀ name compressed,
       catalog !! name = Some compressed →
       ∃ r, r ∈ fetchedInstanceTypes w ∧ nameOf r = name ∧
            filter r = true ∧ compressInstanceType r = Ok compressed) ∧
    (∀ r, r ∈ fetchedInstanceTypes w →
       (∀ r', r' ∈ fetchedInstanceTypes w → nameOf r' = nameOf r → r' = r) →
       ((∃ compressed, catalog !! nameOf r = Some compressed ∧
                       compressInstanceType r = Ok compressed) ↔
        FpgaInfo_ r = None ∧ String.prefix "g2" (nameOf r) = false)).
Proof.
  intros Hmiss Hdone Hc. rewrite Forall_forall in Hc.
  destruct (retain_all_Ok (fetchedInstanceTypes w) ∅ Hc) as [catalog Hrun].
  pose proof (getInstanceTypes_miss w provider p Hmiss) as Hget.
  rewrite Hrun, Hdone in Hget.
  assert (∀ name compressed,
            catalog !! name = Some compressed →
            ∃ r, r ∈ fetchedInstanceTypes w ∧ nameOf r = name ∧
                 filter r = true ∧ compressInstanceType r = Ok compressed)
    as Hlookup.
  { intros name c Hl.
    destruct (retain_all_lookup _ _ _ _ _ Hrun Hl) as [Hempty|?]; [|done].
    by rewrite lookup_empty in Hempty. }
  assert (∀ name,
            is_Some (catalog !! name) ↔
            ∃ r, r ∈ fetchedInstanceTypes w ∧ nameOf r = name ∧
                 filter r = true) as Hdom.
  { intros name. rewrite (retain_all_dom _ _ _ name Hrun).
    rewrite lookup_empty. split; [|by right].
    intros [[? [=]]|?]. done. }
  eexists catalog, _, _. split; [exact Hget|]. split_and!.
  - unfold setCache, GoCache.SetDefault, GoCache.Set_. simpl.
    by rewrite lookup_insert_eq.
  - intros r _. apply filter_spec.
  - intros name. rewrite Hdom. split.
    + intros (r & Hr & Hn & Hf). apply filter_spec in Hf as [? ?].
      exists r. by rewrite <- Hn.
    + intros (r & Hr & Hn & Hf & Hg). exists r. split_and!; [done..|].
      apply filter_spec. by rewrite Hn.
  - exact Hlookup.
  - intros r Hr Huniq. rewrite <- filter_spec. split.
    + intros (c & Hl & _).
      destruct (Hlookup _ _ Hl) as (r' & Hr' & Hn & Hf & _).
      by rewrite <- (Huniq r' Hr' Hn).
    + intros Hf. destruct (proj2 (Hdom (nameOf r))) as [c Hl]; [by eauto|].
      exists c. split; [done|].
      destruct (Hlookup _ _ Hl) as (r' & Hr' & Hn & _ & Hcomp).
      by rewrite <- (Huniq r' Hr' Hn).
Qed.

Lemma catalog_is_filtered_example :
  ∃ catalog p' e,
    getInstanceTypes (exampleWorld 0) exampleRequest exampleProvider =
      (Ok catalog, p') ∧
    GoCache.items (cache p') !! InstanceTypesCacheKey =
      Some {| GoCache.Object := InstanceTypesValue catalog;
              GoCache.Expiration := e |} ∧
    (∀ r, r ∈ fetchedInstanceTypes (exampleWorld 0) →
       (filter r = true ↔
        FpgaInfo_ r = None ∧ String.prefix "g2" (nameOf r) = false)) ∧
    (∀ name,
       is_Some (catalog !! name) ↔
       ∃ r, r ∈ fetchedInstanceTypes (exampleWorld 0) ∧ nameOf r = name ∧
            FpgaInfo_ r = None ∧ String.prefix "g2" name = false) ∧
    (∀ name compressed,
       catalog !! name = Some compressed →
       ∃ r, r ∈ fetchedInstanceTypes (exampleWorld 0) ∧ nameOf r = name ∧
            filter r = true ∧ compressInstanceType r = Ok compressed) ∧
    (∀ r, r ∈ fetchedInstanceTypes (exampleWorld 0) →
       (∀ r', r' ∈ fetchedInstanceTypes (exampleWorld 0) →
              nameOf r' = nameOf r → r' = r) →
       ((∃ compressed, catalog !! nameOf r = Some compressed ∧
                       compressInstanceType r = Ok compressed) ↔
        FpgaInfo_ r = None ∧ String.prefix "g2" (nameOf r) = false)).
Proof.
  apply (catalog_is_filtered (exampleWorld 0) exampleRequest exampleProvider).
  - reflexivity.
  - reflexivity.
  - apply (bool_decide_unpack _). vm_compute. exact I.
Defined.

(** ** The stored zonal map *)

(** C8.  On a miss of the zonal entry, when the subnets are resolved and the
    listing completes, [getInstanceTypeZones] returns a map that it stores
    under the request's zonal key.  The map accumulated from the listing
    holds a zone for a shape exactly when the zone is that of a resolved
    subnet and the listing offers the shape there, and it has no empty
    entry, so that the listing and the subnets determine it; every zone of
    the returned map is that of a resolved subnet; when the accumulated map
    has no entry for [p4de.24xlarge] and [us-east-1d] is the zone of a
    resolved subnet, the returned map is the accumulated one with
    [p4de.24xlarge] mapped to exactly [us-east-1d]; otherwise it is the
    accumulated map.  In terms of the listing alone: a shape has an entry
    in the returned map exactly when the listing offers it in the zone of a
    resolved subnet, and the entry is then the set of those zones, or when
    it is [p4de.24xlarge], the listing offers it in no such zone and
    [us-east-1d] is the zone of a resolved subnet, and the entry is then
    exactly [us-east-1d]. *)
Theorem zonal_map_is_restricted_and_forced Hash w provider p h subnets :
  Hash (SubnetSelector provider) = inr h →
  GoCache.Get (cache p) (zonesCacheKey h) (now w) = None →
  SubnetProviderGet w provider = inr subnets →
  failure (DescribeInstanceTypeOfferingsPages w instanceTypeOfferingsInput)
    = None →
  let candidate zone :=
    ∃ subnet, subnet ∈ subnets ∧
              StringValue (AvailabilityZone subnet) = zone in
  ∃ (accumulated instanceTypeZones : gmap string (gset string)) p' e,
    getInstanceTypeZones Hash w provider p = (Ok instanceTypeZones, p') ∧
    GoCache.items (cache p') !! zonesCacheKey h =
      Some {| GoCache.Object := InstanceTypeZonesValue instanceTypeZones;
              GoCache.Expiration := e |} ∧
    (∀ name zone,
       (∃ zs, accumulated !! name = Some zs ∧ zone ∈ zs) ↔
       candidate zone ∧
       ∃ o, o ∈ fetchedOfferings w ∧
            StringValue (OfferingInstanceType o) = name ∧
            StringValue (Location o) = zone) ∧
    (∀ name zs zone,
       instanceTypeZones !! name = Some zs → zone ∈ zs → candidate zone) ∧
    (accumulated !! "p4de.24xlarge" = None → candidate "us-east-1d" →
     instanceTypeZones =
     <["p4de.24xlarge" := {["us-east-1d"]}]> accumulated) ∧
    (¬ (accumulated !! "p4de.24xlarge" = None ∧ candidate "us-east-1d") →
     instanceTypeZones = accumulated) ∧
    (∀ name zs, accumulated !! name = Some zs → zs ≠ ∅) ∧
    (∀ name zs,
       instanceTypeZones !! name = Some zs ↔
       (zs ≠ ∅ ∧ ∀ zone, zone ∈ zs ↔ offeredIn w subnets name zone) ∨
       (name = "p4de.24xlarge"%string ∧
        (∀ zone, ¬ offeredIn w subnets "p4de.24xlarge" zone) ∧
        candidate "us-east-1d" ∧
        zs = {["us-east-1d"%string]})).
Proof.
  intros Hh Hmiss Hs Hdone candidate.
  pose proof (getInstanceTypeZones_miss Hash w provider p h subnets
                Hh Hmiss Hs) as Hget.
  rewrite Hdone in Hget. simpl in Hget.
  set (zones := subnetZones subnets) in *.
  set (accumulated := foldl (addOffering zones) ∅ (fetchedOfferings w)) in *.
  assert (∀ zone, zone ∈ zones ↔ candidate zone) as Hcand.
  { intros zone. apply elem_of_subnetZones. }
  assert (∀ name zone,
            (∃ zs, accumulated !! name = Some zs ∧ zone ∈ zs) ↔
            candidate zone ∧
            ∃ o, o ∈ fetchedOfferings w ∧
                 StringValue (OfferingInstanceType o) = name ∧
                 StringValue (Location o) = zone) as Hacc.
  { intros name zone. unfold accumulated. rewrite accumulate_lookup.
    rewrite Hcand. split; [|by right].
    intros [(zs & Hzs & _)|?]; [|done]. by rewrite lookup_empty in Hzs. }
  eexists accumulated, _, _, _. split; [exact Hget|]. split_and!.
  - unfold setCache, GoCache.SetDefault, GoCache.Set_. simpl.
    by rewrite lookup_insert_eq.
  - exact Hacc.
  - intros name zs zone Hl Hz. rewrite forceOffering_lookup in Hl.
    case_decide as Hforce.
    + destruct Hforce as (_ & _ & Hd). simplify_eq.
      apply elem_of_singleton in Hz as ->. by apply Hcand.
    + apply (Hacc name zone). eauto.
  - intros Hnone Hd. unfold forceOffering. rewrite Hnone.
    by rewrite decide_True by (by apply Hcand).
  - intros Hn. unfold forceOffering.
    destruct (accumulated !! "p4de.24xlarge") eqn:E; [done|].
    rewrite decide_False; [done|]. intros Hd%Hcand. by apply Hn.
  - intros name zs.
    apply (accumulate_nonempty zones (fetchedOfferings w) ∅),
      map_Forall_empty.
  - intros name zs. apply zonal_map_lookup.
Qed.

Lemma zonal_map_is_restricted_and_forced_example :
  let candidate zone :=
    ∃ subnet, subnet ∈ [exampleSubnet "z1"; exampleSubnet "us-east-1d"] ∧
              StringValue (AvailabilityZone subnet) = zone in
  ∃ (accumulated instanceTypeZones : gmap string (gset string)) p' e,
    getInstanceTypeZones exampleHash overrideWorld exampleRequest
      exampleProvider = (Ok instanceTypeZones, p') ∧
    GoCache.items (cache p') !! zonesCacheKey 7 =
      Some {| GoCache.Object := InstanceTypeZonesValue instanceTypeZones;
              GoCache.Expiration := e |} ∧
    (∀ name zone,
       (∃ zs, accumulated !! name = Some zs ∧ zone ∈ zs) ↔
       candidate zone ∧
       ∃ o, o ∈ fetchedOfferings overrideWorld ∧
            StringValue (OfferingInstanceType o) = name ∧
            StringValue (Location o) = zone) ∧
    (∀ name zs zone,
       instanceTypeZones !! name = Some zs → zone ∈ zs → candidate zone) ∧
    (accumulated !! "p4de.24xlarge" = None → candidate "us-east-1d" →
     instanceTypeZones =
     <["p4de.24xlarge" := {["us-east-1d"]}]> accumulated) ∧
    (¬ (accumulated !! "p4de.24xlarge" = None ∧ candidate "us-east-1d") →
     instanceTypeZones = accumulated) ∧
    (∀ name zs, accumulated !! name = Some zs → zs ≠ ∅) ∧
    (∀ name zs,
       instanceTypeZones !! name = Some zs ↔
       (zs ≠ ∅ ∧
        ∀ zone,
          zone ∈ zs ↔
          offeredIn overrideWorld
            [exampleSubnet "z1"; exampleSubnet "us-east-1d"] name zone) ∨
       (name = "p4de.24xlarge"%string ∧
        (∀ zone,
           ¬ offeredIn overrideWorld
               [exampleSubnet "z1"; exampleSubnet "us-east-1d"]
               "p4de.24xlarge" zone) ∧
        candidate "us-east-1d" ∧
        zs = {["us-east-1d"%string]})).
Proof.
  apply (zonal_map_is_restricted_and_forced exampleHash overrideWorld
           exampleRequest exampleProvider 7
           [exampleSubnet "z1"; exampleSubnet "us-east-1d"]);
    reflexivity.
Defined.

(** In that example the override applies: the returned map offers
    [p4de.24xlarge] in [us-east-1d] only, next to [A] and [B] in [z1]. *)
Lemma forced_offering_example :
  (getInstanceTypeZones exampleHash overrideWorld exampleRequest
     exampleProvider).1 =
  Ok {[ "A" := {["z1"]}; "B" := {["z1"]};
        "p4de.24xlarge" := {["us-east-1d"]} ]}.
Proof. vm_compute. reflexivity. Qed.

(** ** Panics of the catalog fetch *)

(** C10.  Compression panics exactly when one of the four nested structures
    it reads is nil.  When the catalog entry is missed, [Get] runs the fetch,
    and it is free of panics only if every delivered record that passes the
    filter carries the four structures. *)
Theorem compression_needs_nested_structures Hash w provider p :
  GoCache.Get (cache p) InstanceTypesCacheKey (now w) = None →
  (Get Hash w provider p).1 ≠ Panic →
  (∀ i, compressInstanceType i = Panic ↔
        VCpuInfo_ i = None ∨ MemoryInfo_ i = None ∨
        ProcessorInfo_ i = None ∨ NetworkInfo_ i = None) ∧
  (∀ r, r ∈ fetchedInstanceTypes w → filter r = true →
        is_Some (VCpuInfo_ r) ∧ is_Some (MemoryInfo_ r) ∧
        is_Some (ProcessorInfo_ r) ∧ is_Some (NetworkInfo_ r)).
Proof.
  intros Hmiss Hfree. split.
  - intros i. unfold compressInstanceType.
    destruct (VCpuInfo_ i), (MemoryInfo_ i), (ProcessorInfo_ i),
      (NetworkInfo_ i); simpl;
      (split; [intros H; try done; auto 10 | by intros [?|[?|[?|?]]]]).
  - pose proof (getInstanceTypes_miss w provider p Hmiss) as Hget.
    destruct (forEach (fetchedInstanceTypes w) retain ∅) as [catalog| |]
      eqn:Hrun.
    + by apply (retain_all_Ok_inv _ _ _ Hrun).
    + by apply retain_all_not_Err in Hrun.
    + exfalso. apply Hfree. unfold Get, bindM. by rewrite Hget.
Qed.

Lemma compression_needs_nested_structures_example :
  (∀ i, compressInstanceType i = Panic ↔
        VCpuInfo_ i = None ∨ MemoryInfo_ i = None ∨
        ProcessorInfo_ i = None ∨ NetworkInfo_ i = None) ∧
  (∀ r, r ∈ fetchedInstanceTypes (exampleWorld 0) → filter r = true →
        is_Some (VCpuInfo_ r) ∧ is_Some (MemoryInfo_ r) ∧
        is_Some (ProcessorInfo_ r) ∧ is_Some (NetworkInfo_ r)).
Proof.
  apply (compression_needs_nested_structures exampleHash (exampleWorld 0)
           exampleRequest exampleProvider).
  - reflexivity.
  - vm_compute. discriminate.
Defined.

(** A fetched record without network info makes [Get] panic; the caches
    are left as they were. *)
Lemma incomplete_record_panics :
  Get exampleHash incompleteWorld exampleRequest exampleProvider =
  (Panic, exampleProvider).
Proof. vm_compute. reflexivity. Qed.

(** ** Repeated calls *)

Lemma offers_spec results name zone capacityType :
  offers results name zone capacityType ↔
  ∃ o, o ∈ results ∧ nameOf (Info o) = name ∧
       {| Zone := zone; CapacityType := capacityType |} ∈ Offerings o.
Proof.
  unfold offers, offeringSet. rewrite list_elem_of_bind. split.
  - intros (o & (x & [= -> ->] & Hx)%list_elem_of_fmap & Ho). eauto.
  - intros (o & Ho & <- & Hx). exists o. split; [|done].
    apply list_elem_of_fmap. eauto.
Qed.

Lemma offers_offered w provider instanceTypeZones p (l : list InstanceTypeInfo)
    name zone capacityType :
  offers (offered w provider instanceTypeZones p <$> l) name zone capacityType
  ↔ ∃ i, i ∈ l ∧ nameOf i = name ∧ zone ∈ zonesOf instanceTypeZones i ∧
         capacityType ∈ usageClasses i ∧
         isUnavailable p name zone capacityType (now w) = false.
Proof.
  rewrite offers_spec. split.
  - intros (o & (i & -> & Hi)%list_elem_of_fmap & Hn & Ho). simpl in *.
    apply elem_of_synthesized in Ho. simpl in Ho. rewrite Hn in Ho.
    exists i. by destruct Ho as (? & ? & ?).
  - intros (i & Hi & Hn & Hz & Hc & Hav).
    exists (offered w provider instanceTypeZones p i). split_and!.
    + apply list_elem_of_fmap. eauto.
    + done.
    + simpl. apply elem_of_synthesized. simpl. by rewrite Hn.
Qed.

(** A read that hits returns the value of the entry, whatever the
    instant. *)
Lemma Get_hit_item {V : Type} (c : GoCache.Cache V) k it now :
  GoCache.items c !! k = Some it → is_Some (GoCache.Get c k now) →
  GoCache.Get c k now = Some (GoCache.Object it).
Proof.
  unfold GoCache.Get. intros ->. by destruct (GoCache.Expired it now); intros [? ?].
Qed.

(** After the catalog fetch has returned, the catalog entry holds what it
    returned. *)
Lemma getInstanceTypes_Ok_item w provider p instanceTypes p1 :
  getInstanceTypes w provider p = (Ok instanceTypes, p1) →
  ∃ e, GoCache.items (cache p1) !! InstanceTypesCacheKey =
       Some {| GoCache.Object := InstanceTypesValue instanceTypes;
               GoCache.Expiration := e |}.
Proof.
  unfold getInstanceTypes, GoCache.Get. intros H.
  destruct (GoCache.items (cache p) !! InstanceTypesCacheKey) as [[v e]|]
    eqn:E; simpl in H.
  - destruct (GoCache.Expired _ _).
    + destruct (EachPage _ _ _) as [[m [err|]]| |]; simplify_eq.
      unfold setCache, GoCache.SetDefault, GoCache.Set_. simpl.
      rewrite lookup_insert_eq. eauto.
    + destruct v; simplify_eq/=. eauto.
  - destruct (EachPage _ _ _) as [[m [err|]]| |]; simplify_eq.
    unfold setCache, GoCache.SetDefault, GoCache.Set_. simpl.
    rewrite lookup_insert_eq. eauto.
Qed.

(** After the zonal fetch has returned, the entry under the request's key
    holds what it returned, and the other entries are as before. *)
Lemma getInstanceTypeZones_Ok_item Hash w provider p instanceTypeZones p1 :
  getInstanceTypeZones Hash w provider p = (Ok instanceTypeZones, p1) →
  ∃ h e,
    Hash (SubnetSelector provider) = inr h ∧
    GoCache.items (cache p1) !! zonesCacheKey h =
      Some {| GoCache.Object := InstanceTypeZonesValue instanceTypeZones;
              GoCache.Expiration := e |} ∧
    ∀ k, k ≠ zonesCacheKey h →
         GoCache.items (cache p1) !! k = GoCache.items (cache p) !! k.
Proof.
  unfold getInstanceTypeZones, GoCache.Get. intros H.
  destruct (Hash (SubnetSelector provider)) as [err|h]; [by simplify_eq|].
  exists h.
  assert (∀ m,
    ∃ e, GoCache.items (cache (setCache p (zonesCacheKey h)
                                 (InstanceTypeZonesValue m) (now w)))
           !! zonesCacheKey h =
         Some {| GoCache.Object := InstanceTypeZonesValue m;
                 GoCache.Expiration := e |} ∧
         ∀ k, k ≠ zonesCacheKey h →
              GoCache.items (cache (setCache p (zonesCacheKey h)
                                      (InstanceTypeZonesValue m) (now w)))
                !! k = GoCache.items (cache p) !! k) as Hset.
  { intros m. unfold setCache, GoCache.SetDefault, GoCache.Set_. simpl.
    rewrite lookup_insert_eq. eexists. split; [done|].
    intros k Hk. by rewrite lookup_insert_ne. }
  destruct (GoCache.items (cache p) !! zonesCacheKey h) as [[v e]|] eqn:E;
    simpl in H.
  - destruct (GoCache.Expired _ _).
    + destruct (SubnetProviderGet w provider); [by simplify_eq|].
      destruct (EachPage _ _ _) as [[m [err|]]| |]; simplify_eq.
      destruct (Hset (forceOffering (subnetZones l) m)) as (e' & ? & ?).
      eauto.
    + destruct v; simplify_eq/=. eauto.
  - destruct (SubnetProviderGet w provider); [by simplify_eq|].
    destruct (EachPage _ _ _) as [[m [err|]]| |]; simplify_eq.
    destruct (Hset (forceOffering (subnetZones l) m)) as (e' & ? & ?).
    eauto.
Qed.

(** C9, for a report made at instant 0 and two calls made one and four
    minutes later: the second call reads the catalog entry and the zonal
    entry that the first one stored, no report is made in between, and
    yet the offering reported at instant 0, left out by the first call, is
    returned by the second, because its entry has expired in between. *)
Lemma repeated_Get_differs :
  ∃ results1 p1 results2 p2,
    Get exampleHash (exampleWorld (1 * Minute)) exampleRequest
      (reportAt exampleFleetError "spot" exampleProvider 0) =
      (Ok results1, p1) ∧
    Get exampleHash (exampleWorld (4 * Minute)) exampleRequest p1 =
      (Ok results2, p2) ∧
    p2 = p1 ∧
    is_Some (GoCache.Get (cache p1) InstanceTypesCacheKey (4 * Minute)) ∧
    is_Some (GoCache.Get (cache p1) (zonesCacheKey 7) (4 * Minute)) ∧
    4 * Minute ≤ 1 * Minute + InstanceTypesAndZonesCacheTTL ∧
    ¬ offers results1 "A" "z1" "spot" ∧
    offers results2 "A" "z1" "spot".
Proof.
  do 4 eexists. split; [vm_compute; reflexivity|].
  split; [vm_compute; reflexivity|].
  split; [reflexivity|].
  split; [vm_compute; eauto|].
  split; [vm_compute; eauto|].
  split; [by vm_compute|].
  split; by apply (bool_decide_unpack _).
Qed.

(** C9, amended.  After a call of [Get] that returned a list, a second call
    with the same request returns a list with the same shapes and the same
    offering set, provided that it reads the catalog entry and the request's
    zonal entry that the first call left (both unexpired at the second
    call), that no report is made in between, and that every offering is
    unavailable at the instant of the second call exactly if it was at the
    instant of the first. *)
Theorem repeated_Get_same_offerings Hash w1 w2 provider p results1 p1 :
  Get Hash w1 provider p = (Ok results1, p1) →
  is_Some (GoCache.Get (cache p1) InstanceTypesCacheKey (now w2)) →
  (∀ h, Hash (SubnetSelector provider) = inr h →
        is_Some (GoCache.Get (cache p1) (zonesCacheKey h) (now w2))) →
  (∀ name zone capacityType,
     isUnavailable p1 name zone capacityType (now w2) =
     isUnavailable p1 name zone capacityType (now w1)) →
  ∃ results2,
    Get Hash w2 provider p1 = (Ok results2, p1) ∧
    (∀ name zone capacityType,
       offers results2 name zone capacityType ↔
       offers results1 name zone capacityType) ∧
    (∀ i, (∃ o, o ∈ results2 ∧ Info o = i) ↔
          (∃ o, o ∈ results1 ∧ Info o = i)).
Proof.
  intros HG Hcat Hzone Hsame.
  apply Get_Ok_inv in HG as (its & pa & zs & H1 & H2 & Hloop).
  rewrite Get_loop in Hloop.
  destruct (decide (Exists _ _)) as [?|Hnamed] in Hloop; [done|].
  injection Hloop as <-.
  destruct (getInstanceTypes_Ok_item _ _ _ _ _ H1) as [e1 Hitem1].
  destruct (getInstanceTypeZones_Ok_item _ _ _ _ _ _ H2)
    as (h & e2 & Hh & Hitem2 & Hother).
  rewrite <- Hother in Hitem1 by (by apply not_eq_sym, zonesCacheKey_ne).
  pose proof (Get_hit_item _ _ _ _ Hitem1 Hcat) as Hhit1.
  pose proof (Get_hit_item _ _ _ _ Hitem2 (Hzone h Hh)) as Hhit2.
  simpl in Hhit1, Hhit2.
  pose proof (getInstanceTypes_hit w2 provider p1 its Hhit1) as H1'.
  pose proof (getInstanceTypeZones_hit Hash w2 provider p1 h zs Hh Hhit2)
    as H2'.
  assert (∀ i, i ∈ (rangeMap (rangeInstanceTypes w2) its).*2 ↔
               i ∈ (rangeMap (rangeInstanceTypes w1) its).*2) as Hperm.
  { intros i. by rewrite !elem_of_rangeMap_values. }
  eexists. split.
  { rewrite (Get_fetched _ _ _ _ _ _ _ _ H1' H2'), Get_loop.
    rewrite decide_False; [done|].
    rewrite Exists_exists. intros (i & Hi & Hu). apply Hnamed.
    apply Exists_exists. exists i. split; [by apply Hperm|done]. }
  split.
  - intros name zone capacityType. rewrite !offers_offered.
    split; intros (i & Hi & Hn & Hz & Hc & Hav); exists i;
      (split; [by apply Hperm|]); split_and!; try done.
    + by rewrite <- Hsame.
    + by rewrite Hsame.
  - intros i. split; intros (o & (i' & -> & Hi')%list_elem_of_fmap & <-);
      simpl.
    + exists (offered w1 provider zs p1 i'). split; [|done].
      apply list_elem_of_fmap. exists i'. split; [done|]. by apply Hperm.
    + exists (offered w2 provider zs p1 i'). split; [|done].
      apply list_elem_of_fmap. exists i'. split; [done|]. by apply Hperm.
Qed.

Lemma repeated_Get_same_offerings_example :
  ∃ results2,
    Get exampleHash (exampleWorld (3 * Minute)) exampleRequest
      exampleProvider2 = (Ok results2, exampleProvider2) ∧
    (∀ name zone capacityType,
       offers results2 name zone capacityType ↔
       offers exampleResults name zone capacityType) ∧
    (∀ i, (∃ o, o ∈ results2 ∧ Info o = i) ↔
          (∃ o, o ∈ exampleResults ∧ Info o = i)).
Proof.
  apply (repeated_Get_same_offerings exampleHash (exampleWorld 0)
           (exampleWorld (3 * Minute)) exampleRequest exampleProvider
           exampleResults exampleProvider2).
  - vm_compute. reflexivity.
  - vm_compute. eauto.
  - intros h [= <-]. vm_compute. eauto.
  - intros name zone capacityType. reflexivity.
Defined.

(** The zonal entry of a request may expire before the catalog entry does:
    of two calls made eight and ten minutes in, both reading the catalog
    entry stored six minutes in, the second fetches the zones anew and
    returns another offering set. *)
Lemma zonal_entry_expires_between_calls :
  ∃ results1 p1 results2 p2 catalog,
    Get exampleHash (driftingWorld (8 * Minute)) exampleRequest
      driftingProvider = (Ok results1, p1) ∧
    Get exampleHash (driftingWorld (10 * Minute)) exampleRequest p1 =
      (Ok results2, p2) ∧
    GoCache.Get (cache driftingProvider) InstanceTypesCacheKey (8 * Minute) =
      Some catalog ∧
    GoCache.Get (cache p1) InstanceTypesCacheKey (10 * Minute) =
      Some catalog ∧
    GoCache.Get (cache p1) (zonesCacheKey 7) (10 * Minute) = None ∧
    unavailableOfferings p2 = unavailableOfferings exampleProvider ∧
    offers results1 "A" "z2" "spot" ∧
    ¬ offers results2 "A" "z2" "spot".
Proof.
  do 5 eexists. split; [vm_compute; reflexivity|].
  split; [vm_compute; reflexivity|].
  split; [vm_compute; reflexivity|].
  split; [vm_compute; reflexivity|].
  split; [vm_compute; reflexivity|].
  split; [vm_compute; reflexivity|].
  split; by apply (bool_decide_unpack _).
Qed.

(** * Further properties of the provider *)

(** ** Compression *)

(** X1.  Compressing a record that carries the four nested structures
    keeps what the provider and the offered shape read (the identifier,
    the hypervisor, the usage classes, the accelerator and storage
    descriptors, the default vCPU count, the memory size, the supported
    architectures, the two network limits), drops the FPGA info, and is
    idempotent: the compressed record is complete and compresses to
    itself. *)
Theorem compressInstanceType_idempotent instanceType :
  complete instanceType →
  ∃ compressed,
    compressInstanceType instanceType = Ok compressed ∧
    compressInstanceType compressed = Ok compressed ∧
    complete compressed ∧
    InstanceType compressed = InstanceType instanceType ∧
    Hypervisor compressed = Hypervisor instanceType ∧
    SupportedUsageClasses compressed = SupportedUsageClasses instanceType ∧
    GpuInfo_ compressed = GpuInfo_ instanceType ∧
    InferenceAcceleratorInfo_ compressed =
      InferenceAcceleratorInfo_ instanceType ∧
    InstanceStorageInfo_ compressed = InstanceStorageInfo_ instanceType ∧
    FpgaInfo_ compressed = None ∧
    (DefaultVCpus <$> VCpuInfo_ compressed) =
      (DefaultVCpus <$> VCpuInfo_ instanceType) ∧
    (SizeInMiB <$> MemoryInfo_ compressed) =
      (SizeInMiB <$> MemoryInfo_ instanceType) ∧
    (SupportedArchitectures <$> ProcessorInfo_ compressed) =
      (SupportedArchitectures <$> ProcessorInfo_ instanceType) ∧
    (Ipv4AddressesPerInterface <$> NetworkInfo_ compressed) =
      (Ipv4AddressesPerInterface <$> NetworkInfo_ instanceType) ∧
    (MaximumNetworkInterfaces <$> NetworkInfo_ compressed) =
      (MaximumNetworkInterfaces <$> NetworkInfo_ instanceType).
Proof.
  intros ([v Hv] & [m Hm] & [pr Hpr] & [n Hn]).
  unfold compressInstanceType. rewrite Hv, Hm, Hpr, Hn. simpl.
  eexists. split; [done|]. simpl. unfold complete. simpl.
  split_and!; eauto.
Qed.

Lemma compressInstanceType_idempotent_example :
  ∃ compressed,
    compressInstanceType (exampleType "A" ["spot"]) = Ok compressed ∧
    compressInstanceType compressed = Ok compressed ∧
    complete compressed ∧
    InstanceType compressed = Some "A"%string ∧
    Hypervisor compressed = Some "nitro"%string ∧
    SupportedUsageClasses compressed = [Some "spot"%string] ∧
    GpuInfo_ compressed = None ∧
    InferenceAcceleratorInfo_ compressed = None ∧
    InstanceStorageInfo_ compressed = None ∧
    FpgaInfo_ compressed = None ∧
    (DefaultVCpus <$> VCpuInfo_ compressed) = Some (Some 2) ∧
    (SizeInMiB <$> MemoryInfo_ compressed) = Some (Some 8192) ∧
    (SupportedArchitectures <$> ProcessorInfo_ compressed) =
      Some [Some "x86_64"%string] ∧
    (Ipv4AddressesPerInterface <$> NetworkInfo_ compressed) =
      Some (Some 10) ∧
    (MaximumNetworkInterfaces <$> NetworkInfo_ compressed) = Some (Some 3).
Proof.
  apply (compressInstanceType_idempotent (exampleType "A" ["spot"])).
  apply (bool_decide_unpack _). vm_compute. exact I.
Defined.

(** ** The catalog entry *)

(** X2.  On a miss of the catalog entry, when the listing completes and the
    records that pass the filter are complete, every record of the catalog
    that [getInstanceTypes] returns is stored under its own identifier, is
    complete, has no FPGA info and passes the filter again. *)
Theorem catalog_keyed_by_identifier w provider p :
  GoCache.Get (cache p) InstanceTypesCacheKey (now w) = None →
  failure (DescribeInstanceTypesPages w instanceTypesInput) = None →
  Forall (λ r, filter r = true → complete r) (fetchedInstanceTypes w) →
  ∃ catalog p',
    getInstanceTypes w provider p = (Ok catalog, p') ∧
    ∀ key compressed,
      catalog !! key = Some compressed →
      nameOf compressed = key ∧ complete compressed ∧
      FpgaInfo_ compressed = None ∧ filter compressed = true.
Proof.
  intros Hmiss Hdone Hc. rewrite Forall_forall in Hc.
  destruct (retain_all_Ok (fetchedInstanceTypes w) ∅ Hc) as [catalog Hrun].
  pose proof (getInstanceTypes_miss w provider p Hmiss) as Hget.
  rewrite Hrun, Hdone in Hget.
  eexists catalog, _. split; [exact Hget|].
  intros key c Hl.
  destruct (retain_all_lookup _ _ _ _ _ Hrun Hl) as [Hempty|Hr].
  { by rewrite lookup_empty in Hempty. }
  destruct Hr as (r & Hr & Hn & Hf & Hcomp).
  unfold compressInstanceType in Hcomp.
  destruct (VCpuInfo_ r), (MemoryInfo_ r), (ProcessorInfo_ r),
    (NetworkInfo_ r); simplify_eq/=.
  apply filter_spec in Hf as [_ Hg].
  split_and!; [done| |done|].
  - unfold complete. simpl. split_and!; eauto.
  - by apply filter_spec.
Qed.

Lemma catalog_keyed_by_identifier_example :
  ∃ catalog p',
    getInstanceTypes (exampleWorld 0) exampleRequest exampleProvider =
      (Ok catalog, p') ∧
    ∀ key compressed,
      catalog !! key = Some compressed →
      nameOf compressed = key ∧ complete compressed ∧
      FpgaInfo_ compressed = None ∧ filter compressed = true.
Proof.
  apply (catalog_keyed_by_identifier (exampleWorld 0) exampleRequest
           exampleProvider).
  - reflexivity.
  - reflexivity.
  - apply (bool_decide_unpack _). vm_compute. exact I.
Defined.

Lemma Get_SetDefault_hit {V : Type} (c : GoCache.Cache V) k x t now :
  0 < GoCache.defaultExpiration c → now ≤ t + GoCache.defaultExpiration c →
  GoCache.Get (GoCache.SetDefault c k x t) k now = Some x.
Proof.
  intros Hd Hle. unfold GoCache.Get, GoCache.SetDefault, GoCache.Set_. simpl.
  rewrite lookup_insert_eq. unfold GoCache.Expired, GoCache.DefaultExpiration.
  simpl. destruct (Z.ltb_spec 0 (GoCache.defaultExpiration c)); [|lia].
  destruct (Z.ltb_spec (t + GoCache.defaultExpiration c) now); [lia|].
  by rewrite andb_false_r.
Qed.

Lemma Configured_setCache p k v t : Configured p → Configured (setCache p k v t).
Proof. by intros [? ?]. Qed.

(** X3.  A catalog fetched at some instant is served from the cache, for
    any request and whatever EC2 would answer by then, at every instant up
    to [InstanceTypesAndZonesCacheTTL] later, without a change of the
    provider; at any later instant the entry is missed, so that the listing
    runs again. *)
Theorem catalog_served_until_expiry w provider p :
  Configured p → 0 ≤ now w →
  GoCache.Get (cache p) InstanceTypesCacheKey (now w) = None →
  failure (DescribeInstanceTypesPages w instanceTypesInput) = None →
  Forall (λ r, filter r = true → complete r) (fetchedInstanceTypes w) →
  ∃ catalog p',
    getInstanceTypes w provider p = (Ok catalog, p') ∧
    Configured p' ∧
    (∀ w' provider',
       now w' ≤ now w + InstanceTypesAndZonesCacheTTL →
       getInstanceTypes w' provider' p' = (Ok catalog, p')) ∧
    (∀ w',
       now w + InstanceTypesAndZonesCacheTTL < now w' →
       GoCache.Get (cache p') InstanceTypesCacheKey (now w') = None).
Proof.
  intros Hp H0 Hmiss Hdone Hc. rewrite Forall_forall in Hc.
  destruct (retain_all_Ok (fetchedInstanceTypes w) ∅ Hc) as [catalog Hrun].
  pose proof (getInstanceTypes_miss w provider p Hmiss) as Hget.
  rewrite Hrun, Hdone in Hget.
  eexists catalog, _. split; [exact Hget|].
  destruct Hp as [Hd Hu]. pose proof TTL_positive as [_ Hpos].
  split; [by apply Configured_setCache|]. split.
  - intros w' provider' Hle. apply getInstanceTypes_hit. simpl.
    apply Get_SetDefault_hit; rewrite Hd; done.
  - intros w' Hlt. simpl.
    rewrite Get_SetDefault_eq; rewrite Hd; [|done|lia].
    by rewrite decide_False by lia.
Qed.

Lemma catalog_served_until_expiry_example :
  ∃ catalog p',
    getInstanceTypes (exampleWorld 0) exampleRequest exampleProvider =
      (Ok catalog, p') ∧
    Configured p' ∧
    (∀ w' provider',
       now w' ≤ 0 + InstanceTypesAndZonesCacheTTL →
       getInstanceTypes w' provider' p' = (Ok catalog, p')) ∧
    (∀ w',
       0 + InstanceTypesAndZonesCacheTTL < now w' →
       GoCache.Get (cache p') InstanceTypesCacheKey (now w') = None).
Proof.
  apply (catalog_served_until_expiry (exampleWorld 0) exampleRequest
           exampleProvider).
  - apply Configured_New.
  - reflexivity.
  - reflexivity.
  - reflexivity.
  - apply (bool_decide_unpack _). vm_compute. exact I.
Defined.

(** ** The zonal entries *)

Lemma hexDigit_inj a b :
  0 ≤ a < 16 → 0 ≤ b < 16 → hexDigit a = hexDigit b → a = b.
Proof.
  intros Ha Hb H. unfold hexDigit in H.
  assert (NoDup (String.list_ascii_of_string "0123456789abcdef")) as Hnd.
  { apply (bool_decide_unpack _). vm_compute. exact I. }
  apply NoDup_ListNoDup in Hnd.
  pose proof (proj1 (List.NoDup_nth _ (Ascii.ascii_of_nat 48)) Hnd
                (Z.to_nat a) (Z.to_nat b)) as Hinj.
  assert (Z.to_nat a = Z.to_nat b) as Hab.
  { apply Hinj; [simpl; lia|simpl; lia|exact H]. }
  lia.
Qed.

(** The digits written in front of [acc] determine the number, modulo
    [16 ^ n], and [acc]. *)
Lemma hexDigits_inj n x x' acc acc' :
  hexDigits n x acc = hexDigits n x' acc' →
  x mod 16 ^ Z.of_nat n = x' mod 16 ^ Z.of_nat n ∧ acc = acc'.
Proof.
  revert x x' acc acc'. induction n as [|n IH]; intros x x' acc acc' H.
  - simpl in *. by rewrite !Z.mod_1_r.
  - cbn [hexDigits] in H. apply IH in H as [Hhigh [= Hd ->]].
    split; [|done].
    apply hexDigit_inj in Hd; [|by apply Z.mod_pos_bound..].
    rewrite Nat2Z.inj_succ, Z.pow_succ_r by lia.
    rewrite !(Z.rem_mul_r _ 16) by lia. by rewrite Hd, Hhigh.
Qed.

Lemma zonesCacheKey_inj h h' :
  0 ≤ h < 2 ^ 64 → 0 ≤ h' < 2 ^ 64 →
  zonesCacheKey h = zonesCacheKey h' → h = h'.
Proof.
  intros Hh Hh' Hkey. unfold zonesCacheKey, Sprintf_016x in Hkey.
  apply append_inj_r, hexDigits_inj in Hkey as [Hmod _].
  change (16 ^ Z.of_nat 16) with (2 ^ 64) in Hmod.
  by rewrite !Z.mod_small in Hmod.
Qed.

(** The zonal fetch writes under the request's zonal key only, and what it
    returns depends on the entry under that key only. *)
Lemma getInstanceTypeZones_items Hash w provider p r p1 h k :
  getInstanceTypeZones Hash w provider p = (r, p1) →
  Hash (SubnetSelector provider) = inr h → k ≠ zonesCacheKey h →
  GoCache.items (cache p1) !! k = GoCache.items (cache p) !! k.
Proof.
  unfold getInstanceTypeZones. intros H Hh Hk. rewrite Hh in H.
  destruct (GoCache.Get (cache p) _ (now w)); [by simplify_eq|].
  destruct (SubnetProviderGet w provider); [by simplify_eq|].
  destruct (EachPage _ _ _) as [[m [err|]]| |]; simplify_eq; try done.
  unfold setCache, GoCache.SetDefault, GoCache.Set_. simpl.
  by rewrite lookup_insert_ne.
Qed.

Lemma getInstanceTypeZones_reads_own_entry Hash w provider p q h :
  Hash (SubnetSelector provider) = inr h →
  GoCache.items (cache p) !! zonesCacheKey h =
  GoCache.items (cache q) !! zonesCacheKey h →
  (getInstanceTypeZones Hash w provider p).1 =
  (getInstanceTypeZones Hash w provider q).1.
Proof.
  intros Hh Hitems. unfold getInstanceTypeZones. rewrite Hh.
  rewrite (Get_items (cache p) (cache q)) by done.
  destruct (GoCache.Get (cache q) _ (now w)); [done|].
  destruct (SubnetProviderGet w provider); [done|].
  by destruct (EachPage _ _ _) as [[m [err|]]| |].
Qed.

(** X4.  The zonal key [zones:%016x] tells the 64-bit fingerprints of two
    selectors apart.  Hence a zonal fetch for one request, whatever its
    outcome, leaves the zonal entry of a request with another fingerprint
    as it was, and does not change what a zonal fetch for that request
    returns. *)
Theorem zonal_entries_are_separate Hash w provider provider' p r p1 h h' :
  Hash (SubnetSelector provider) = inr h →
  Hash (SubnetSelector provider') = inr h' →
  0 ≤ h < 2 ^ 64 → 0 ≤ h' < 2 ^ 64 → h ≠ h' →
  getInstanceTypeZones Hash w provider p = (r, p1) →
  zonesCacheKey h ≠ zonesCacheKey h' ∧
  GoCache.items (cache p1) !! zonesCacheKey h' =
    GoCache.items (cache p) !! zonesCacheKey h' ∧
  ∀ w', (getInstanceTypeZones Hash w' provider' p1).1 =
        (getInstanceTypeZones Hash w' provider' p).1.
Proof.
  intros Hh Hh' Hr Hr' Hne Hget.
  assert (zonesCacheKey h ≠ zonesCacheKey h') as Hkey.
  { intros Hk. by apply Hne, zonesCacheKey_inj. }
  assert (GoCache.items (cache p1) !! zonesCacheKey h' =
          GoCache.items (cache p) !! zonesCacheKey h') as Hitems.
  { by eapply getInstanceTypeZones_items. }
  split_and!; [done..|].
  intros w'. by apply getInstanceTypeZones_reads_own_entry with h'.
Qed.

Lemma zonal_entries_are_separate_example :
  zonesCacheKey 8 ≠ zonesCacheKey 7 ∧
  GoCache.items
    (cache (getInstanceTypeZones exampleHash (exampleWorld 0) otherRequest
              exampleProvider1).2) !! zonesCacheKey 7 =
    GoCache.items (cache exampleProvider1) !! zonesCacheKey 7 ∧
  ∀ w', (getInstanceTypeZones exampleHash w' exampleRequest
           (getInstanceTypeZones exampleHash (exampleWorld 0) otherRequest
              exampleProvider1).2).1 =
        (getInstanceTypeZones exampleHash w' exampleRequest
           exampleProvider1).1.
Proof.
  apply (zonal_entries_are_separate exampleHash (exampleWorld 0)
           otherRequest exampleRequest exampleProvider1
           (getInstanceTypeZones exampleHash (exampleWorld 0) otherRequest
              exampleProvider1).1).
  - reflexivity.
  - reflexivity.
  - vm_compute. split; [discriminate|reflexivity].
  - vm_compute. split; [discriminate|reflexivity].
  - discriminate.
  - by destruct (getInstanceTypeZones _ _ _ _).
Defined.

(** ** Failures of the zonal step *)

(** The zonal fetch fails in three ways only, and then leaves the provider
    as it was. *)
Lemma getInstanceTypeZones_Err Hash w provider p e q :
  getInstanceTypeZones Hash w provider p = (Err e, q) →
  q = p ∧
  ((∃ err, Hash (SubnetSelector provider) = inl err ∧
           e = wrapError "failed to hash the subnet selector: " err) ∨
   (∃ h err, Hash (SubnetSelector provider) = inr h ∧
             GoCache.Get (cache p) (zonesCacheKey h) (now w) = None ∧
             SubnetProviderGet w provider = inl err ∧ e = err) ∨
   (∃ h subnets err,
      Hash (SubnetSelector provider) = inr h ∧
      GoCache.Get (cache p) (zonesCacheKey h) (now w) = None ∧
      SubnetProviderGet w provider = inr subnets ∧
      failure (DescribeInstanceTypeOfferingsPages w instanceTypeOfferingsInput)
        = Some err ∧
      e = wrapError "describing instance type zone offerings, " err)).
Proof.
  intros H.
  destruct (Hash (SubnetSelector provider)) as [err|h] eqn:Hh.
  { unfold getInstanceTypeZones in H. rewrite Hh in H. simplify_eq.
    split; [done|]. left. eauto. }
  destruct (GoCache.Get (cache p) (zonesCacheKey h) (now w)) as [v|] eqn:Hc.
  { unfold getInstanceTypeZones in H. rewrite Hh, Hc in H.
    by destruct v; simplify_eq. }
  destruct (SubnetProviderGet w provider) as [err|subnets] eqn:Hs.
  { unfold getInstanceTypeZones in H. rewrite Hh, Hc, Hs in H. simplify_eq.
    split; [done|]. right. left. eauto 10. }
  rewrite (getInstanceTypeZones_miss Hash w provider p h subnets) in H
    by done.
  destruct (failure _) as [err|] eqn:Hf; simplify_eq.
  split; [done|]. right. right. eauto 10.
Qed.

(** X5.  When the catalog is fetched and the zonal step then fails, [Get]
    returns the error of the zonal step: the wrapped error of the hash, the
    error of the subnet provider as it is, or the wrapped error of the
    listing of zonal offerings.  The catalog stays cached: until
    [InstanceTypesAndZonesCacheTTL] after the failed call, the catalog is
    read from the cache without a new listing. *)
Theorem catalog_kept_when_zones_fail Hash w provider p e q :
  Configured p →
  GoCache.Get (cache p) InstanceTypesCacheKey (now w) = None →
  failure (DescribeInstanceTypesPages w instanceTypesInput) = None →
  Forall (λ r, filter r = true → complete r) (fetchedInstanceTypes w) →
  Get Hash w provider p = (Err e, q) →
  ∃ catalog,
    getInstanceTypes w provider p = (Ok catalog, q) ∧
    (∀ w' provider',
       now w' ≤ now w + InstanceTypesAndZonesCacheTTL →
       getInstanceTypes w' provider' q = (Ok catalog, q)) ∧
    ((∃ err, Hash (SubnetSelector provider) = inl err ∧
             e = wrapError "failed to hash the subnet selector: " err) ∨
     (∃ h err, Hash (SubnetSelector provider) = inr h ∧
               SubnetProviderGet w provider = inl err ∧ e = err) ∨
     (∃ h err,
        Hash (SubnetSelector provider) = inr h ∧
        failure
          (DescribeInstanceTypeOfferingsPages w instanceTypeOfferingsInput)
          = Some err ∧
        e = wrapError "describing instance type zone offerings, " err)).
Proof.
  intros [Hd _] Hmiss Hdone Hc HG. rewrite Forall_forall in Hc.
  destruct (retain_all_Ok (fetchedInstanceTypes w) ∅ Hc) as [catalog Hrun].
  pose proof (getInstanceTypes_miss w provider p Hmiss) as Hget.
  rewrite Hrun, Hdone in Hget.
  unfold Get, bindM in HG. rewrite Hget in HG.
  destruct (getInstanceTypeZones Hash w provider _) as [[zs|e'|] q'] eqn:Hz;
    [|simplify_eq|done].
  { rewrite Get_loop in HG. by destruct (decide _) in HG. }
  apply getInstanceTypeZones_Err in Hz as [-> Hcases].
  exists catalog. split; [done|]. split.
  - intros w' provider' Hle. apply getInstanceTypes_hit. simpl.
    pose proof TTL_positive as [_ Hpos].
    apply Get_SetDefault_hit; rewrite Hd; done.
  - destruct Hcases as [(err & ? & ?)|[(h & err & ? & _ & ? & ?)
                                       |(h & s & err & ? & _ & _ & ? & ?)]].
    + left. eauto.
    + right. left. eauto 10.
    + right. right. eauto 10.
Qed.

Lemma catalog_kept_when_zones_fail_example :
  ∃ catalog,
    getInstanceTypes failingZonesWorld exampleRequest exampleProvider =
      (Ok catalog, exampleProvider1) ∧
    (∀ w' provider',
       now w' ≤ 0 + InstanceTypesAndZonesCacheTTL →
       getInstanceTypes w' provider' exampleProvider1 =
       (Ok catalog, exampleProvider1)) ∧
    ((∃ err, exampleHash (SubnetSelector exampleRequest) = inl err ∧
             wrapError "describing instance type zone offerings, " throttled
             = wrapError "failed to hash the subnet selector: " err) ∨
     (∃ h err, exampleHash (SubnetSelector exampleRequest) = inr h ∧
               SubnetProviderGet failingZonesWorld exampleRequest = inl err ∧
               wrapError "describing instance type zone offerings, "
                 throttled = err) ∨
     (∃ h err,
        exampleHash (SubnetSelector exampleRequest) = inr h ∧
        failure
          (DescribeInstanceTypeOfferingsPages failingZonesWorld
             instanceTypeOfferingsInput) = Some err ∧
        wrapError "describing instance type zone offerings, " throttled =
        wrapError "describing instance type zone offerings, " err)).
Proof.
  apply (catalog_kept_when_zones_fail exampleHash failingZonesWorld
           exampleRequest exampleProvider).
  - apply Configured_New.
  - reflexivity.
  - reflexivity.
  - apply (bool_decide_unpack _). vm_compute. exact I.
  - vm_compute. reflexivity.
Defined.

(** ** Reports and [Get] *)

(** The fetches read and write the first cache only. *)
Lemma getInstanceTypes_frame w provider p u :
  getInstanceTypes w provider (withUnavailable p u) =
  ((getInstanceTypes w provider p).1,
   withUnavailable (getInstanceTypes w provider p).2 u).
Proof.
  unfold getInstanceTypes. simpl.
  destruct (GoCache.Get (cache p) InstanceTypesCacheKey (now w)); [done|].
  by destruct (EachPage _ _ _) as [[m [err|]]| |].
Qed.

Lemma getInstanceTypeZones_frame Hash w provider p u :
  getInstanceTypeZones Hash w provider (withUnavailable p u) =
  ((getInstanceTypeZones Hash w provider p).1,
   withUnavailable (getInstanceTypeZones Hash w provider p).2 u).
Proof.
  unfold getInstanceTypeZones. simpl.
  destruct (Hash (SubnetSelector provider)); [done|].
  destruct (GoCache.Get (cache p) _ (now w)); [done|].
  destruct (SubnetProviderGet w provider); [done|].
  by destruct (EachPage _ _ _) as [[m [err|]]| |].
Qed.

(** A call of [Get] that returns a list also does so with any other cache
    of unavailable offerings: the same shapes in the same order, each with
    the offerings synthesized against that cache. *)
Lemma Get_frame Hash w provider p results p' u :
  Get Hash w provider p = (Ok results, p') →
  ∃ instanceTypes instanceTypeZones,
    results =
      offered w provider instanceTypeZones p' <$>
        (rangeMap (rangeInstanceTypes w) instanceTypes).*2 ∧
    Get Hash w provider (withUnavailable p u) =
      (Ok (offered w provider instanceTypeZones (withUnavailable p' u) <$>
             (rangeMap (rangeInstanceTypes w) instanceTypes).*2),
       withUnavailable p' u).
Proof.
  intros HG. apply Get_Ok_inv in HG as (its & p1 & zs & H1 & H2 & Hloop).
  rewrite Get_loop in Hloop.
  destruct (decide (Exists _ _)) as [?|Hnamed] in Hloop; [done|].
  injection Hloop as <-. exists its, zs. split; [done|].
  unfold Get, bindM. rewrite getInstanceTypes_frame, H1. simpl.
  rewrite getInstanceTypeZones_frame, H2. simpl.
  rewrite Get_loop. by rewrite decide_False.
Qed.

(** X6.  A report followed by a [Get] made within
    [UnfulfillableCapacityErrorCacheTTL] of it: compared with the same
    [Get] without the report, the call returns the same shapes with the
    same prices in the same order, offers nothing that was not offered, and
    does not offer the reported (shape, zone, capacity type). *)
Theorem report_only_removes_offerings Hash w provider p code overrides
    capacityType t results p' :
  Configured p → 0 ≤ t →
  now w ≤ t + UnfulfillableCapacityErrorCacheTTL →
  Get Hash w provider p = (Ok results, p') →
  ∃ results',
    Get Hash w provider
      (reportAt (fleetError code overrides) capacityType p t) =
      (Ok results',
       reportAt (fleetError code overrides) capacityType p' t) ∧
    Info <$> results' = Info <$> results ∧
    Price <$> results' = Price <$> results ∧
    (∀ name zone class,
       offers results' name zone class → offers results name zone class) ∧
    ¬ offers results'
        (StringValue (OverridesInstanceType overrides))
        (StringValue (OverridesAvailabilityZone overrides)) capacityType.
Proof.
  intros Hp H0 Hle HG.
  pose proof (Get_unavailableOfferings _ _ _ _ _ _ HG) as Hun.
  set (key := UnavailableOfferingsCacheKey
                (StringValue (OverridesInstanceType overrides))
                (StringValue (OverridesAvailabilityZone overrides))
                capacityType).
  set (u := GoCache.SetDefault (unavailableOfferings p) key tt t).
  assert (reportAt (fleetError code overrides) capacityType p t =
          withUnavailable p u) as Hq by done.
  assert (reportAt (fleetError code overrides) capacityType p' t =
          withUnavailable p' u) as Hq'.
  { unfold reportAt, CacheUnavailable, withUnavailable, u, key. simpl.
    by rewrite Hun. }
  destruct (Get_frame _ _ _ _ _ _ u HG) as (its & zs & -> & HG').
  eexists. split; [by rewrite Hq, Hq'|].
  split; [by rewrite <- !list_fmap_compose|].
  split; [by rewrite <- !list_fmap_compose|].
  destruct Hp as [_ Hd]. pose proof TTL_positive as [Hpos _].
  assert (∀ name zone class,
            key = UnavailableOfferingsCacheKey name zone class →
            isUnavailable (withUnavailable p' u) name zone class (now w) =
            true) as Hreported.
  { intros name zone class Hkey. unfold isUnavailable, withUnavailable, u.
    simpl. rewrite <- Hkey.
    by rewrite Get_SetDefault_hit by (by rewrite Hd). }
  assert (∀ name zone class,
            key ≠ UnavailableOfferingsCacheKey name zone class →
            isUnavailable (withUnavailable p' u) name zone class (now w) =
            isUnavailable p' name zone class (now w)) as Hother.
  { intros name zone class Hne. unfold isUnavailable, withUnavailable, u.
    simpl. by rewrite Get_SetDefault_ne, Hun by done. }
  split.
  - intros name zone class. rewrite !offers_offered.
    intros (i & Hi & Hn & Hz & Hc & Hav). exists i.
    split_and!; try done.
    destruct (decide (key = UnavailableOfferingsCacheKey name zone class))
      as [Hkey|Hkey].
    + by rewrite (Hreported _ _ _ Hkey) in Hav.
    + by rewrite <- (Hother _ _ _ Hkey).
  - rewrite offers_offered. intros (i & _ & _ & _ & _ & Hav).
    by rewrite (Hreported _ _ _ eq_refl) in Hav.
Qed.

Lemma report_only_removes_offerings_example :
  ∃ results',
    Get exampleHash (exampleWorld 0) exampleRequest
      (reportAt exampleFleetError "spot" exampleProvider 0) =
      (Ok results', reportAt exampleFleetError "spot" exampleProvider2 0) ∧
    Info <$> results' = Info <$> exampleResults ∧
    Price <$> results' = Price <$> exampleResults ∧
    (∀ name zone class,
       offers results' name zone class →
       offers exampleResults name zone class) ∧
    ¬ offers results' "A" "z1" "spot".
Proof.
  apply (report_only_removes_offerings exampleHash (exampleWorld 0)
           exampleRequest exampleProvider
           (Some "InsufficientInstanceCapacity"%string) exampleOverrides
           "spot" 0 exampleResults exampleProvider2).
  - apply Configured_New.
  - reflexivity.
  - vm_compute. discriminate.
  - vm_compute. reflexivity.
Defined.

(** ** The list [Get] returns *)

Lemma rangeMap_keys {V : Type} (o : RangeOrder) (m : gmap string V) :
  (rangeMap o m).*1 = o (dom m).
Proof.
  unfold rangeMap.
  assert (∀ k, k ∈ o (dom m) → is_Some (m !! k)) as Hdom.
  { intros k Hk%elem_of_range. by apply elem_of_dom. }
  induction (o (dom m)) as [|k l IH]; [done|]. simpl.
  destruct (Hdom k) as [v Hv]; [by left|]. rewrite Hv. simpl. f_equal.
  apply IH. intros k' Hk'. apply Hdom. by right.
Qed.

(** A loop over a map visits each entry once. *)
Lemma rangeMap_Permutation {V : Type} (o : RangeOrder) (m : gmap string V) :
  rangeMap o m ≡ₚ map_to_list m.
Proof.
  apply NoDup_Permutation.
  - apply (NoDup_fmap_1 fst). rewrite rangeMap_keys. apply NoDup_range.
  - apply NoDup_map_to_list.
  - intros [k v]. by rewrite elem_of_rangeMap, elem_of_map_to_list.
Qed.

(** X7.  When the synthesis does not panic, [Get] returns one offered shape
    for each entry of the catalog, no more and no fewer: the shapes it
    returns are, up to their order, the records of the catalog, each offered
    with the request it was asked for. *)
Theorem Get_offers_each_shape_once Hash w provider p instanceTypes p1
    instanceTypeZones p2 :
  getInstanceTypes w provider p = (Ok instanceTypes, p1) →
  getInstanceTypeZones Hash w provider p1 = (Ok instanceTypeZones, p2) →
  map_Forall (λ _ i, ¬ unnamedWithOfferings (zonesOf instanceTypeZones i) i)
    instanceTypes →
  ∃ results,
    Get Hash w provider p = (Ok results, p2) ∧
    length results = size instanceTypes ∧
    Info <$> results ≡ₚ (map_to_list instanceTypes).*2 ∧
    Forall (λ o, Provider o = provider) results.
Proof.
  intros H1 H2 Hnamed. eexists. split; [by eapply Get_synthesized|].
  split; [|split].
  - rewrite length_fmap, length_fmap, (rangeMap_Permutation _ instanceTypes).
    apply length_map_to_list.
  - assert (∀ l : list InstanceTypeInfo,
              Info <$> (offered w provider instanceTypeZones p2 <$> l) = l)
      as ->.
    { intros l. induction l as [|i l IH]; [done|]. cbn. by rewrite IH. }
    by rewrite rangeMap_Permutation.
  - apply Forall_fmap, Forall_forall. by intros i _.
Qed.

Lemma Get_offers_each_shape_once_example :
  ∃ results,
    Get exampleHash (exampleWorld 0) exampleRequest exampleProvider =
      (Ok results, exampleProvider2) ∧
    length results = size exampleCatalog ∧
    Info <$> results ≡ₚ (map_to_list exampleCatalog).*2 ∧
    Forall (λ o, Provider o = exampleRequest) results.
Proof.
  apply (Get_offers_each_shape_once exampleHash (exampleWorld 0)
           exampleRequest exampleProvider exampleCatalog exampleProvider1
           exampleZones exampleProvider2).
  - vm_compute. reflexivity.
  - vm_compute. reflexivity.
  - apply (bool_decide_unpack _). vm_compute. exact I.
Defined.

(** X8.  When the zonal entry is missed and fetched, every offering that
    [Get] returns lies in the zone of one of the subnets resolved for the
    request, the forced offering included. *)
Theorem Get_offers_only_subnet_zones Hash w provider p instanceTypes p1 h
    subnets :
  getInstanceTypes w provider p = (Ok instanceTypes, p1) →
  Hash (SubnetSelector provider) = inr h →
  GoCache.Get (cache p1) (zonesCacheKey h) (now w) = None →
  SubnetProviderGet w provider = inr subnets →
  failure (DescribeInstanceTypeOfferingsPages w instanceTypeOfferingsInput)
    = None →
  (Get Hash w provider p).1 ≠ Panic →
  ∃ results p2,
    Get Hash w provider p = (Ok results, p2) ∧
    ∀ name zone capacityType,
      offers results name zone capacityType →
      ∃ subnet, subnet ∈ subnets ∧
                StringValue (AvailabilityZone subnet) = zone.
Proof.
  intros H1 Hh Hmiss Hs Hdone Hfree.
  pose proof (getInstanceTypeZones_miss Hash w provider p1 h subnets
                Hh Hmiss Hs) as H2.
  rewrite Hdone in H2. simpl in H2.
  rewrite (Get_fetched _ _ _ _ _ _ _ _ H1 H2), Get_loop in Hfree |- *.
  destruct (decide (Exists _ _)) as [?|_]; [done|].
  eexists _, _. split; [done|].
  intros name zone capacityType (i & _ & Hn & Hz & _)%offers_offered.
  unfold zonesOf in Hz. rewrite Hn, forceOffering_lookup in Hz.
  apply elem_of_subnetZones. case_decide as Hforce.
  - destruct Hforce as (_ & _ & Hd). simpl in Hz.
    by apply elem_of_singleton in Hz as ->.
  - destruct (foldl _ _ _ !! name) as [zs|] eqn:Hacc; simpl in Hz; [|done].
    destruct (proj1 (accumulate_lookup (subnetZones subnets)
                       (fetchedOfferings w) ∅ name zone))
      as [(zs' & Hempty & _)|[? _]]; [by eauto| |done].
    by rewrite lookup_empty in Hempty.
Qed.

Lemma Get_offers_only_subnet_zones_example :
  ∃ results p2,
    Get exampleHash overrideWorld exampleRequest exampleProvider =
      (Ok results, p2) ∧
    ∀ name zone capacityType,
      offers results name zone capacityType →
      ∃ subnet, subnet ∈ [exampleSubnet "z1"; exampleSubnet "us-east-1d"] ∧
                StringValue (AvailabilityZone subnet) = zone.
Proof.
  apply (Get_offers_only_subnet_zones exampleHash overrideWorld
           exampleRequest exampleProvider exampleCatalog exampleProvider1 7).
  - vm_compute. reflexivity.
  - reflexivity.
  - reflexivity.
  - reflexivity.
  - reflexivity.
  - vm_compute. discriminate.
Defined.

(** ** Reports *)

Lemma replay_snoc log r p :
  replay (log ++ [r]) p =
  reportAt (fleetError (reportCode r) (reportOverrides r)) (reportClass r)
    (replay log p) (reportInstant r).
Proof. unfold replay. by rewrite foldl_app. Qed.

Lemma Configured_replay log p : Configured p → Configured (replay log p).
Proof.
  intros Hp. induction log as [|r log IH] using rev_ind; [done|].
  rewrite replay_snoc. by apply Configured_reportAt.
Qed.

Lemma lastReport_snoc key log r :
  lastReport key (log ++ [r]) =
  if decide (reportKey r = key) then Some r else lastReport key log.
Proof.
  unfold lastReport. rewrite filter_app, filter_cons, filter_nil.
  case_decide.
  - by rewrite last_snoc.
  - by rewrite app_nil_r.
Qed.

(** X9.  After any sequence of reports, made in any order of their
    instants, the availability of an offering is that of the last report
    that bears its key: the offering is unavailable up to
    [UnfulfillableCapacityErrorCacheTTL] after the instant of that report
    and not later, whatever was reported before it or for other keys since;
    an offering whose key no report bears is as available as before.  The
    reports leave the cache of instance types and zones as it was. *)
Theorem last_report_decides log p name zone capacityType now :
  Configured p →
  Forall (λ r, 0 ≤ reportInstant r) log →
  isUnavailable (replay log p) name zone capacityType now =
    match lastReport (UnavailableOfferingsCacheKey name zone capacityType)
            log with
    | Some r =>
        bool_decide
          (now ≤ reportInstant r + UnfulfillableCapacityErrorCacheTTL)
    | None => isUnavailable p name zone capacityType now
    end ∧
  cache (replay log p) = cache p.
Proof.
  intros Hp. induction log as [|r log IH] using rev_ind; intros Hlog; [done|].
  apply Forall_app in Hlog as [Hlog Hr].
  apply Forall_inv in Hr. simpl in Hr.
  destruct (IH Hlog) as [IHu IHc]. rewrite replay_snoc, lastReport_snoc.
  split; [|exact IHc].
  case_decide as Hkey.
  - pose proof (Configured_replay log p Hp) as [_ Hd].
    unfold isUnavailable, reportAt, CacheUnavailable. simpl.
    unfold reportKey in Hkey. rewrite Hkey.
    rewrite Get_SetDefault_eq; rewrite Hd.
    + by case_decide; case_bool_decide.
    + apply TTL_positive.
    + pose proof TTL_positive. lia.
  - rewrite isUnavailable_reportAt_other by done. exact IHu.
Qed.

Lemma last_report_decides_example :
  isUnavailable (replay exampleLog exampleProvider) "A" "z1" "spot"
    (5 * Minute) =
    match lastReport (UnavailableOfferingsCacheKey "A" "z1" "spot")
            exampleLog with
    | Some r =>
        bool_decide
          (5 * Minute ≤
           reportInstant r + UnfulfillableCapacityErrorCacheTTL)
    | None => isUnavailable exampleProvider "A" "z1" "spot" (5 * Minute)
    end ∧
  cache (replay exampleLog exampleProvider) = cache exampleProvider.
Proof.
  apply (last_report_decides exampleLog exampleProvider "A" "z1" "spot"
           (5 * Minute)).
  - split; reflexivity.
  - apply (bool_decide_unpack _). vm_compute. exact I.
Defined.

(** In that example the spot offering of [A] in [z1], last reported after
    three minutes, is unavailable after five minutes and again available
    after seven; its on-demand offering, reported once at the start, is
    available again after five minutes; the spot offering in [z2] was never
    reported. *)
Lemma replay_example :
  isUnavailable (replay exampleLog exampleProvider) "A" "z1" "spot"
    (5 * Minute) = true ∧
  isUnavailable (replay exampleLog exampleProvider) "A" "z1" "spot"
    (7 * Minute) = false ∧
  isUnavailable (replay exampleLog exampleProvider) "A" "z1" "on-demand"
    (2 * Minute) = true ∧
  isUnavailable (replay exampleLog exampleProvider) "A" "z1" "on-demand"
    (5 * Minute) = false ∧
  isUnavailable (replay exampleLog exampleProvider) "A" "z2" "spot"
    (2 * Minute) = false.
Proof. vm_compute. done. Qed.

(** X10.  Reports of two offerings with different keys commute; and a
    second report of an offering replaces the first one altogether, also
    when it bears the earlier instant. *)
Theorem reports_compose code1 overrides1 class1 t1 code2 overrides2 class2
    t2 p :
  UnavailableOfferingsCacheKey
    (StringValue (OverridesInstanceType overrides1))
    (StringValue (OverridesAvailabilityZone overrides1)) class1 ≠
  UnavailableOfferingsCacheKey
    (StringValue (OverridesInstanceType overrides2))
    (StringValue (OverridesAvailabilityZone overrides2)) class2 →
  reportAt (fleetError code1 overrides1) class1
    (reportAt (fleetError code2 overrides2) class2 p t2) t1 =
  reportAt (fleetError code2 overrides2) class2
    (reportAt (fleetError code1 overrides1) class1 p t1) t2 ∧
  reportAt (fleetError code2 overrides1) class1
    (reportAt (fleetError code1 overrides1) class1 p t1) t2 =
  reportAt (fleetError code2 overrides1) class1 p t2.
Proof.
  intros Hne.
  unfold reportAt, CacheUnavailable, GoCache.SetDefault, GoCache.Set_.
  simpl. split.
  - do 2 f_equal. by apply insert_insert_ne.
  - do 2 f_equal. by rewrite insert_insert_eq.
Qed.

Lemma reports_compose_example :
  reportAt (fleetError None exampleOverrides) "spot"
    (reportAt (fleetError None collisionOverrides) "x" exampleProvider 5) 3 =
  reportAt (fleetError None collisionOverrides) "x"
    (reportAt (fleetError None exampleOverrides) "spot" exampleProvider 3)
    5 ∧
  reportAt (fleetError None exampleOverrides) "spot"
    (reportAt (fleetError None exampleOverrides) "spot" exampleProvider 3) 5 =
  reportAt (fleetError None exampleOverrides) "spot" exampleProvider 5.
Proof.
  apply (reports_compose None exampleOverrides "spot" 3 None
           collisionOverrides "x" 5 exampleProvider).
  vm_compute. discriminate.
Defined.

(** X11.  For instance types and capacity types in which the separator [:]
    does not occur, the key [capacityType:instanceType:zone] determines the
    three of them; so a report leaves the availability of every other
    offering as it was, those of other shapes included. *)
Theorem report_leaves_other_offerings code overrides reported p t name zone
    capacityType now :
  noColon reported = true → noColon capacityType = true →
  noColon (StringValue (OverridesInstanceType overrides)) = true →
  noColon name = true →
  (name, zone, capacityType) ≠
    (StringValue (OverridesInstanceType overrides),
     StringValue (OverridesAvailabilityZone overrides), reported) →
  (∀ name' zone',
     UnavailableOfferingsCacheKey name zone capacityType =
     UnavailableOfferingsCacheKey name' zone' reported →
     noColon name' = true →
     name = name' ∧ zone = zone' ∧ capacityType = reported) ∧
  isUnavailable (reportAt (fleetError code overrides) reported p t)
    name zone capacityType now =
  isUnavailable p name zone capacityType now.
Proof.
  intros Hr Hc Hi Hn Hne.
  assert (∀ name' zone',
            UnavailableOfferingsCacheKey name zone capacityType =
            UnavailableOfferingsCacheKey name' zone' reported →
            noColon name' = true →
            name = name' ∧ zone = zone' ∧ capacityType = reported) as Hinj.
  { intros name' zone' Hkey Hn'. unfold UnavailableOfferingsCacheKey in Hkey.
    apply append_colon_inj in Hkey as [-> Hrest]; [|done..].
    apply append_colon_inj in Hrest as [-> ->]; done. }
  split; [exact Hinj|].
  apply isUnavailable_reportAt_other. intros Hkey.
  destruct (Hinj _ _ (eq_sym Hkey) Hi) as (-> & -> & ->). by apply Hne.
Qed.

Lemma report_leaves_other_offerings_example :
  (∀ name' zone',
     UnavailableOfferingsCacheKey "B" "z1" "spot" =
     UnavailableOfferingsCacheKey name' zone' "spot" →
     noColon name' = true →
     "B"%string = name' ∧ "z1"%string = zone' ∧ "spot"%string = "spot"%string)
  ∧
  isUnavailable
    (reportAt (fleetError None exampleOverrides) "spot" exampleProvider 0)
    "B" "z1" "spot" 0 =
  isUnavailable exampleProvider "B" "z1" "spot" 0.
Proof.
  apply (report_leaves_other_offerings None exampleOverrides "spot"
           exampleProvider 0 "B" "z1" "spot" 0).
  - reflexivity.
  - reflexivity.
  - reflexivity.
  - reflexivity.
  - vm_compute. discriminate.
Defined.

(** ** The number of offerings *)

Lemma length_bind_le {A B : Type} (f : A → list B) (l : list A) (k : nat) :
  (∀ x, x ∈ l → (length (f x) ≤ k)%nat) →
  (length (l ≫= f) ≤ length l * k)%nat.
Proof.
  induction l as [|x l IH]; intros Hf; [done|].
  rewrite bind_cons, length_app. simpl.
  pose proof (Hf x (list_elem_of_here _ _)).
  assert (length (l ≫= f) ≤ length l * k)%nat.
  { apply IH. intros y Hy. apply Hf. by right. }
  lia.
Qed.

Lemma length_bind_const {A B : Type} (f : A → list B) (l : list A) (k : nat) :
  (∀ x, x ∈ l → length (f x) = k) →
  length (l ≫= f) = (length l * k)%nat.
Proof.
  induction l as [|x l IH]; intros Hf; [done|].
  rewrite bind_cons, length_app. simpl.
  rewrite (Hf x) by left. rewrite IH; [done|].
  intros y Hy. apply Hf. by right.
Qed.

Lemma length_range (o : RangeOrder) (s : gset string) : length (o s) = size s.
Proof. by rewrite (range_perm o s). Qed.

(** X12.  For a shape that carries its identifier, the synthesizer returns
    at most as many offerings as there are pairs of a zone and a distinct
    usage class, and exactly that many when none of them is unavailable. *)
Theorem createOfferings_count now (rz : RangeOrder) (rc : string → RangeOrder)
    instanceType zones p name :
  InstanceType instanceType = Some name →
  ∃ offerings,
    createOfferings now rz rc instanceType zones p = Ok offerings ∧
    (length offerings ≤ size zones * size (usageClasses instanceType))%nat ∧
    ((∀ zone capacityType,
        zone ∈ zones → capacityType ∈ usageClasses instanceType →
        isUnavailable p name zone capacityType now = false) →
     length offerings =
       (size zones * size (usageClasses instanceType))%nat).
Proof.
  intros Hname. eexists. split; [by apply createOfferings_named|]. split.
  - rewrite <- (length_range rz zones). apply length_bind_le.
    intros zone _. rewrite <- (length_range (rc zone)).
    pose proof (length_bind_le (offeringIfAvailable p name now zone)
                  (rc zone (usageClasses instanceType)) 1) as Hle.
    rewrite Nat.mul_1_r in Hle. apply Hle.
    intros c _. unfold offeringIfAvailable.
    destruct (isUnavailable _ _ _ _ _); simpl; lia.
  - intros Hav. rewrite <- (length_range rz zones). apply length_bind_const.
    intros zone Hz%elem_of_range.
    rewrite <- (length_range (rc zone)).
    pose proof (length_bind_const (offeringIfAvailable p name now zone)
                  (rc zone (usageClasses instanceType)) 1) as Heq.
    rewrite Nat.mul_1_r in Heq. apply Heq.
    intros c Hc%elem_of_range. unfold offeringIfAvailable.
    by rewrite Hav.
Qed.

Lemma createOfferings_count_example :
  ∃ offerings,
    createOfferings 0 rangeReversed (λ _, rangeElements)
      (exampleType "A" ["on-demand"; "spot"; "spot"]) {["z1"; "z2"]}
      exampleProvider = Ok offerings ∧
    (length offerings ≤
     size ({["z1"; "z2"]} : gset string) *
     size (usageClasses (exampleType "A" ["on-demand"; "spot"; "spot"])))%nat
    ∧
    ((∀ zone capacityType,
        zone ∈ ({["z1"; "z2"]} : gset string) →
        capacityType ∈
          usageClasses (exampleType "A" ["on-demand"; "spot"; "spot"]) →
        isUnavailable exampleProvider "A" zone capacityType 0 = false) →
     length offerings =
       (size ({["z1"; "z2"]} : gset string) *
        size (usageClasses (exampleType "A" ["on-demand"; "spot"; "spot"])))
       %nat).
Proof.
  apply (createOfferings_count 0 rangeReversed (λ _, rangeElements)
           (exampleType "A" ["on-demand"; "spot"; "spot"]) {["z1"; "z2"]}
           exampleProvider "A").
  reflexivity.
Defined.

(** ** Iteration orders and pages *)

Lemma getInstanceTypes_sameAnswers w w' provider p :
  sameAnswers w w' →
  getInstanceTypes w provider p = getInstanceTypes w' provider p.
Proof.
  intros (Hnow & Hpages & _). unfold getInstanceTypes.
  by rewrite Hnow, Hpages.
Qed.

Lemma getInstanceTypeZones_sameAnswers Hash w w' provider p :
  sameAnswers w w' →
  getInstanceTypeZones Hash w provider p =
  getInstanceTypeZones Hash w' provider p.
Proof.
  intros (Hnow & _ & Hpages & Hsubnets & _). unfold getInstanceTypeZones.
  by rewrite Hnow, Hpages, Hsubnets.
Qed.

(** X13.  The orders in which the [range] loops visit the catalog, the
    zones and the usage classes change the order of what [Get] returns and
    nothing else: with the same clock and the same answers of the
    collaborators, [Get] returns a list under one order exactly if it does
    under another, it leaves the provider in the same state, and the two
    lists hold the same shapes, with the same prices and, up to their
    order, the same offerings. *)
Theorem Get_independent_of_range_order Hash w w' provider p results p' :
  sameAnswers w w' →
  Get Hash w provider p = (Ok results, p') →
  ∃ results',
    Get Hash w' provider p = (Ok results', p') ∧
    Info <$> results' ≡ₚ Info <$> results ∧
    (∀ o, o ∈ results →
       ∃ o', o' ∈ results' ∧ Info o' = Info o ∧ Price o' = Price o ∧
             Provider o' = Provider o ∧ Offerings o' ≡ₚ Offerings o) ∧
    (∀ name zone capacityType,
       offers results' name zone capacityType ↔
       offers results name zone capacityType).
Proof.
  intros Hsame HG.
  apply Get_Ok_inv in HG as (its & p1 & zs & H1 & H2 & Hloop).
  rewrite Get_loop in Hloop.
  destruct (decide (Exists _ _)) as [?|Hnamed] in Hloop; [done|].
  injection Hloop as <-.
  rewrite (getInstanceTypes_sameAnswers w w') in H1 by done.
  rewrite (getInstanceTypeZones_sameAnswers Hash w w') in H2 by done.
  destruct Hsame as (Hnow & _ & _ & _ & Hprice).
  assert (∀ i, i ∈ (rangeMap (rangeInstanceTypes w') its).*2 ↔
               i ∈ (rangeMap (rangeInstanceTypes w) its).*2) as Hperm.
  { intros i. by rewrite !elem_of_rangeMap_values. }
  assert (∀ l : list InstanceTypeInfo,
            Info <$> (offered w provider zs p' <$> l) = l) as Hinfo.
  { intros l. induction l as [|i l IH]; [done|]. cbn. by rewrite IH. }
  assert (∀ l : list InstanceTypeInfo,
            Info <$> (offered w' provider zs p' <$> l) = l) as Hinfo'.
  { intros l. induction l as [|i l IH]; [done|]. cbn. by rewrite IH. }
  eexists. split.
  { rewrite (Get_fetched _ _ _ _ _ _ _ _ H1 H2), Get_loop.
    rewrite decide_False; [done|].
    rewrite Exists_exists. intros (i & Hi & Hu). apply Hnamed.
    apply Exists_exists. exists i. split; [by apply Hperm|done]. }
  split_and!.
  - rewrite Hinfo, Hinfo'. by rewrite !rangeMap_Permutation.
  - intros o (i & -> & Hi)%list_elem_of_fmap.
    exists (offered w' provider zs p' i). split_and!.
    + apply list_elem_of_fmap. exists i. split; [done|]. by apply Hperm.
    + done.
    + simpl. unfold priceOf. by rewrite Hprice.
    + done.
    + simpl. apply NoDup_Permutation; [apply NoDup_synthesized..|].
      intros x. rewrite !elem_of_synthesized. by rewrite Hnow.
  - intros name zone capacityType. rewrite !offers_offered.
    split; intros (i & Hi & Hrest); exists i;
      (split; [by apply Hperm|]); [by rewrite Hnow|by rewrite <- Hnow].
Qed.

Lemma Get_independent_of_range_order_example :
  ∃ results',
    Get exampleHash reorderedWorld exampleRequest exampleProvider =
      (Ok results', exampleProvider2) ∧
    Info <$> results' ≡ₚ Info <$> exampleResults ∧
    (∀ o, o ∈ exampleResults →
       ∃ o', o' ∈ results' ∧ Info o' = Info o ∧ Price o' = Price o ∧
             Provider o' = Provider o ∧ Offerings o' ≡ₚ Offerings o) ∧
    (∀ name zone capacityType,
       offers results' name zone capacityType ↔
       offers exampleResults name zone capacityType).
Proof.
  apply (Get_independent_of_range_order exampleHash (exampleWorld 0)
           reorderedWorld exampleRequest exampleProvider exampleResults
           exampleProvider2).
  - repeat split; reflexivity.
  - vm_compute. reflexivity.
Defined.

(** X14.  How a listing is cut into pages does not matter: on a miss, two
    listings that deliver the same records in the same order and end alike
    make [getInstanceTypes] return the same catalog and store the same
    entry, and likewise for [getInstanceTypeZones] and the zonal
    offerings. *)
Theorem fetches_ignore_page_boundaries Hash w w' provider p h subnets :
  now w = now w' →
  GoCache.Get (cache p) InstanceTypesCacheKey (now w) = None →
  fetchedInstanceTypes w = fetchedInstanceTypes w' →
  failure (DescribeInstanceTypesPages w instanceTypesInput) =
    failure (DescribeInstanceTypesPages w' instanceTypesInput) →
  Hash (SubnetSelector provider) = inr h →
  GoCache.Get (cache p) (zonesCacheKey h) (now w) = None →
  SubnetProviderGet w provider = inr subnets →
  SubnetProviderGet w' provider = inr subnets →
  fetchedOfferings w = fetchedOfferings w' →
  failure (DescribeInstanceTypeOfferingsPages w instanceTypeOfferingsInput) =
    failure
      (DescribeInstanceTypeOfferingsPages w' instanceTypeOfferingsInput) →
  getInstanceTypes w provider p = getInstanceTypes w' provider p ∧
  getInstanceTypeZones Hash w provider p =
    getInstanceTypeZones Hash w' provider p.
Proof.
  intros Hnow Hmiss Hrec Hfail Hh Hzmiss Hs Hs' Hoff Hzfail. split.
  - rewrite (getInstanceTypes_miss w) by done.
    rewrite (getInstanceTypes_miss w') by (by rewrite <- Hnow).
    by rewrite Hrec, Hfail, Hnow.
  - rewrite (getInstanceTypeZones_miss Hash w provider p h subnets) by done.
    rewrite (getInstanceTypeZones_miss Hash w' provider p h subnets)
      by (by rewrite <- ?Hnow).
    by rewrite Hoff, Hzfail, Hnow.
Qed.

Lemma fetches_ignore_page_boundaries_example :
  getInstanceTypes (exampleWorld 0) exampleRequest exampleProvider =
    getInstanceTypes repagedWorld exampleRequest exampleProvider ∧
  getInstanceTypeZones exampleHash (exampleWorld 0) exampleRequest
    exampleProvider =
    getInstanceTypeZones exampleHash repagedWorld exampleRequest
      exampleProvider.
Proof.
  apply (fetches_ignore_page_boundaries exampleHash (exampleWorld 0)
           repagedWorld exampleRequest exampleProvider 7
           [exampleSubnet "z1"; exampleSubnet "z2"]);
    reflexivity.
Defined.

(** ** The shape of the zonal map *)

(** X15.  On a miss of the zonal entry, when the subnets are resolved and
    the listing completes, the zonal map that [getInstanceTypeZones]
    returns never maps a shape to an empty set of zones; a shape other than
    [p4de.24xlarge] has an entry exactly when the listing offers it in the
    zone of a resolved subnet. *)
Theorem zonal_map_has_no_empty_entry Hash w provider p h subnets :
  Hash (SubnetSelector provider) = inr h →
  GoCache.Get (cache p) (zonesCacheKey h) (now w) = None →
  SubnetProviderGet w provider = inr subnets →
  failure (DescribeInstanceTypeOfferingsPages w instanceTypeOfferingsInput)
    = None →
  ∃ (instanceTypeZones : gmap string (gset string)) p',
    getInstanceTypeZones Hash w provider p = (Ok instanceTypeZones, p') ∧
    (∀ name zs, instanceTypeZones !! name = Some zs → zs ≠ ∅) ∧
    (∀ name,
       name ≠ "p4de.24xlarge"%string →
       (is_Some (instanceTypeZones !! name) ↔
        ∃ o subnet,
          o ∈ fetchedOfferings w ∧ subnet ∈ subnets ∧
          StringValue (OfferingInstanceType o) = name ∧
          StringValue (Location o) =
            StringValue (AvailabilityZone subnet))).
Proof.
  intros Hh Hmiss Hs Hdone.
  pose proof (getInstanceTypeZones_miss Hash w provider p h subnets
                Hh Hmiss Hs) as Hget.
  rewrite Hdone in Hget. simpl in Hget.
  set (zones := subnetZones subnets) in *.
  set (accumulated := foldl (addOffering zones) ∅ (fetchedOfferings w)) in *.
  assert (map_Forall (λ _ zs, zs ≠ ∅) accumulated) as Hne.
  { apply accumulate_nonempty, map_Forall_empty. }
  eexists _, _. split; [exact Hget|]. split.
  - intros name zs. rewrite forceOffering_lookup. case_decide.
    + intros [= <-]. apply non_empty_singleton_L.
    + apply Hne.
  - intros name Hname. rewrite forceOffering_lookup.
    rewrite decide_False by (by intros [? _]). split.
    + intros [zs Hzs].
      destruct (set_choose_L zs (Hne _ _ Hzs)) as [zone Hzone].
      destruct (proj1 (accumulate_lookup zones (fetchedOfferings w) ∅
                         name zone))
        as [(zs' & Hempty & _)|[Hz (o & Ho & Hn & Hl)]]; [by eauto| |].
      { by rewrite lookup_empty in Hempty. }
      apply elem_of_subnetZones in Hz as (subnet & Hsub & Haz).
      exists o, subnet. by rewrite Hl, Haz.
    + intros (o & subnet & Ho & Hsub & Hn & Hl).
      destruct (proj2 (accumulate_lookup zones (fetchedOfferings w) ∅
                         name (StringValue (Location o))))
        as (zs & Hzs & _); [|by eauto].
      right. split; [|by eauto].
      apply elem_of_subnetZones. exists subnet. by rewrite Hl.
Qed.

Lemma zonal_map_has_no_empty_entry_example :
  ∃ (instanceTypeZones : gmap string (gset string)) p',
    getInstanceTypeZones exampleHash (exampleWorld 0) exampleRequest
      exampleProvider = (Ok instanceTypeZones, p') ∧
    (∀ name zs, instanceTypeZones !! name = Some zs → zs ≠ ∅) ∧
    (∀ name,
       name ≠ "p4de.24xlarge"%string →
       (is_Some (instanceTypeZones !! name) ↔
        ∃ o subnet,
          o ∈ fetchedOfferings (exampleWorld 0) ∧
          subnet ∈ [exampleSubnet "z1"; exampleSubnet "z2"] ∧
          StringValue (OfferingInstanceType o) = name ∧
          StringValue (Location o) =
            StringValue (AvailabilityZone subnet))).
Proof.
  apply (zonal_map_has_no_empty_entry exampleHash (exampleWorld 0)
           exampleRequest exampleProvider 7
           [exampleSubnet "z1"; exampleSubnet "z2"]);
    reflexivity.
Defined.

(** ** A first call *)

Lemma Get_New {V : Type} d interval k now :
  GoCache.Get (GoCache.New (V := V) d interval) k now = None.
Proof. unfold GoCache.Get, GoCache.New. simpl. by rewrite lookup_empty. Qed.

Lemma NoDup_fmap_elem_inj {A B : Type} (f : A → B) (l : list A) x y :
  NoDup (f <$> l) → x ∈ l → y ∈ l → f x = f y → x = y.
Proof.
  induction l as [|a l IH]; intros Hnd Hx Hy Hf; [by apply elem_of_nil in Hx|].
  rewrite fmap_cons in Hnd. apply NoDup_cons in Hnd as [Ha Hnd].
  apply elem_of_cons in Hx as [->|Hx]; apply elem_of_cons in Hy as [->|Hy].
  - done.
  - exfalso. apply Ha. rewrite Hf. apply list_elem_of_fmap. eauto.
  - exfalso. apply Ha. rewrite <- Hf. apply list_elem_of_fmap. eauto.
  - by apply IH.
Qed.

(** X16.  The first [Get] of a new provider, when the two listings complete,
    the subnets are resolved, and the fetched records bear distinct
    identifiers and, where they pass the filter, are complete and carry
    their identifier: it returns a list, and it offers a shape in a zone
    with a capacity type exactly when a fetched record of that shape passes
    the filter and supports the capacity type, and EC2 offers the shape in
    that zone, which is the zone of a resolved subnet, or the offering is
    the forced one ([p4de.24xlarge] in [us-east-1d], when that zone is the
    zone of a resolved subnet and EC2 offers the shape in none of the
    resolved zones). *)
Theorem first_Get_offers Hash w provider interval h subnets :
  Hash (SubnetSelector provider) = inr h →
  SubnetProviderGet w provider = inr subnets →
  failure (DescribeInstanceTypesPages w instanceTypesInput) = None →
  failure (DescribeInstanceTypeOfferingsPages w instanceTypeOfferingsInput)
    = None →
  NoDup (nameOf <$> fetchedInstanceTypes w) →
  Forall (λ r, filter r = true → complete r ∧ is_Some (InstanceType r))
    (fetchedInstanceTypes w) →
  ∃ results p',
    Get Hash w provider (NewInstanceTypeProvider interval) =
      (Ok results, p') ∧
    ∀ name zone capacityType,
      offers results name zone capacityType ↔
      (∃ r, r ∈ fetchedInstanceTypes w ∧ nameOf r = name ∧
            filter r = true ∧
            capacityType ∈ StringValueSlice (SupportedUsageClasses r)) ∧
      (offeredIn w subnets name zone ∨
       (name = "p4de.24xlarge"%string ∧ zone = "us-east-1d"%string ∧
        (∃ subnet, subnet ∈ subnets ∧
                   StringValue (AvailabilityZone subnet) = "us-east-1d"%string)
        ∧ ∀ zone', ¬ offeredIn w subnets "p4de.24xlarge" zone')).
Proof.
  intros Hh Hs Hdone Hzdone Hnd Hc. rewrite Forall_forall in Hc.
  set (p0 := NewInstanceTypeProvider interval).
  destruct (retain_all_Ok (fetchedInstanceTypes w) ∅) as [catalog Hrun].
  { intros r Hr Hf. by apply Hc. }
  pose proof (getInstanceTypes_miss w provider p0 (Get_New _ _ _ _)) as H1.
  rewrite Hrun, Hdone in H1.
  set (p1 := setCache p0 InstanceTypesCacheKey (InstanceTypesValue catalog)
               (now w)) in *.
  assert (GoCache.Get (cache p1) (zonesCacheKey h) (now w) = None) as Hzmiss.
  { unfold p1, setCache. simpl.
    rewrite Get_SetDefault_ne by (by apply not_eq_sym, zonesCacheKey_ne).
    apply Get_New. }
  pose proof (getInstanceTypeZones_miss Hash w provider p1 h subnets
                Hh Hzmiss Hs) as H2.
  rewrite Hzdone in H2. simpl in H2.
  set (accumulated := foldl (addOffering (subnetZones subnets)) ∅
                        (fetchedOfferings w)) in *.
  set (zs := forceOffering (subnetZones subnets) accumulated) in *.
  (* the records of the catalog *)
  assert (∀ k i, catalog !! k = Some i →
            ∃ r, r ∈ fetchedInstanceTypes w ∧ nameOf r = k ∧
                 filter r = true ∧ InstanceType i = InstanceType r ∧
                 SupportedUsageClasses i = SupportedUsageClasses r)
    as Hcat.
  { intros k i Hk.
    destruct (retain_all_lookup _ _ _ _ _ Hrun Hk) as [Hempty|Hr].
    { by rewrite lookup_empty in Hempty. }
    destruct Hr as (r & Hr & Hn & Hf & Hcomp). exists r.
    destruct (compressInstanceType_complete r) as (i' & Hi' & ? & ?).
    { by apply Hc. }
    rewrite Hcomp in Hi'. by simplify_eq. }
  eexists _, _. split.
  { eapply Get_synthesized; [exact H1|exact H2|].
    intros k i Hk (Hnone & _).
    destruct (Hcat k i Hk) as (r & Hr & _ & Hf & Hname & _).
    destruct (Hc r Hr Hf) as [_ [n Hn]]. congruence. }
  intros name zone capacityType. rewrite offers_offered.
  assert (∀ i, zone ∈ zonesOf zs i ↔
               offeredIn w subnets (nameOf i) zone ∨
               (nameOf i = "p4de.24xlarge"%string ∧
                zone = "us-east-1d"%string ∧
                (∃ subnet, subnet ∈ subnets ∧
                   StringValue (AvailabilityZone subnet) =
                   "us-east-1d"%string) ∧
                ∀ zone', ¬ offeredIn w subnets "p4de.24xlarge" zone'))
    as Hzone.
  { intros i. unfold zonesOf, zs. rewrite forceOffering_lookup.
    rewrite <- elem_of_subnetZones, <- accumulated_None.
    fold accumulated. case_decide as Hforce.
    - destruct Hforce as (Hn & Hnone & Hd). simpl.
      rewrite elem_of_singleton. split.
      + intros ->. right. done.
      + intros [(zs' & Hzs' & _)%accumulated_offeredIn|(_ & -> & _)];
          [|done].
        fold accumulated in Hzs'. rewrite Hn in Hzs'. congruence.
    - rewrite <- accumulated_offeredIn. fold accumulated. split.
      + intros Hz. left.
        destruct (accumulated !! nameOf i) as [zs'|]; [|done]. eauto.
      + intros [(zs' & -> & Hz)|(Hn & _ & Hd & Hnone)]; [done|].
        exfalso. by apply Hforce. }
  split.
  - intros (i & [k Hk]%elem_of_rangeMap_values & Hn & Hz & Hcl & _).
    destruct (Hcat k i Hk) as (r & Hr & Hrn & Hf & Hname & Hclasses).
    assert (nameOf i = nameOf r) as Hir by (unfold nameOf; by rewrite Hname).
    split.
    + exists r. split_and!; [done|congruence|done|].
      apply elem_of_usageClasses in Hcl. by rewrite <- Hclasses.
    + rewrite <- Hn. by apply Hzone.
  - intros [(r & Hr & Hrn & Hf & Hcl) Hz].
    destruct (proj2 (retain_all_dom _ _ _ name Hrun)) as [i Hi].
    { right. eauto. }
    destruct (Hcat name i Hi) as (r' & Hr' & Hrn' & Hf' & Hname & Hclasses).
    assert (r' = r) as ->.
    { eapply (NoDup_fmap_elem_inj nameOf); [done..|congruence]. }
    assert (nameOf i = name) as Hin.
    { unfold nameOf in *. by rewrite Hname. }
    exists i. split_and!.
    + apply elem_of_rangeMap_values. eauto.
    + done.
    + apply Hzone. by rewrite Hin.
    + apply elem_of_usageClasses. by rewrite Hclasses.
    + unfold isUnavailable.
      rewrite (getInstanceTypeZones_unavailableOfferings _ _ _ _ _ _ H2).
      unfold p1, setCache, p0, NewInstanceTypeProvider. simpl.
      by rewrite Get_New.
Qed.

Lemma first_Get_offers_example :
  ∃ results p',
    Get exampleHash overrideWorld exampleRequest
      (NewInstanceTypeProvider (10 * Minute)) = (Ok results, p') ∧
    ∀ name zone capacityType,
      offers results name zone capacityType ↔
      (∃ r, r ∈ fetchedInstanceTypes overrideWorld ∧ nameOf r = name ∧
            filter r = true ∧
            capacityType ∈ StringValueSlice (SupportedUsageClasses r)) ∧
      (offeredIn overrideWorld
         [exampleSubnet "z1"; exampleSubnet "us-east-1d"] name zone ∨
       (name = "p4de.24xlarge"%string ∧ zone = "us-east-1d"%string ∧
        (∃ subnet,
           subnet ∈ [exampleSubnet "z1"; exampleSubnet "us-east-1d"] ∧
           StringValue (AvailabilityZone subnet) = "us-east-1d"%string)
        ∧ ∀ zone',
            ¬ offeredIn overrideWorld
                [exampleSubnet "z1"; exampleSubnet "us-east-1d"]
                "p4de.24xlarge" zone')).
Proof.
  apply (first_Get_offers exampleHash overrideWorld exampleRequest
           (10 * Minute) 7).
  - reflexivity.
  - reflexivity.
  - reflexivity.
  - reflexivity.
  - apply (bool_decide_unpack _). vm_compute. exact I.
  - apply (bool_decide_unpack _). vm_compute. exact I.
Defined.
